(** * KCB statement ETL: a shallow embedding of [app.py]

    The development follows the pipeline of [app.py]:
    [process_pdf] (the table normaliser), [create_summary],
    [create_daily_totals], [create_monthly_totals] (the aggregator) and the
    data path of [upload_file]; then [allowed_file],
    [apply_excel_formatting] as the calls it makes on the worksheets, and
    the route [/upload] with what it does to the upload folder.  An
    exception of the program is a [Raise] of the model.

    The program is written against pandas; what it relies on is written
    out where a property depends on it:
    - a DataFrame is a list of column labels and a list of rows of
      dynamically typed cells; the three aggregations receive the one frame
      [df] of [upload_file] and assign to its columns, so they return the
      frame next to their table;
    - a string is a sequence of 8-bit characters, and the digits of the
      date pattern are the ASCII digits;
    - a float is a binary64 number: a rational of 53 significant bits, or
      one of the two infinities or NaN; every operation rounds its exact
      result to the nearest such number, ties to even.  A quotient or a
      percentage beyond the range of the floats is an infinity, and
      division by zero gives an infinity or NaN; the sums are taken to
      stay inside the range.  Subnormal numbers and the sign of zero are
      not modelled: a zero is [+0.0], as the sums and the counts of the
      program produce it;
    - a Timestamp at midnight is its calendar date, ordered chronologically,
      inside the range of a nanosecond Timestamp;
    - [groupby] sorts the distinct keys of its column and leaves out the
      rows whose key is missing; its [sum] adds the values of a group with
      Kahan's compensation, as [group_sum] of pandas does, and [count]
      counts the values that are there; [Series.sum] is numpy's pairwise
      sum over the column with its missing values put to zero, and
      [Series.cumsum] adds from the top down;
    - [DataFrame.sort_values] with its default [kind='quicksort'] is numpy's
      introsort [aquicksort_] (median of three partition, insertion sort on
      short ranges, heapsort when the depth budget is exhausted). *)

From Stdlib Require Import ZArith QArith Qabs Qfield String Ascii Lia.
From stdpp Require Import base list sorting.

Local Open Scope string_scope.
Local Open Scope list_scope.
Local Open Scope Z_scope.

(** ** Exceptions *)

Inductive exception : Type :=
| ValueError_length_mismatch   (* [table.columns = [...]] with another width *)
| AttributeError_str_accessor  (* [.str] on a column that holds no strings *)
| ValueError_time_data         (* [to_datetime(..., format=...)] *)
| TypeError_dtype              (* arithmetic or [.dt] on a column of another type *)
| KeyError (label : string)    (* [df[label]] *)
| IndexError_out_of_bounds.    (* [.iloc[0]] on an empty column *)

Inductive result (A : Type) : Type :=
| Ok (a : A)
| Raise (e : exception).
Arguments Ok {A} a.
Arguments Raise {A} e.

Definition bind {A B} (r : result A) (k : A -> result B) : result B :=
  match r with
  | Ok a => k a
  | Raise e => Raise e
  end.

Notation "'let*' x ':=' r 'in' k" := (bind r (fun x => k))
  (at level 10, x pattern, r at level 100, k at level 200).

Fixpoint mapM {A B} (f : A -> result B) (l : list A) : result (list B) :=
  match l with
  | [] => Ok []
  | a :: l' => let* b := f a in let* bs := mapM f l' in Ok (b :: bs)
  end.

(** ** Dates *)

Record Date : Type := mkDate { year : Z; month : Z; day : Z }.

Definition date_eqb (a b : Date) : bool :=
  (year a =? year b) && (month a =? month b) && (day a =? day b).

(** Chronological order: [a < b] on Timestamps. *)
Definition date_ltb (a b : Date) : bool :=
  (year a <? year b)
  || ((year a =? year b)
      && ((month a <? month b) || ((month a =? month b) && (day a <? day b)))).

Definition is_leap (y : Z) : bool :=
  ((y mod 4 =? 0) && negb (y mod 100 =? 0)) || (y mod 400 =? 0).

Definition days_in_month (y m : Z) : Z :=
  if m =? 2 then (if is_leap y then 29 else 28)
  else if (m =? 4) || (m =? 6) || (m =? 9) || (m =? 11) then 30
  else 31.

(** A day the calendar has, inside the range of a nanosecond Timestamp:
    midnights from 1677-09-22 to 2262-04-11. *)
Definition Timestamp_min_date : Date := mkDate 1677 9 21.
Definition Timestamp_max_date : Date := mkDate 2262 4 11.

Definition valid_date (d : Date) : bool :=
  (1 <=? month d) && (month d <=? 12)
  && (1 <=? day d) && (day d <=? days_in_month (year d) (month d))
  && date_ltb Timestamp_min_date d
  && negb (date_ltb Timestamp_max_date d).

(** ** Characters and the patterns of the program *)

Definition is_digit (c : ascii) : bool :=
  let n := Z.of_N (N_of_ascii c) in (48 <=? n) && (n <=? 57).

Definition digit_val (c : ascii) : Z := Z.of_N (N_of_ascii c) - 48.

Definition is_dot (c : ascii) : bool := Ascii.eqb c ".".

(** [re.match(r'\d{2}\.\d{2}\.\d{4}', s)]: the pattern at the start of [s]. *)
Definition date_pattern_at (s : string) : bool :=
  match s with
  | String d1 (String d2 (String p1 (String m1 (String m2 (String p2
      (String y1 (String y2 (String y3 (String y4 _))))))))) =>
      is_digit d1 && is_digit d2 && is_dot p1
      && is_digit m1 && is_digit m2 && is_dot p2
      && is_digit y1 && is_digit y2 && is_digit y3 && is_digit y4
  | _ => false
  end.

(** [re.search(r'\d{2}\.\d{2}\.\d{4}', s)]: the pattern anywhere in [s];
    this is what [Series.str.contains] evaluates on a string. *)
Fixpoint date_pattern_search (s : string) : bool :=
  date_pattern_at s
  || match s with
     | EmptyString => false
     | String _ s' => date_pattern_search s'
     end.

(** The whole string is [DD.MM.YYYY]. *)
Definition date_pattern_full (s : string) : bool :=
  date_pattern_at s && (String.length s =? 10)%nat.

(** [datetime.strptime(s, '%d.%m.%Y')] as [to_datetime] applies it: the
    whole string has to be consumed and has to name a day that exists.  On
    a string that holds the search pattern the format can only match as two
    digits, a dot, two digits, a dot and four digits. *)
Definition strptime_dmY (s : string) : option Date :=
  match s with
  | String d1 (String d2 (String p1 (String m1 (String m2 (String p2
      (String y1 (String y2 (String y3 (String y4 EmptyString))))))))) =>
      if date_pattern_at s then
        let d := mkDate
                   (1000 * digit_val y1 + 100 * digit_val y2
                    + 10 * digit_val y3 + digit_val y4)
                   (10 * digit_val m1 + digit_val m2)
                   (10 * digit_val d1 + digit_val d2) in
        if valid_date d then Some d else None
      else None
  | _ => None
  end.

(** ** Cells, rows and frames *)

Inductive cell : Type :=
| NaN                (* a missing value: NaN, None, NaT *)
| Str (s : string)
| Num (q : Q)
| Dt (d : Date).

Definition is_null (c : cell) : bool :=
  match c with NaN => true | _ => false end.

Definition is_Str (c : cell) : bool :=
  match c with Str _ => true | _ => false end.

Abbreviation Row := (list cell).

Record DataFrame : Type := mkFrame {
  columns : list string;
  rows : list Row
}.

(** A table as the extraction library hands it over: [header=None] labels
    the columns [0 .. width-1]. *)
Record RawTable : Type := mkRaw {
  width : nat;
  body : list Row
}.

(** Position of the first label equal to [name]. *)
Fixpoint column_index (name : string) (cols : list string) : option nat :=
  match cols with
  | [] => None
  | c :: cols' =>
      if String.eqb c name then Some 0%nat
      else option_map S (column_index name cols')
  end.

Definition cell_at (i : nat) (r : Row) : cell := default NaN (r !! i).

(** [df[name]] *)
Definition get_column (df : DataFrame) (name : string) : result (list cell) :=
  match column_index name (columns df) with
  | Some i => Ok (map (cell_at i) (rows df))
  | None => Raise (KeyError name)
  end.

(** [df[name] = values], for [values] as long as the frame: an existing
    column is replaced in place, a new label is appended on the right. *)
Fixpoint zip_with_rows (f : Row -> cell -> Row) (rs : list Row) (vs : list cell)
  : list Row :=
  match rs, vs with
  | r :: rs', v :: vs' => f r v :: zip_with_rows f rs' vs'
  | _, _ => []
  end.

Definition set_column (df : DataFrame) (name : string) (values : list cell)
  : DataFrame :=
  match column_index name (columns df) with
  | Some i =>
      mkFrame (columns df) (zip_with_rows (fun r v => <[i:=v]> r) (rows df) values)
  | None =>
      mkFrame (columns df ++ [name])
              (zip_with_rows (fun r v => r ++ [v]) (rows df) values)
  end.

(** [df[mask]]: the rows for which the mask holds. *)
Definition filter_rows (keep : Row -> bool) (df : DataFrame) : DataFrame :=
  mkFrame (columns df) (List.filter keep (rows df)).

(** ** Floats

    A float is carried as the rational it is; an operation computes its
    exact result and rounds it to 53 significant bits. *)

(** The nearest integer to [n / d], ties to even, for [0 <= n] and
    [0 < d]. *)
Definition round_half_even (n d : Z) : Z :=
  let q := n / d in
  match (2 * (n mod d) ?= d) with
  | Lt => q
  | Gt => q + 1
  | Eq => if Z.even q then q else q + 1
  end.

(** The binary64 number nearest to [x]: [m * 2 ^ e] with
    [2 ^ 52 <= m <= 2 ^ 53], where [m] is the nearest integer to
    [|x| / 2 ^ e], ties to even. *)
Definition round53 (x : Q) : Q :=
  let n := Z.abs (Qnum x) in
  let d := Zpos (Qden x) in
  if n =? 0 then 0%Q
  else
    let k := Z.log2 n - Z.log2 d in
    let above := if 0 <=? k then d * 2 ^ k <=? n else d <=? n * 2 ^ (- k) in
    let e := if above then k - 52 else k - 53 in
    let m := if 0 <=? e then round_half_even n (d * 2 ^ e)
             else round_half_even (n * 2 ^ (- e)) d in
    let v := if 0 <=? e then inject_Z (m * 2 ^ e)
             else Qred (Qmake m (Z.to_pos (2 ^ (- e)))) in
    if Qnum x <? 0 then (- v)%Q else v.

(** [a + b], [a - b] and [a * b] on floats. *)
Definition fadd (a b : Q) : Q := round53 (a + b).
Definition fsub (a b : Q) : Q := round53 (a - b).
Definition fmul (a b : Q) : Q := round53 (a * b).

(** ** numpy's argsort of kind [quicksort]

    [sort_values] leaves the order to [ndarray.argsort(kind='quicksort')],
    numpy's introsort [aquicksort_].  The index array [tosort] is modelled
    one range [pl .. pr] at a time: a range is a list, position 0 is [pl]
    and the last position is [pr].  An entry carries what the comparison
    [less] looks at, so [less x y] stands for [Tag::less(v[x], v[y])].
    The explicit stack of ranges becomes recursion: the ranges on the stack
    are disjoint, and each is sorted on its own with the depth budget that
    was stored with it. *)

Section Introsort.
Context {A : Type} (less : A -> A -> bool).

Definition SMALL_QUICKSORT : nat := 15.

(** [INTP_SWAP(a[i], a[j])] *)
Definition swap (a : list A) (i j : nat) : list A :=
  match a !! i, a !! j with
  | Some x, Some y => <[i:=y]> (<[j:=x]> a)
  | _, _ => a
  end.

(** [Tag::less(v[a[i]], v[a[j]])] *)
Definition less_at (a : list A) (i j : nat) : bool :=
  match a !! i, a !! j with
  | Some x, Some y => less x y
  | _, _ => false
  end.

(** The three conditional swaps that order [pl], [pm], [pr]. *)
Definition median_of_three (a : list A) (pl pm pr : nat) : list A :=
  let a := if less_at a pm pl then swap a pm pl else a in
  let a := if less_at a pr pm then swap a pr pm else a in
  if less_at a pm pl then swap a pm pl else a.

(** [do { ++pi; } while (less(v[*pi], vp));] *)
Fixpoint scan_up (fuel : nat) (a : list A) (vp : A) (pi : nat) : nat :=
  match fuel with
  | O => pi
  | S fuel' =>
      match a !! (S pi) with
      | Some x => if less x vp then scan_up fuel' a vp (S pi) else S pi
      | None => S pi
      end
  end.

(** [do { --pj; } while (less(vp, v[*pj]));] *)
Fixpoint scan_down (fuel : nat) (a : list A) (vp : A) (pj : nat) : nat :=
  match fuel with
  | O => pj
  | S fuel' =>
      match a !! (Nat.pred pj) with
      | Some x => if less vp x then scan_down fuel' a vp (Nat.pred pj)
                  else Nat.pred pj
      | None => Nat.pred pj
      end
  end.

(** The [for (;;)] loop of the partition step. *)
Fixpoint partition_loop (fuel : nat) (a : list A) (vp : A) (pi pj : nat)
  : list A * nat :=
  match fuel with
  | O => (a, pi)
  | S fuel' =>
      let pi := scan_up (length a) a vp pi in
      let pj := scan_down (length a) a vp pj in
      if (pj <=? pi)%nat then (a, pi)
      else partition_loop fuel' (swap a pi pj) vp pi pj
  end.

(** One partition of the range [a]: the array afterwards and the final
    place [pi] of the pivot. *)
Definition partition (a : list A) : list A * nat :=
  let pr := (length a - 1)%nat in
  let pm := (pr / 2)%nat in
  let a := median_of_three a 0 pm pr in
  match a !! pm with
  | None => (a, 0%nat)
  | Some vp =>
      let pj := (pr - 1)%nat in
      let a := swap a pm pj in
      let '(a, pi) := partition_loop (length a) a vp 0 pj in
      (swap a pi (pr - 1), pi)
  end.

(** The insertion sort of a short range.  The part already sorted is
    held back to front, so that its head is [*pk]; entries are moved up
    while [less(vp, v[*pk])]. *)
Fixpoint insert_back (vi : A) (sorted_rev : list A) : list A :=
  match sorted_rev with
  | [] => [vi]
  | x :: rest =>
      if less vi x then x :: insert_back vi rest else vi :: x :: rest
  end.

Definition insertion_sort (a : list A) : list A :=
  rev (fold_left (fun acc vi => insert_back vi acc) a []).

(** [aheapsort_] works on [a = tosort - 1], indexed from 1. *)
Definition get1 (a : list A) (k : nat) : option A := a !! (k - 1)%nat.
Definition set1 (a : list A) (k : nat) (x : A) : list A := <[(k - 1)%nat:=x]> a.

Definition less_at1 (a : list A) (i j : nat) : bool :=
  less_at a (i - 1) (j - 1).

(** The loop [for (i, j = 2i; j <= n;)] and the store [a[i] = tmp] after it. *)
Fixpoint sift_down (fuel : nat) (a : list A) (tmp : A) (i j n : nat) : list A :=
  match fuel with
  | O => set1 a i tmp
  | S fuel' =>
      if (j <=? n)%nat then
        let j := if (j <? n)%nat && less_at1 a j (j + 1) then (j + 1)%nat else j in
        match get1 a j with
        | Some aj =>
            if less tmp aj
            then sift_down fuel' (set1 a i aj) tmp j (j + j) n
            else set1 a i tmp
        | None => set1 a i tmp
        end
      else set1 a i tmp
  end.

(** [for (l = n >> 1; l > 0; --l)] *)
Fixpoint build_heap (l : nat) (a : list A) (n : nat) : list A :=
  match l with
  | O => a
  | S l' =>
      match get1 a l with
      | Some tmp => build_heap l' (sift_down n a tmp l (2 * l) n) n
      | None => a
      end
  end.

(** [for (; n > 1;)] *)
Fixpoint extract_max (fuel : nat) (a : list A) (n : nat) : list A :=
  match fuel with
  | O => a
  | S fuel' =>
      if (1 <? n)%nat then
        match get1 a n, get1 a 1 with
        | Some tmp, Some top =>
            let a := set1 a n top in
            let n := (n - 1)%nat in
            extract_max fuel' (sift_down n a tmp 1 2 n) n
        | _, _ => a
        end
      else a
  end.

Definition aheapsort (a : list A) : list A :=
  let n := length a in
  extract_max n (build_heap (n / 2) a n) n.

(** One range taken from the stack ([check_depth = true]: the test
    [cdepth < 0] at the head of the outer loop applies) or the range the
    inner [while] goes on with ([check_depth = false]).  Of the two parts
    of a partition the larger one is pushed with the new depth budget and
    the smaller one stays in the inner loop. *)
Fixpoint aquicksort_range (fuel : nat) (check_depth : bool) (cdepth : Z)
         (a : list A) : list A :=
  match fuel with
  | O => a
  | S fuel' =>
      if check_depth && (cdepth <? 0) then aheapsort a
      else if (SMALL_QUICKSORT <? length a - 1)%nat then
        let '(a', pi) := partition a in
        let left := take pi a' in
        let pivot := take 1 (drop pi a') in
        let right := drop (S pi) a' in
        let cdepth := cdepth - 1 in
        if (pi <? (length a - 1) - pi)%nat then
          aquicksort_range fuel' false cdepth left
            ++ pivot ++ aquicksort_range fuel' true cdepth right
        else
          aquicksort_range fuel' true cdepth left
            ++ pivot ++ aquicksort_range fuel' false cdepth right
      else insertion_sort a
  end.

(** [npy_get_msb(num) * 2] *)
Definition depth_limit (num : nat) : Z := 2 * Z.log2 (Z.of_nat num).

Definition npy_aquicksort (a : list A) : list A :=
  aquicksort_range (S (length a)) true (depth_limit (length a)) a.

(** *** Predicates for the properties of the sort *)

(** [x] is not after [y]. *)
Definition not_after (x y : A) : Prop := less y x = false.

(** The invariant of the partition loop at its head: the pivot [vp] sits
    at [n - 2], everything up to [pi] is not after it, everything from
    [pj] on is not before it. *)
Definition partition_inv (vp : A) (n : nat) (a : list A) (pi pj : nat) : Prop :=
  length a = n /\ (2 <= n)%nat /\ (pi < pj)%nat /\ (pj <= n - 2)%nat
  /\ a !! (n - 2)%nat = Some vp
  /\ (forall k x, (k <= pi)%nat -> a !! k = Some x -> less vp x = false)
  /\ (forall k x, (pj <= k)%nat -> a !! k = Some x -> less x vp = false).

Definition partition_post (vp : A) (n : nat) (a : list A) (pi : nat) : Prop :=
  length a = n /\ (2 <= n)%nat /\ (pi <= n - 2)%nat
  /\ a !! (n - 2)%nat = Some vp
  /\ (forall k x, (k < pi)%nat -> a !! k = Some x -> less vp x = false)
  /\ (forall k x, (pi <= k)%nat -> a !! k = Some x -> less x vp = false).

Definition is_child (k c : nat) : Prop := c = (2 * k)%nat \/ c = (2 * k + 1)%nat.

(** In [a[1 .. n]] the entry at [k] is not before its children. *)
Definition heap_at (a : list A) (n k : nat) : Prop :=
  forall c x y, is_child k c -> (c <= n)%nat ->
    get1 a k = Some x -> get1 a c = Some y -> less x y = false.
End Introsort.


(** ** [DataFrame.sort_values(by)] on a datetime column *)

(** A cell of a [datetime64] column: a date or [NaT]. *)
Definition as_datetime (c : cell) : result (option Date) :=
  match c with
  | Dt d => Ok (Some d)
  | NaN => Ok None
  | _ => Raise TypeError_dtype
  end.

Definition less_by_date (x y : nat * Date) : bool := date_ltb (snd x) (snd y).

(** Positions paired with their keys, for the keys that are not [NaT]. *)
Fixpoint non_nan_idx (i : nat) (keys : list (option Date)) : list (nat * Date) :=
  match keys with
  | [] => []
  | Some d :: keys' => (i, d) :: non_nan_idx (S i) keys'
  | None :: keys' => non_nan_idx (S i) keys'
  end.

Fixpoint nan_idx (i : nat) (keys : list (option Date)) : list nat :=
  match keys with
  | [] => []
  | Some _ :: keys' => nan_idx (S i) keys'
  | None :: keys' => i :: nan_idx (S i) keys'
  end.

(** [nargsort]: the keys that are not missing are sorted by numpy, the
    positions of missing keys follow ([na_position='last']). *)
Definition nargsort (keys : list (option Date)) : list nat :=
  map fst (npy_aquicksort less_by_date (non_nan_idx 0 keys)) ++ nan_idx 0 keys.

(** [take(indexer)] *)
Definition take_rows (indexer : list nat) (rs : list Row) : list Row :=
  map (fun i => default [] (rs !! i)) indexer.

Definition sort_values (df : DataFrame) (by_ : string) : result DataFrame :=
  let* col := get_column df by_ in
  let* keys := mapM as_datetime col in
  Ok (mkFrame (columns df) (take_rows (nargsort keys) (rows df))).

(** ** The table normaliser: [process_pdf] *)

Definition canonical_columns : list string :=
  ["Transaction Date"; "Value Date"; "Transaction Details";
   "Money Out"; "Money In"; "Ledger Balance"; "Bank Reference Number"].

(** [dropna(how='all')] keeps a row unless every cell of it is missing. *)
Definition all_null (r : Row) : bool := forallb is_null r.

(** The [.str] accessor is there for a column of dtype object, which is
    what a column with a string in it has; a column of numbers or of
    missing values only is a float column and has no such accessor.  The
    dtype is that of the column of the table as it was extracted:
    [dropna] does not change it. *)
Definition has_str_accessor (col : list cell) : bool :=
  match col with
  | [] => true
  | _ => existsb is_Str col
  end.

(** [Series.str.contains(r'\d{2}\.\d{2}\.\d{4}', na=False)] on one cell:
    a search in a string, [False] on everything else. *)
Definition str_contains_date (c : cell) : bool :=
  match c with
  | Str s => date_pattern_search s
  | _ => false
  end.

(** The body of the loop over [tables]: [None] for a table the width test
    skips, the filtered rows for one that is appended to
    [processed_tables]. *)
Definition process_table (table : RawTable) : result (option (list Row)) :=
  if (6 <=? width table)%nat then
    if (width table =? length canonical_columns)%nat then
      let kept := List.filter (fun r => negb (all_null r)) (body table) in
      if has_str_accessor (map (cell_at 0) (body table)) then
        Ok (Some (List.filter (fun r => str_contains_date (cell_at 0 r)) kept))
      else Raise AttributeError_str_accessor
    else Raise ValueError_length_mismatch
  else Ok None.

Fixpoint process_tables (tables : list RawTable) : result (list (list Row)) :=
  match tables with
  | [] => Ok []
  | table :: tables' =>
      let* t := process_table table in
      let* processed_tables := process_tables tables' in
      Ok (match t with
          | Some t => t :: processed_tables
          | None => processed_tables
          end)
  end.

(** [final_df['Transaction Date'] != 'Transaction Date'] *)
Definition not_header_label (c : cell) : bool :=
  match c with
  | Str s => negb (String.eqb s "Transaction Date")
  | _ => true
  end.

(** [pd.to_datetime(column, format='%d.%m.%Y')] on one cell. *)
Definition to_datetime_format (c : cell) : result cell :=
  match c with
  | NaN => Ok NaN
  | Dt d => Ok (Dt d)
  | Str s =>
      match strptime_dmY s with
      | Some d => Ok (Dt d)
      | None => Raise ValueError_time_data
      end
  | Num _ => Raise ValueError_time_data
  end.

(** [Series.replace('[\$,]', '', regex=True)]: the dollar signs and commas
    of a string are removed, other cells are left as they are. *)
Fixpoint strip_currency (s : string) : string :=
  match s with
  | EmptyString => EmptyString
  | String c s' =>
      if Ascii.eqb c "$" || Ascii.eqb c ","
      then strip_currency s'
      else String c (strip_currency s')
  end.

Definition replace_currency (c : cell) : cell :=
  match c with
  | Str s => Str (strip_currency s)
  | _ => c
  end.

(** Decimal literals as [pd.to_numeric] reads them: an optional sign,
    digits, an optional fraction; the float is the one nearest to the
    number written, which is what the library returns for a literal of at
    most 15 significant digits (on longer ones its readers can be off in
    the last place).  The further spellings of the library (exponents,
    [inf], [nan], blanks around the number) are not modelled and read as
    unparseable. *)
Fixpoint read_digits (s : string) (acc : Z) (n : nat) : Z * nat * string :=
  match s with
  | String c s' =>
      if is_digit c then read_digits s' (10 * acc + digit_val c) (S n)
      else (acc, n, s)
  | EmptyString => (acc, n, s)
  end.

Definition parse_decimal (s : string) : option Q :=
  let '(neg, s1) :=
    match s with
    | String "-" t => (true, t)
    | String "+" t => (false, t)
    | _ => (false, s)
    end in
  let '(ip, ni, s2) := read_digits s1 0 0 in
  let '(fp, nf, s3) :=
    match s2 with
    | String "." t => read_digits t 0 0
    | _ => (0, 0%nat, s2)
    end in
  match s3 with
  | EmptyString =>
      if (ni + nf =? 0)%nat then None
      else
        let scale := 10 ^ Z.of_nat nf in
        let m := ip * scale + fp in
        Some (Qmake (if neg then - m else m) (Z.to_pos scale))
  | _ => None
  end.

(** [pd.to_numeric(column, errors='coerce')] on one cell. *)
Definition to_numeric_coerce (c : cell) : cell :=
  match c with
  | Num q => Num q
  | Str s =>
      match parse_decimal s with
      | Some q => Num (round53 q)
      | None => NaN
      end
  | _ => NaN
  end.

Definition clean_monetary (df : DataFrame) (col : string) : result DataFrame :=
  let* values := get_column df col in
  let df := set_column df col (map replace_currency values) in
  let* values := get_column df col in
  Ok (set_column df col (map to_numeric_coerce values)).

Definition process_pdf (tables : list RawTable) : result (option DataFrame) :=
  let* processed_tables := process_tables tables in
  match processed_tables with
  | [] => Ok None
  | _ :: _ =>
      let final_df := mkFrame canonical_columns (concat processed_tables) in
      let final_df :=
        filter_rows (fun r => not_header_label (cell_at 0 r)) final_df in
      let* dates := get_column final_df "Transaction Date" in
      let* dates := mapM to_datetime_format dates in
      let final_df := set_column final_df "Transaction Date" dates in
      let* final_df := sort_values final_df "Transaction Date" in
      let* final_df := clean_monetary final_df "Money Out" in
      let* final_df := clean_monetary final_df "Money In" in
      let* final_df := clean_monetary final_df "Ledger Balance" in
      Ok (Some final_df)
  end.

(** ** Numbers of the aggregates *)

(** A float of a derived column: a number, an infinity or NaN (null). *)
Inductive fvalue : Type :=
| Finite (q : Q)
| PosInf
| NegInf
| NotANumber.

(** The rounded result of an operation, when its place is a float of a
    derived column: from [2 ^ 1024] on it is an infinity. *)
Definition finite_or_inf (q : Q) : fvalue :=
  if Qle_bool (inject_Z (2 ^ 1024)) (Qabs q) then
    if Qnum q <? 0 then NegInf else PosInf
  else Finite q.

(** Float division of two numbers; the divisor zero is [+0.0], as sums
    and counts produce it. *)
Definition fdiv (a b : Q) : fvalue :=
  if Qeq_bool b 0 then
    match (a ?= 0)%Q with
    | Eq => NotANumber
    | Gt => PosInf
    | Lt => NegInf
    end
  else finite_or_inf (round53 (a / b)).

(** A cell of a float column. *)
Definition as_float (c : cell) : result (option Q) :=
  match c with
  | Num q => Ok (Some q)
  | NaN => Ok None
  | _ => Raise TypeError_dtype
  end.

Definition float_column (df : DataFrame) (name : string)
  : result (list (option Q)) :=
  let* col := get_column df name in
  mapM as_float col.

(** numpy's [pairwise_sum] of a contiguous array: fewer than 8 numbers
    are added from the left; up to [PW_BLOCKSIZE] numbers are added in 8
    accumulators, which are then added in pairs, and the rest from the
    left; a longer array is cut in two, at a multiple of 8. *)
Definition PW_BLOCKSIZE : nat := 128.

Definition add_from_left (res : Q) (a : list Q) : Q := fold_left fadd a res.

(** [r[j] += a[i + j]] for the blocks of 8 that are whole; the numbers
    that are left over come back with the accumulators. *)
Fixpoint accumulate_blocks (fuel : nat) (r : list Q) (a : list Q)
  : list Q * list Q :=
  match fuel with
  | O => (r, a)
  | S fuel' =>
      if (8 <=? length a)%nat then
        accumulate_blocks fuel'
          (zip_with fadd r (take 8 a)) (drop 8 a)
      else (r, a)
  end.

Definition add_in_pairs (r : list Q) : Q :=
  match r with
  | [r0; r1; r2; r3; r4; r5; r6; r7] =>
      fadd (fadd (fadd r0 r1) (fadd r2 r3)) (fadd (fadd r4 r5) (fadd r6 r7))
  | _ => 0%Q
  end.

Fixpoint pairwise_sum_fuel (fuel : nat) (a : list Q) : Q :=
  match fuel with
  | O => 0%Q
  | S fuel' =>
      let n := length a in
      if (n <? 8)%nat then add_from_left 0%Q a
      else if (n <=? PW_BLOCKSIZE)%nat then
        let '(r, rest) := accumulate_blocks n (take 8 a) (drop 8 a) in
        add_from_left (add_in_pairs r) rest
      else
        let n2 := (n / 2)%nat in
        let n2 := (n2 - n2 mod 8)%nat in
        fadd (pairwise_sum_fuel fuel' (take n2 a))
             (pairwise_sum_fuel fuel' (drop n2 a))
  end.

Definition pairwise_sum (a : list Q) : Q := pairwise_sum_fuel (S (length a)) a.

(** [Series.sum()] of a column without missing values. *)
Definition Qsum (l : list Q) : Q := pairwise_sum l.

(** [Series.sum()]: the missing values count as 0, nothing sums to 0. *)
Definition sum_skipna (l : list (option Q)) : Q :=
  pairwise_sum (map (default 0%Q) l).

(** The [sum] of a group of [groupby]: the values that are there are
    added one by one, with a compensation for the error of each
    addition. *)
Fixpoint group_sum_from (sumx compensation : Q) (l : list (option Q)) : Q :=
  match l with
  | [] => sumx
  | None :: l' => group_sum_from sumx compensation l'
  | Some val :: l' =>
      let y := fsub val compensation in
      let t := fadd sumx y in
      let compensation := fsub (fsub t sumx) y in
      group_sum_from t compensation l'
  end.

Definition group_sum (l : list (option Q)) : Q := group_sum_from 0%Q 0%Q l.

Definition nat_sum (l : list nat) : nat := fold_right Nat.add 0%nat l.

Definition Qnat (n : nat) : Q := inject_Z (Z.of_nat n).

(** [Series.notna().sum()] and the [count] aggregate. *)
Definition count_float (l : list (option Q)) : nat :=
  length (List.filter (fun x => match x with Some _ => true | None => false end) l).

Definition count_notna (l : list cell) : nat :=
  length (List.filter (fun c => negb (is_null c)) l).

Definition present (l : list (option Q)) : list Q :=
  flat_map (fun x => match x with Some q => [q] | None => [] end) l.

(** [Series.mean()] *)
Definition mean_skipna (l : list (option Q)) : fvalue :=
  match present l with
  | [] => NotANumber
  | _ => fdiv (sum_skipna l) (Qnat (count_float l))
  end.

Definition Qmax (a b : Q) : Q := if Qle_bool a b then b else a.
Definition Qmin (a b : Q) : Q := if Qle_bool a b then a else b.

(** [Series.max()] and [Series.min()] *)
Definition max_skipna (l : list (option Q)) : fvalue :=
  match present l with
  | [] => NotANumber
  | q :: qs => Finite (fold_left Qmax qs q)
  end.

Definition min_skipna (l : list (option Q)) : fvalue :=
  match present l with
  | [] => NotANumber
  | q :: qs => Finite (fold_left Qmin qs q)
  end.

(** [Series.iloc[0]] and [Series.iloc[-1]] *)
Definition iloc_first (col : list cell) : result cell :=
  match col with
  | [] => Raise IndexError_out_of_bounds
  | c :: _ => Ok c
  end.

Definition iloc_last (col : list cell) : result cell :=
  match last col with
  | None => Raise IndexError_out_of_bounds
  | Some c => Ok c
  end.

(** ** [create_summary] *)

Record Summary : Type := mkSummary {
  Total_Money_In : Q;
  Total_Money_Out : Q;
  Net_Movement : Q;
  Number_of_Transactions : nat;
  Number_of_Incoming_Transactions : nat;
  Number_of_Outgoing_Transactions : nat;
  Average_Transaction_In : fvalue;
  Average_Transaction_Out : fvalue;
  Largest_Transaction_In : fvalue;
  Largest_Transaction_Out : fvalue;
  First_Transaction_Date : cell;
  Last_Transaction_Date : cell
}.

Definition create_summary (df : DataFrame) : result Summary :=
  let* money_in := float_column df "Money In" in
  let* money_out := float_column df "Money Out" in
  let* dates := get_column df "Transaction Date" in
  let* first := iloc_first dates in
  let* last := iloc_last dates in
  Ok {| Total_Money_In := sum_skipna money_in;
        Total_Money_Out := sum_skipna money_out;
        Net_Movement := fadd (sum_skipna money_in) (sum_skipna money_out);
        Number_of_Transactions := length (rows df);
        Number_of_Incoming_Transactions := count_float money_in;
        Number_of_Outgoing_Transactions := count_float money_out;
        Average_Transaction_In := mean_skipna money_in;
        Average_Transaction_Out := mean_skipna money_out;
        Largest_Transaction_In := max_skipna money_in;
        Largest_Transaction_Out := min_skipna money_out;
        First_Transaction_Date := first;
        Last_Transaction_Date := last |}.

(** ** [groupby]

    The keys of the groups are the distinct keys of the column, sorted
    ([sort=True]); a row with a missing key belongs to no group. *)

Section GroupBy.
Context {K : Type} (key_eqb key_ltb : K -> K -> bool).

Fixpoint insert_key (k : K) (ks : list K) : list K :=
  match ks with
  | [] => [k]
  | k' :: ks' =>
      if key_eqb k k' then ks
      else if key_ltb k k' then k :: ks
      else k' :: insert_key k ks'
  end.

Definition group_keys (keys : list K) : list K :=
  fold_right insert_key [] keys.

(** The values of the rows whose key is [k], in the order of the rows. *)
Fixpoint group_values {V : Type} (k : K) (keys : list (option K)) (vs : list V)
  : list V :=
  match keys, vs with
  | Some k' :: keys', v :: vs' =>
      if key_eqb k k' then v :: group_values k keys' vs'
      else group_values k keys' vs'
  | None :: keys', _ :: vs' => group_values k keys' vs'
  | _, _ => []
  end.
End GroupBy.

Definition of_datetime (d : option Date) : cell :=
  match d with
  | Some d => Dt d
  | None => NaN
  end.

(** [pd.to_datetime(column)] without a format, on a column that is
    [datetime64] already: the column as it is.  Reading dates from strings
    by inference is not modelled; such a column is rejected. *)
Definition to_datetime (col : list cell) : result (list (option Date)) :=
  mapM as_datetime col.

(** ** [create_daily_totals] *)

Record DailyTotal : Type := mkDaily {
  daily_Transaction_Date : Date;
  daily_Money_In : Q;
  daily_Money_Out : Q;
  daily_Transaction_Details : nat;
  daily_Net_Movement : Q
}.

(** The function assigns to a column of the frame it is given: the frame
    after the call is part of the result. *)
Definition create_daily_totals (df : DataFrame)
  : result (DataFrame * list DailyTotal) :=
  let* dates := get_column df "Transaction Date" in
  let* dates := to_datetime dates in
  let df := set_column df "Transaction Date" (map of_datetime dates) in
  let* money_in := float_column df "Money In" in
  let* money_out := float_column df "Money Out" in
  let* details := get_column df "Transaction Details" in
  let daily_totals :=
    map (fun d =>
           let sum_in := group_sum (group_values date_eqb d dates money_in) in
           let sum_out := group_sum (group_values date_eqb d dates money_out) in
           {| daily_Transaction_Date := d;
              daily_Money_In := sum_in;
              daily_Money_Out := sum_out;
              daily_Transaction_Details :=
                count_notna (group_values date_eqb d dates details);
              daily_Net_Movement := fadd sum_in sum_out |})
        (group_keys date_eqb date_ltb (omap id dates)) in
  Ok (df, daily_totals).

(** ** Formatting dates *)

Definition digit_char (n : Z) : ascii := ascii_of_N (Z.to_N (48 + n mod 10)).

Fixpoint decimal_digits (fuel : nat) (n : Z) (acc : string) : string :=
  match fuel with
  | O => acc
  | S fuel' =>
      let acc := String (digit_char n) acc in
      if n <? 10 then acc else decimal_digits fuel' (n / 10) acc
  end.

(** A number that is not negative in decimal, without padding. *)
Definition decimal (n : Z) : string :=
  decimal_digits (S (Z.to_nat n)) n EmptyString.

(** Two digits, padded with a zero. *)
Definition decimal2 (n : Z) : string :=
  String (digit_char (n / 10)) (String (digit_char n) EmptyString).

Definition month_name (m : Z) : string :=
  match m with
  | 1 => "January" | 2 => "February" | 3 => "March" | 4 => "April"
  | 5 => "May" | 6 => "June" | 7 => "July" | 8 => "August"
  | 9 => "September" | 10 => "October" | 11 => "November" | 12 => "December"
  | _ => ""
  end.

(** [strftime('%B %Y')] *)
Definition strftime_B_Y (d : Date) : string :=
  (month_name (month d) ++ " " ++ decimal (year d))%string.

(** [strftime('%d.%m.%Y')] *)
Definition strftime_dmY (d : Date) : string :=
  (decimal2 (day d) ++ "." ++ decimal2 (month d) ++ "." ++ decimal (year d))%string.

(** [Series.dt.strftime(format)]: [NaT] stays missing. *)
Definition dt_strftime (format : Date -> string) (d : option Date) : cell :=
  match d with
  | Some d => Str (format d)
  | None => NaN
  end.

(** A cell of a column of strings. *)
Definition as_label (c : cell) : option string :=
  match c with
  | Str s => Some s
  | _ => None
  end.

(** ** [create_monthly_totals] *)

(** [Series.pct_change()]: the first entry has nothing before it; the
    others are [current / previous - 1]. *)
Definition minus_one (x : fvalue) : fvalue :=
  match x with
  | Finite q => finite_or_inf (fsub q 1)
  | other => other
  end.

Definition times_100 (x : fvalue) : fvalue :=
  match x with
  | Finite q => finite_or_inf (fmul q 100)
  | other => other
  end.

Fixpoint pct_change_from (previous : Q) (l : list Q) : list fvalue :=
  match l with
  | [] => []
  | current :: l' =>
      minus_one (fdiv current previous) :: pct_change_from current l'
  end.

Definition pct_change (l : list Q) : list fvalue :=
  match l with
  | [] => []
  | first :: l' => NotANumber :: pct_change_from first l'
  end.

(** [Series.cumsum()] *)
Fixpoint cumsum_from (acc : Q) (l : list Q) : list Q :=
  match l with
  | [] => []
  | x :: l' => fadd acc x :: cumsum_from (fadd acc x) l'
  end.

Definition cumsum (l : list Q) : list Q := cumsum_from 0%Q l.

Record MonthlyTotal : Type := mkMonthly {
  Month : string;
  Money_In : Q;
  Money_Out : Q;
  Transaction_Details : nat;
  Monthly_Net_Movement : Q;
  Average_Transaction_Value : fvalue;
  Money_In_Growth : fvalue;
  Money_Out_Growth : fvalue;
  Transaction_Count_Growth : fvalue;
  Running_Total_In : Q;
  Running_Total_Out : Q;
  Running_Net_Movement : Q
}.

(** The frame [groupby('Month').agg(...).reset_index()]: label, sum of
    money in, sum of money out, count of the details that are there. *)
Definition monthly_groups (labels : list (option string))
           (money_in money_out : list (option Q)) (details : list cell)
  : list (string * Q * Q * nat) :=
  map (fun m =>
         (m,
          group_sum (group_values String.eqb m labels money_in),
          group_sum (group_values String.eqb m labels money_out),
          count_notna (group_values String.eqb m labels details)))
      (group_keys String.eqb String.ltb (omap id labels)).

Definition group_label (g : string * Q * Q * nat) : string := fst (fst (fst g)).
Definition group_in (g : string * Q * Q * nat) : Q := snd (fst (fst g)).
Definition group_out (g : string * Q * Q * nat) : Q := snd (fst g).
Definition group_count (g : string * Q * Q * nat) : nat := snd g.

(** The columns that are derived from the grouped frame, row by row. *)
Definition monthly_rows (groups : list (string * Q * Q * nat))
  : list MonthlyTotal :=
  let money_in := map group_in groups in
  let money_out := map group_out groups in
  let counts := map group_count groups in
  let in_growth := map times_100 (pct_change money_in) in
  let out_growth := map times_100 (pct_change money_out) in
  let count_growth := map times_100 (pct_change (map Qnat counts)) in
  let running_in := cumsum money_in in
  let running_out := cumsum money_out in
  imap (fun i g =>
          {| Month := group_label g;
             Money_In := group_in g;
             Money_Out := group_out g;
             Transaction_Details := group_count g;
             Monthly_Net_Movement := fadd (group_in g) (group_out g);
             Average_Transaction_Value :=
               fdiv (fadd (group_in g) (Qabs (group_out g)))
                    (Qnat (group_count g));
             Money_In_Growth := default NotANumber (in_growth !! i);
             Money_Out_Growth := default NotANumber (out_growth !! i);
             Transaction_Count_Growth := default NotANumber (count_growth !! i);
             Running_Total_In := default 0%Q (running_in !! i);
             Running_Total_Out := default 0%Q (running_out !! i);
             Running_Net_Movement :=
               fadd (default 0%Q (running_in !! i))
                    (default 0%Q (running_out !! i)) |})
       groups.

Definition grand_totals (monthly_totals : list MonthlyTotal) : MonthlyTotal :=
  let money_in := map Money_In monthly_totals in
  let money_out := map Money_Out monthly_totals in
  let counts := map Transaction_Details monthly_totals in
  let net := map Monthly_Net_Movement monthly_totals in
  {| Month := "GRAND TOTAL";
     Money_In := Qsum money_in;
     Money_Out := Qsum money_out;
     Transaction_Details := nat_sum counts;
     Monthly_Net_Movement := Qsum net;
     Average_Transaction_Value :=
       fdiv (fadd (Qsum money_in) (Qsum (map Qabs money_out)))
            (Qnat (nat_sum counts));
     Money_In_Growth := NotANumber;
     Money_Out_Growth := NotANumber;
     Transaction_Count_Growth := NotANumber;
     Running_Total_In := Qsum money_in;
     Running_Total_Out := Qsum money_out;
     Running_Net_Movement := Qsum net |}.

(** The function assigns to the date column of the frame it is given and
    adds the column ['Month'] to it: the frame after the call is part of
    the result. *)
Definition create_monthly_totals (df : DataFrame)
  : result (DataFrame * list MonthlyTotal) :=
  let* dates := get_column df "Transaction Date" in
  let* dates := to_datetime dates in
  let df := set_column df "Transaction Date" (map of_datetime dates) in
  let df := set_column df "Month" (map (dt_strftime strftime_B_Y) dates) in
  let* labels := get_column df "Month" in
  let* money_in := float_column df "Money In" in
  let* money_out := float_column df "Money Out" in
  let* details := get_column df "Transaction Details" in
  let monthly_totals :=
    monthly_rows (monthly_groups (map as_label labels) money_in money_out details) in
  Ok (df, monthly_totals ++ [grand_totals monthly_totals]).

(** ** The data path of [upload_file] *)

Record Workbook : Type := mkWorkbook {
  Transactions : DataFrame;
  Summary_sheet : Summary;
  Daily_Totals : list DailyTotal;
  Monthly_Analysis : list MonthlyTotal
}.

(** From the tables of the uploaded file to the four sheets; [None] is the
    answer "No valid tables found".  The one frame [df] goes through the
    three aggregations in turn and is written to the first sheet after
    its dates are formatted. *)
Definition upload_file (tables : list RawTable) : result (option Workbook) :=
  let* df := process_pdf tables in
  match df with
  | None => Ok None
  | Some df =>
      let* summary_df := create_summary df in
      let* (df, daily_totals_df) := create_daily_totals df in
      let* (df, monthly_totals_df) := create_monthly_totals df in
      let* dates := get_column df "Transaction Date" in
      let* dates := to_datetime dates in
      let df :=
        set_column df "Transaction Date" (map (dt_strftime strftime_dmY) dates) in
      Ok (Some {| Transactions := df;
                  Summary_sheet := summary_df;
                  Daily_Totals := daily_totals_df;
                  Monthly_Analysis := monthly_totals_df |})
  end.

(** ** [allowed_file] *)

Definition ALLOWED_EXTENSIONS : list string := ["pdf"].

(** ['.' in filename] *)
Fixpoint contains_dot (s : string) : bool :=
  match s with
  | EmptyString => false
  | String c s' => is_dot c || contains_dot s'
  end.

(** [filename.rsplit('.', 1)]: the text before the last dot and the text
    after it, or the name alone when it has no dot. *)
Fixpoint rsplit_dot (s : string) : list string :=
  match s with
  | EmptyString => [EmptyString]
  | String c s' =>
      match rsplit_dot s' with
      | [head; tail] => [String c head; tail]
      | _ => if is_dot c then [EmptyString; s'] else [String c s']
      end
  end.

(** [str.lower()]: the letters A to Z become a to z.  Of the characters
    outside ASCII none becomes a letter of [pdf], so they are left as they
    are. *)
Definition lower_char (c : ascii) : ascii :=
  let n := N_of_ascii c in
  if ((65 <=? n) && (n <=? 90))%N then ascii_of_N (n + 32) else c.

Fixpoint lower (s : string) : string :=
  match s with
  | EmptyString => EmptyString
  | String c s' => String (lower_char c) (lower s')
  end.

(** [l[i]] on a list *)
Definition index {A} (l : list A) (i : nat) : result A :=
  match l !! i with
  | Some x => Ok x
  | None => Raise IndexError_out_of_bounds
  end.

Definition allowed_file (filename : string) : result bool :=
  if contains_dot filename then
    let* extension := index (rsplit_dot filename) 1 in
    Ok (existsb (String.eqb (lower extension)) ALLOWED_EXTENSIONS)
  else Ok false.

(** ** [apply_excel_formatting]

    The worksheets belong to the spreadsheet library; what the program
    does with them is a sequence of calls.  A worksheet is the list of the
    calls made on it, in order.  Cell ranges are written with their
    indices from 0: ['A:B'] is the columns 0 to 1, ['E2:E1048576'] is the
    rows 1 to 1048575 of column 4. *)

(** The entries of the dictionary [formats], and the two formats of the
    conditional rules. *)
Inductive Format : Type :=
| fmt_money
| fmt_percentage
| fmt_date
| fmt_header
| fmt_monthly
| fmt_grand_total
| fmt_text
| positive_format
| negative_format.

(** A call of a method of a worksheet. *)
Module Worksheet.
Inductive call : Type :=
| set_column (first_col last_col : nat) (col_width : nat) (format : Format)
| freeze_panes (row col : nat)
| autofilter (first_row first_col last_row last_col : Z)
| conditional_format (first_row : Z) (first_col : nat) (last_row : Z)
                     (last_col : nat) (criteria : string) (value : Z)
                     (format : Format)
| write (row col : nat) (value : string) (format : Format)
| set_row (row : Z) (format : Format).
End Worksheet.

(** [writer.sheets]: the worksheets by name. *)
Definition Writer : Type := string -> list Worksheet.call.

Definition on_sheet (writer : Writer) (sheet : string)
           (calls : list Worksheet.call) : Writer :=
  fun name =>
    if String.eqb name sheet then writer name ++ calls else writer name.

(** The labels of the three derived frames, in the order in which the
    program creates their columns. *)
Definition Summary_columns : list string := ["Metric"; "Value"].

Definition DailyTotal_columns : list string :=
  ["Transaction Date"; "Money In"; "Money Out"; "Transaction Details";
   "Net Movement"].

Definition MonthlyTotal_columns : list string :=
  ["Month"; "Money In"; "Money Out"; "Transaction Details"; "Net Movement";
   "Average Transaction Value"; "Money In Growth %"; "Money Out Growth %";
   "Transaction Count Growth %"; "Running Total In"; "Running Total Out";
   "Running Net Movement"].

(** The loop [for col_num, value in enumerate(data.columns.values)]. *)
Definition write_headers (labels : list string) : list Worksheet.call :=
  imap (fun col_num value => Worksheet.write 0 col_num value fmt_header) labels.

Definition apply_excel_formatting (writer : Writer) (df : DataFrame)
           (summary_df : Summary) (daily_totals_df : list DailyTotal)
           (monthly_totals_df : list MonthlyTotal) : Writer :=
  let writer :=
    on_sheet writer "Transactions"
      [Worksheet.set_column 0 1 12 fmt_date;
       Worksheet.set_column 2 2 50 fmt_text;
       Worksheet.set_column 3 5 15 fmt_money;
       Worksheet.set_column 6 6 20 fmt_text;
       Worksheet.freeze_panes 1 0;
       Worksheet.autofilter 0 0 (Z.of_nat (length (rows df)))
                  (Z.of_nat (length (columns df)) - 1)] in
  let writer :=
    on_sheet writer "Summary"
      [Worksheet.set_column 0 0 30 fmt_text;
       Worksheet.set_column 1 1 20 fmt_money] in
  let writer :=
    on_sheet writer "Daily Totals"
      [Worksheet.set_column 0 0 12 fmt_date;
       Worksheet.set_column 1 4 15 fmt_money;
       Worksheet.freeze_panes 1 0] in
  let writer :=
    on_sheet writer "Monthly Analysis"
      [Worksheet.set_column 0 0 15 fmt_text;
       Worksheet.set_column 1 5 15 fmt_money;
       Worksheet.set_column 6 8 15 fmt_percentage;
       Worksheet.set_column 9 11 18 fmt_money;
       Worksheet.freeze_panes 1 0] in
  let writer :=
    on_sheet writer "Daily Totals"
      [Worksheet.conditional_format 1 4 1048575 4 ">" 0 positive_format;
       Worksheet.conditional_format 1 4 1048575 4 "<" 0 negative_format] in
  let writer :=
    on_sheet writer "Monthly Analysis"
      [Worksheet.conditional_format 1 4 1048575 4 ">" 0 positive_format;
       Worksheet.conditional_format 1 4 1048575 4 "<" 0 negative_format] in
  let writer := on_sheet writer "Transactions" (write_headers (columns df)) in
  let writer := on_sheet writer "Summary" (write_headers Summary_columns) in
  let writer :=
    on_sheet writer "Daily Totals" (write_headers DailyTotal_columns) in
  let writer :=
    on_sheet writer "Monthly Analysis" (write_headers MonthlyTotal_columns) in
  let last_row := Z.of_nat (length monthly_totals_df) in
  on_sheet writer "Monthly Analysis"
    [Worksheet.set_row (last_row - 1) fmt_grand_total].

(** [DataFrame.to_excel(writer, index=False)] writes the labels on row 0 of
    the sheet and row [i] of the frame on row [i + 1]. *)
Definition to_excel_row (i : nat) : Z := Z.of_nat i + 1.

(** A writer on which nothing has been called. *)
Definition new_writer : Writer := fun _ => [].

(** The format of a column: that of the last [set_column] whose range
    holds it. *)
Definition column_format (calls : list Worksheet.call) (col : nat)
  : option Format :=
  fold_left (fun found c =>
               match c with
               | Worksheet.set_column first_col last_col _ format =>
                   if (first_col <=? col)%nat && (col <=? last_col)%nat
                   then Some format else found
               | _ => found
               end)
            calls None.

(** The conditional rules on a cell. *)
Definition conditional_formats (calls : list Worksheet.call) (row : Z)
           (col : nat) : list (string * Z * Format) :=
  flat_map (fun c =>
              match c with
              | Worksheet.conditional_format first_row first_col last_row
                                             last_col criteria value format =>
                  if (first_row <=? row) && (row <=? last_row)
                     && (first_col <=? col)%nat && (col <=? last_col)%nat
                  then [(criteria, value, format)] else []
              | _ => []
              end)
           calls.

(** ** The route [/upload]

    The view [upload_file] with what it does to the upload folder.  The
    folder is the list of its paths with what is stored at each; one
    request runs at a time and the calls of the operating system succeed
    where Python lets them: [file.save] and writing the spreadsheet always,
    [os.remove] and [send_file] on a path that exists.  What
    [tabula.read_pdf] makes of the upload is given with the request:
    the tables, or nothing when it raises. *)

Definition UPLOAD_FOLDER : string := "uploads".

(** What is stored at a path: the upload as it came, or the spreadsheet
    with its four sheets and the formatting calls made on them. *)
Inductive File : Type :=
| Uploaded
| Spreadsheet (sheets : Workbook) (writer : Writer).

Definition Folder : Type := list (string * File).

(** [os.path.exists(path)] *)
Definition path_exists (path : string) (folder : Folder) : bool :=
  existsb (fun f => String.eqb (fst f) path) folder.

(** [os.remove(path)] on a path that exists. *)
Definition remove (path : string) (folder : Folder) : Folder :=
  List.filter (fun f => negb (String.eqb (fst f) path)) folder.

(** Writing a file: what was at the path is replaced. *)
Definition save (path : string) (content : File) (folder : Folder) : Folder :=
  (path, content) :: remove path folder.

(** An exception inside [try]: one of [tabula.read_pdf], one of the
    normaliser or of an aggregation, or a path that is not there. *)
Inductive failure : Type :=
| tabula_error
| raised (e : exception)
| FileNotFoundError (path : string).

(** The answers of the view: its five texts, and the download. *)
Inductive Response : Type :=
| No_file_part
| No_selected_file
| Invalid_file_type
| No_valid_tables_found
| Error_processing_PDF (e : failure)
| send_file (path download_name : string).

Section Route.
(** [werkzeug.utils.secure_filename] and [os.path.join] *)
Variable secure_filename : string -> string.
Variable join : string -> string -> string.

(** The statements inside [try]: the exception or the value returned, and
    the folder at that point. *)
Definition try_upload (filename pdf_path : string)
           (tables : option (list RawTable)) (folder : Folder)
  : (failure + Response) * Folder :=
  match tables with
  | None => (inl tabula_error, folder)
  | Some tables =>
      match upload_file tables with
      | Raise e => (inl (raised e), folder)
      | Ok None => (inr No_valid_tables_found, folder)
      | Ok (Some wb) =>
          match index (rsplit_dot filename) 0 with
          | Raise e => (inl (raised e), folder)
          | Ok stem =>
              let excel_filename := (stem ++ ".xlsx")%string in
              let excel_path := join UPLOAD_FOLDER excel_filename in
              let writer :=
                apply_excel_formatting new_writer (Transactions wb)
                  (Summary_sheet wb) (Daily_Totals wb) (Monthly_Analysis wb) in
              let folder := save excel_path (Spreadsheet wb writer) folder in
              if path_exists pdf_path folder then
                let folder := remove pdf_path folder in
                if path_exists excel_path folder
                then (inr (send_file excel_path excel_filename), folder)
                else (inl (FileNotFoundError excel_path), folder)
              else (inl (FileNotFoundError pdf_path), folder)
          end
      end
  end.

(** [file] is the name of the part ['file'] of the request, when there is
    one.  [Raise] is an exception that leaves the view. *)
Definition upload_file_route (file : option string)
           (tables : option (list RawTable)) (folder : Folder)
  : result (Response * Folder) :=
  match file with
  | None => Ok (No_file_part, folder)
  | Some name =>
      if String.eqb name "" then Ok (No_selected_file, folder)
      else
        let* allowed := allowed_file name in
        if allowed then
          let filename := secure_filename name in
          let pdf_path := join UPLOAD_FOLDER filename in
          let folder := save pdf_path Uploaded folder in
          let '(outcome, folder) :=
            try_upload filename pdf_path tables folder in
          let response :=
            match outcome with
            | inl e => Error_processing_PDF e
            | inr response => response
            end in
          let folder :=
            if path_exists pdf_path folder then remove pdf_path folder
            else folder in
          Ok (response, folder)
        else Ok (Invalid_file_type, folder)
  end.
End Route.

(** ** The normaliser read row by row

    The same operations as in [process_pdf], for one row at a time; the
    properties below relate the frame that [process_pdf] returns to them. *)

(** The rows of the tables that pass the width test, in the order of the
    document. *)
Definition candidate_rows (tables : list RawTable) : list Row :=
  concat (map body (List.filter (fun t => (6 <=? width t)%nat) tables)).

(** The mask of the loop body: the row is not empty and its first cell is a
    string in which the date pattern is found. *)
Definition date_found (r : Row) : bool :=
  negb (all_null r) && str_contains_date (cell_at 0 r).

(** The first cell is a string that is [DD.MM.YYYY] and nothing else. *)
Definition date_strict (r : Row) : bool :=
  match cell_at 0 r with
  | Str s => date_pattern_full s
  | _ => false
  end.

(** The two assignments of [clean_monetary] on the cell [i] of a row. *)
Definition clean_cell_at (i : nat) (r : Row) : Row :=
  <[i:=to_numeric_coerce (replace_currency (cell_at i r))]> r.

Definition clean_row (r : Row) : Row :=
  clean_cell_at 5 (clean_cell_at 4 (clean_cell_at 3 r)).

(** The assignment of the parsed dates, on one row. *)
Definition dated_row (r : Row) : Row :=
  match to_datetime_format (cell_at 0 r) with
  | Ok d => <[0%nat:=d]> r
  | Raise _ => r
  end.

(** The row of the ledger that a row of a table becomes. *)
Definition ledger_row (r : Row) : result Row :=
  let* d := to_datetime_format (cell_at 0 r) in
  Ok (clean_row (<[0%nat:=d]> r)).

(** The first cell is a string that [to_datetime] reads as a date. *)
Definition parses (r : Row) : Prop :=
  exists s d, r !! 0%nat = Some (Str s) /\ strptime_dmY s = Some d.

(** The row that [take] finds for an entry of the sorted index. *)
Definition row_of (rs : list Row) (p : nat * Date) : Row :=
  default [] (rs !! fst p).

Definition row_date (r : Row) : option Date :=
  match cell_at 0 r with
  | Dt d => Some d
  | _ => None
  end.

Definition has_date (d : Date) (r : Row) : bool :=
  match row_date r with
  | Some d' => date_eqb d d'
  | None => false
  end.

(** Both rows are dated and the first one is not after the second. *)
Definition row_not_after (r1 r2 : Row) : Prop :=
  exists d1 d2, row_date r1 = Some d1 /\ row_date r2 = Some d2
                /\ date_ltb d2 d1 = false.

Definition is_float_cell (c : cell) : bool :=
  match c with
  | Num _ | NaN => true
  | _ => false
  end.

(** A row of a ledger: seven cells, a date first, floats in the three
    monetary columns. *)
Definition is_ledger_row (r : Row) : bool :=
  (length r =? 7)%nat
  && match cell_at 0 r with Dt _ => true | _ => false end
  && is_float_cell (cell_at 3 r)
  && is_float_cell (cell_at 4 r)
  && is_float_cell (cell_at 5 r).

Definition is_ledger (df : DataFrame) : Prop :=
  columns df = canonical_columns /\ forallb is_ledger_row (rows df) = true.

(** The number in a cell of a float column. *)
Definition float_of (c : cell) : option Q :=
  match c with
  | Num q => Some q
  | _ => None
  end.

(** The frame with the column ['Month'] on its right: the label of the
    month of each row. *)
Definition month_label (r : Row) : cell := dt_strftime strftime_B_Y (row_date r).

Definition with_month (df : DataFrame) : DataFrame :=
  mkFrame (columns df ++ ["Month"]) (map (fun r => r ++ [month_label r]) (rows df)).

(** The grouped monthly frame of a ledger, from its rows. *)
Definition ledger_monthly_groups (rs : list Row) : list (string * Q * Q * nat) :=
  monthly_groups (map (fun r => option_map strftime_B_Y (row_date r)) rs)
                 (map (fun r => float_of (cell_at 4 r)) rs)
                 (map (fun r => float_of (cell_at 3 r)) rs)
                 (map (cell_at 2) rs).

(** The frame with its dates written as [DD.MM.YYYY]. *)
Definition date_text (r : Row) : cell := dt_strftime strftime_dmY (row_date r).

Definition with_date_text (df : DataFrame) : DataFrame :=
  mkFrame (columns df) (map (fun r => <[0%nat:=date_text r]> r) (rows df)).

(** Every row of every table has as many cells as the table has columns. *)
Definition rectangular (tables : list RawTable) : Prop :=
  Forall (fun t => Forall (fun r => length r = width t) (body t)) tables.

(** The month over month change in percent, as the monthly table holds
    it: [(current / previous - 1) * 100], each operation rounded; a
    result beyond the range of the floats is an infinity, and stays one. *)
Definition growth_percent (previous current : Q) : fvalue :=
  if Qeq_bool previous 0 then
    match (current ?= 0)%Q with
    | Eq => NotANumber
    | Gt => PosInf
    | Lt => NegInf
    end
  else
    match finite_or_inf (round53 (current / previous)) with
    | Finite quotient =>
        match finite_or_inf (fsub quotient 1) with
        | Finite difference => finite_or_inf (fmul difference 100)
        | infinity => infinity
        end
    | infinity => infinity
    end.

(** The loop over the tables runs to its end: no table that passes the
    width test has another width than seven, and the first column of each
    of them has the [.str] accessor. *)
Definition loop_completes (tables : list RawTable) : Prop :=
  Forall (fun t => (6 <= width t)%nat ->
                   width t = 7%nat
                   /\ has_str_accessor (map (cell_at 0) (body t)) = true)
         tables.

(** ** The tables of a ledger read row by row *)

(** The daily table of a ledger, from its rows. *)
Definition ledger_daily_totals (rs : list Row) : list DailyTotal :=
  let dates := map row_date rs in
  map (fun d =>
         let sum_in :=
           group_sum (group_values date_eqb d dates
                        (map (fun r => float_of (cell_at 4 r)) rs)) in
         let sum_out :=
           group_sum (group_values date_eqb d dates
                        (map (fun r => float_of (cell_at 3 r)) rs)) in
         {| daily_Transaction_Date := d;
            daily_Money_In := sum_in;
            daily_Money_Out := sum_out;
            daily_Transaction_Details :=
              count_notna (group_values date_eqb d dates (map (cell_at 2) rs));
            daily_Net_Movement := fadd sum_in sum_out |})
      (group_keys date_eqb date_ltb (omap id dates)).

(** The strict order of dates and that of labels. *)
Definition date_lt (a b : Date) : Prop := date_ltb a b = true.

Definition label_lt (a b : string) : Prop := String.ltb a b = true.

(** The row is dated in the month of [d]. *)
Definition same_month (d : Date) (r : Row) : bool :=
  match row_date r with
  | Some d' => (year d =? year d') && (month d =? month d')
  | None => false
  end.

(** The label of the month of a row of a table, from the text of its
    date. *)
Definition month_of_text (r : Row) : cell :=
  match cell_at 0 r with
  | Str s => dt_strftime strftime_B_Y (strptime_dmY s)
  | _ => NaN
  end.

(** The row of the first sheet that a row of a table becomes: its
    monetary cells cleaned, the label of its month appended. *)
Definition sheet_row (r : Row) : Row := clean_row r ++ [month_of_text r].

(** The text of an amount: the whole part, a point, two digits. *)
Definition amount_text (whole cents : Z) : string :=
  (decimal whole ++ "." ++ decimal2 cents)%string.

(** ** Statements put to the test on inputs *)

(** Rows of one date keep the order of the document. *)
Definition keeps_document_order (tables : list RawTable) : Prop :=
  forall df ledger_rows d,
    process_pdf tables = Ok (Some df) ->
    mapM ledger_row (List.filter date_strict (candidate_rows tables))
    = Ok ledger_rows ->
    List.filter (has_date d) (rows df) = List.filter (has_date d) ledger_rows.

(** ** Inputs of the examples *)

(** One transaction in March and one in April 2024; the April row has no
    money in. *)
Definition march_row : Row :=
  [Str "15.03.2024"; Str "15.03.2024"; Str "Salary"; NaN; Str "1,000.00";
   Str "1,000.00"; Str "REF1"].

Definition april_row : Row :=
  [Str "10.04.2024"; Str "10.04.2024"; Str "Rent"; Str "-1,400.00"; NaN;
   Str "600.00"; Str "REF2"].

Definition two_months : list RawTable := [mkRaw 7 [march_row; april_row]].

(** The ledger of [two_months]. *)
Definition two_months_ledger : DataFrame :=
  mkFrame canonical_columns
    [[Dt (mkDate 2024 3 15); Str "15.03.2024"; Str "Salary"; NaN;
      Num (Qmake 1000 1); Num (Qmake 1000 1); Str "REF1"];
     [Dt (mkDate 2024 4 10); Str "10.04.2024"; Str "Rent";
      Num (Qmake (-1400) 1); NaN; Num (Qmake 600 1); Str "REF2"]].

(** The monthly table of [two_months_ledger]. *)
Definition two_months_monthly : list MonthlyTotal :=
  monthly_rows (ledger_monthly_groups (rows two_months_ledger))
    ++ [grand_totals (monthly_rows (ledger_monthly_groups (rows two_months_ledger)))].

(** Money in of 1,400.00 in March and of 1,000.00 in April 2024: in the
    monthly table April comes first. *)
Definition growth_months : list RawTable :=
  [mkRaw 7
     [[Str "15.03.2024"; Str "15.03.2024"; Str "Salary"; NaN; Str "1,400.00";
       Str "1,400.00"; Str "REF1"];
      [Str "10.04.2024"; Str "10.04.2024"; Str "Refund"; NaN; Str "1,000.00";
       Str "2,400.00"; Str "REF2"]]].

(** The ledger of [growth_months] and its monthly table. *)
Definition growth_ledger : DataFrame :=
  mkFrame canonical_columns
    [[Dt (mkDate 2024 3 15); Str "15.03.2024"; Str "Salary"; NaN;
      Num (Qmake 1400 1); Num (Qmake 1400 1); Str "REF1"];
     [Dt (mkDate 2024 4 10); Str "10.04.2024"; Str "Refund"; NaN;
      Num (Qmake 1000 1); Num (Qmake 2400 1); Str "REF2"]].

Definition growth_monthly : list MonthlyTotal :=
  monthly_rows (ledger_monthly_groups (rows growth_ledger))
    ++ [grand_totals (monthly_rows (ledger_monthly_groups (rows growth_ledger)))].

(** The floats nearest to 0.1 and to 0.2. *)
Definition float_0_1 : Q := 3602879701896397 # 36028797018963968.
Definition float_0_2 : Q := 3602879701896397 # 18014398509481984.

(** Amounts of a few cents in March and in April 2024; the extraction
    library has read the monetary columns as numbers, as it does with a
    column in which nothing but plain numbers is written. *)
Definition cents_months : list RawTable :=
  [mkRaw 7
     [[Str "05.03.2024"; Str "05.03.2024"; Str "Interest"; NaN;
       Num float_0_1; Num float_0_1; Str "REF1"];
      [Str "06.03.2024"; Str "06.03.2024"; Str "Levy"; Num (- float_0_1);
       NaN; Num 0; Str "REF2"];
      [Str "07.04.2024"; Str "07.04.2024"; Str "Interest"; NaN;
       Num float_0_1; Num float_0_1; Str "REF3"];
      [Str "08.04.2024"; Str "08.04.2024"; Str "Levy"; Num (- float_0_2);
       NaN; Num (- float_0_1); Str "REF4"]]].

(** The ledger of [cents_months] and its monthly table. *)
Definition cents_ledger : DataFrame :=
  mkFrame canonical_columns
    [[Dt (mkDate 2024 3 5); Str "05.03.2024"; Str "Interest"; NaN;
      Num float_0_1; Num float_0_1; Str "REF1"];
     [Dt (mkDate 2024 3 6); Str "06.03.2024"; Str "Levy";
      Num (- float_0_1); NaN; Num 0; Str "REF2"];
     [Dt (mkDate 2024 4 7); Str "07.04.2024"; Str "Interest"; NaN;
      Num float_0_1; Num float_0_1; Str "REF3"];
     [Dt (mkDate 2024 4 8); Str "08.04.2024"; Str "Levy";
      Num (- float_0_2); NaN; Num (- float_0_1); Str "REF4"]].

Definition cents_monthly : list MonthlyTotal :=
  monthly_rows (ledger_monthly_groups (rows cents_ledger))
    ++ [grand_totals (monthly_rows (ledger_monthly_groups (rows cents_ledger)))].

(** A table of six columns. *)
Definition six_columns (rs : list Row) : RawTable := mkRaw 6 rs.

(** A dated row with a balance and nothing in the two money columns. *)
Definition balance_row : Row :=
  [Str "01.01.2024"; NaN; Str "Balance brought forward"; NaN; NaN;
   Str "2,500.00"; NaN].

Definition balance_only : list RawTable := [mkRaw 7 [balance_row]].

(** A dated row with an amount and no details. *)
Definition no_details_row : Row :=
  [Str "02.01.2024"; Str "02.01.2024"; NaN; Str "-1,250.00"; NaN;
   Str "3,450.00"; Str "REF3"].

Definition no_details : list RawTable := [mkRaw 7 [no_details_row]].

(** A title line that holds a date, above a transaction. *)
Definition title_row : Row :=
  [Str "Statement from 01.01.2024"; NaN; NaN; NaN; NaN; NaN; NaN].

Definition titled_table : RawTable := mkRaw 7 [title_row; march_row].

(** A line of totals between the transactions, and a page that holds the
    header line, the two example transactions and the line of totals. *)
Definition totals_row : Row :=
  [Str "Totals"; NaN; NaN; Str "-1,400.00"; Str "1,000.00"; NaN; NaN].

Definition statement_page : list RawTable :=
  [mkRaw 7 [map Str canonical_columns; march_row; totals_row; april_row]].

(** Seventeen transactions of one day, numbered in the details. *)
Definition same_day_row (i : nat) : Row :=
  [Str "05.01.2024"; Str "05.01.2024";
   Str ("Payment " ++ decimal2 (Z.of_nat i))%string;
   Str "-1,000.00"; NaN; NaN; NaN].

Definition same_day : list RawTable := [mkRaw 7 (map same_day_row (seq 0 17))].

(** Sixteen transactions of two days, numbered in the details: those with
    an even number on the 6th, those with an odd number on the 5th of
    January 2024. *)
Definition two_days_row (i : nat) : Row :=
  let text := if Nat.even i then "06.01.2024" else "05.01.2024" in
  [Str text; Str text; Str ("Payment " ++ decimal2 (Z.of_nat i))%string;
   Str "-1,000.00"; NaN; NaN; NaN].

Definition two_days : list RawTable := [mkRaw 7 (map two_days_row (seq 0 16))].

(** The payments of [two_days] by their numbers, in the order of the
    ledger: those of the 5th before those of the 6th, each day in the
    order of the document. *)
Definition two_days_order : list nat :=
  [1; 3; 5; 7; 9; 11; 13; 15; 0; 2; 4; 6; 8; 10; 12; 14]%nat.

(** A table of seven columns that holds the header line only. *)
Definition header_row : Row := map Str canonical_columns.

Definition header_only : list RawTable := [mkRaw 7 [header_row]].

(** The summary and the sheets of [two_months]. *)
Definition two_months_summary : Summary :=
  {| Total_Money_In := Qmake 1000 1;
     Total_Money_Out := Qmake (-1400) 1;
     Net_Movement := Qmake (-400) 1;
     Number_of_Transactions := 2;
     Number_of_Incoming_Transactions := 1;
     Number_of_Outgoing_Transactions := 1;
     Average_Transaction_In := Finite (Qmake 1000 1);
     Average_Transaction_Out := Finite (Qmake (-1400) 1);
     Largest_Transaction_In := Finite (Qmake 1000 1);
     Largest_Transaction_Out := Finite (Qmake (-1400) 1);
     First_Transaction_Date := Dt (mkDate 2024 3 15);
     Last_Transaction_Date := Dt (mkDate 2024 4 10) |}.

Definition two_months_workbook : Workbook :=
  {| Transactions := with_date_text (with_month two_months_ledger);
     Summary_sheet := two_months_summary;
     Daily_Totals := ledger_daily_totals (rows two_months_ledger);
     Monthly_Analysis := two_months_monthly |}.

(** The name of an upload is kept as it is, and a path is the folder, a
    slash and the name. *)
Definition keep_name (name : string) : string := name.

Definition join_with_slash (folder name : string) : string :=
  (folder ++ "/" ++ name)%string.

(** A table of seven columns whose first column is empty in each of its
    two rows. *)
Definition continuation_table : RawTable :=
  mkRaw 7
    [[NaN; NaN; Str "Charges"; Num (Qmake (-100) 1); NaN; NaN; NaN];
     [NaN; NaN; Str "Excise duty"; Num (Qmake (-20) 1); NaN; NaN; NaN]].

(** A table of eight columns. *)
Definition eight_columns : RawTable :=
  mkRaw 8 [[Str "15.03.2024"; Str "15.03.2024"; Str "Salary"; NaN;
            Str "1,000.00"; Str "1,000.00"; Str "REF1"; Str "Branch 7"]].

(** * Properties of the sort *)

Section IntrosortPermutation.
Context {A : Type} (less : A -> A -> bool).
Implicit Types a : list A.
Local Open Scope nat_scope.

Lemma length_swap a i j : length (swap a i j) = length a.
Proof.
  unfold swap. destruct (a !! i), (a !! j); auto.
  by rewrite !length_insert.
Qed.

Lemma insert_Permutation a i x y :
  a !! i = Some x -> <[i:=y]> a ≡ₚ y :: delete i a.
Proof.
  revert i. induction a as [|z a IH]; intros [|i] H; simplify_eq/=; auto.
  rewrite (IH _ H). apply Permutation_swap.
Qed.

Lemma swap_Permutation a i j : swap a i j ≡ₚ a.
Proof.
  unfold swap.
  destruct (a !! i) as [x|] eqn:Hi; auto.
  destruct (a !! j) as [y|] eqn:Hj; auto.
  destruct (decide (i = j)) as [->|Hne].
  - rewrite list_insert_insert_eq. simplify_eq. by rewrite list_insert_id.
  - assert (Hb : <[j:=x]> a !! i = Some x)
      by (by rewrite list_lookup_insert_ne).
    rewrite (insert_Permutation _ _ _ y Hb).
    assert (H1 : x :: delete j a ≡ₚ x :: delete i (<[j:=x]> a)).
    { etrans; [symmetry; apply (insert_Permutation _ _ _ x Hj)|].
      by apply delete_Permutation. }
    apply Permutation_cons_inv in H1. rewrite <- H1.
    symmetry. by apply delete_Permutation.
Qed.

Lemma lookup_swap a i j k :
  i < length a -> j < length a ->
  swap a i j !! k =
    if decide (k = i) then a !! j
    else if decide (k = j) then a !! i
    else a !! k.
Proof.
  intros Hi Hj. unfold swap.
  destruct (lookup_lt_is_Some_2 _ _ Hi) as [x Hx].
  destruct (lookup_lt_is_Some_2 _ _ Hj) as [y Hy].
  rewrite Hx, Hy.
  destruct (decide (k = i)) as [->|].
  - rewrite list_lookup_insert_eq; [done|]. by rewrite length_insert.
  - rewrite list_lookup_insert_ne by done.
    destruct (decide (k = j)) as [->|].
    + by rewrite list_lookup_insert_eq.
    + by rewrite list_lookup_insert_ne.
Qed.

Lemma length_median_of_three a pl pm pr :
  length (median_of_three less a pl pm pr) = length a.
Proof.
  unfold median_of_three.
  repeat (destruct (less_at _ _ _ _); rewrite ?length_swap); done.
Qed.

Lemma median_of_three_Permutation a pl pm pr :
  median_of_three less a pl pm pr ≡ₚ a.
Proof.
  unfold median_of_three.
  repeat (destruct (less_at _ _ _ _); rewrite ?swap_Permutation); done.
Qed.

Lemma partition_loop_Permutation fuel a vp pi pj :
  (partition_loop less fuel a vp pi pj).1 ≡ₚ a.
Proof.
  revert a pi pj. induction fuel as [|fuel IH]; intros a pi pj; simpl; [done|].
  destruct (_ <=? _); [done|].
  rewrite IH. apply swap_Permutation.
Qed.

Lemma partition_Permutation a : (partition less a).1 ≡ₚ a.
Proof.
  unfold partition. cbv zeta.
  destruct (median_of_three less a 0 _ _ !! _) as [vp|] eqn:Hvp.
  - match goal with
    | |- context [partition_loop less ?f ?b ?v ?i ?j] =>
        pose proof (partition_loop_Permutation f b v i j) as H;
        destruct (partition_loop less f b v i j) as [a' pi]
    end.
    cbn [fst] in *. rewrite swap_Permutation, H, swap_Permutation.
    apply median_of_three_Permutation.
  - apply median_of_three_Permutation.
Qed.

Lemma insert_back_Permutation vi l : insert_back less vi l ≡ₚ vi :: l.
Proof.
  induction l as [|x l IH]; simpl; [done|].
  destruct (less vi x); [|done].
  rewrite IH. apply Permutation_swap.
Qed.

Lemma insertion_fold_Permutation a acc :
  fold_left (fun acc vi => insert_back less vi acc) a acc ≡ₚ a ++ acc.
Proof.
  revert acc. induction a as [|x a IH]; intros acc; simpl; [done|].
  rewrite IH, insert_back_Permutation.
  by rewrite Permutation_middle.
Qed.

Lemma insertion_sort_Permutation a : insertion_sort less a ≡ₚ a.
Proof.
  unfold insertion_sort.
  rewrite <- Permutation_rev, insertion_fold_Permutation.
  by rewrite app_nil_r.
Qed.

Lemma set1_set1_Permutation a i j x tmp :
  1 <= i -> 1 <= j -> i ≠ j -> i <= length a ->
  get1 a j = Some x ->
  set1 (set1 a i x) j tmp ≡ₚ set1 a i tmp.
Proof.
  unfold get1, set1. intros Hi Hj1 Hne Hlen Hj.
  destruct (lookup_lt_is_Some_2 a (i - 1) ltac:(lia)) as [y Hy].
  assert (H1 : <[i - 1:=x]> a !! (j - 1) = Some x)
    by (rewrite list_lookup_insert_ne by lia; done).
  rewrite (insert_Permutation _ _ _ tmp H1).
  rewrite (insert_Permutation _ _ _ tmp Hy).
  apply Permutation_skip.
  assert (H2 : x :: delete (i - 1) a
               ≡ₚ x :: delete (j - 1) (<[i - 1:=x]> a)).
  { etrans; [symmetry; apply (insert_Permutation _ _ _ x Hy)|].
    by apply delete_Permutation. }
  apply Permutation_cons_inv in H2. by symmetry.
Qed.

Lemma length_set1 a k x : length (set1 a k x) = length a.
Proof. apply length_insert. Qed.

Lemma get1_le a k x : get1 a k = Some x -> k - 1 < length a.
Proof. apply lookup_lt_Some. Qed.

Lemma set1_id a k x : get1 a k = Some x -> set1 a k x = a.
Proof. apply list_insert_id. Qed.

Lemma length_sift_down fuel a tmp i j n :
  length (sift_down less fuel a tmp i j n) = length a.
Proof.
  revert a i j. induction fuel as [|fuel IH]; intros a i j; simpl.
  - apply length_set1.
  - destruct (j <=? n); [|apply length_set1].
    destruct (get1 a _) as [aj|]; [|apply length_set1].
    destruct (less tmp aj); [|apply length_set1].
    by rewrite IH, length_set1.
Qed.

Lemma sift_down_Permutation fuel a tmp i j n :
  1 <= i -> i < j -> i <= length a ->
  sift_down less fuel a tmp i j n ≡ₚ set1 a i tmp.
Proof.
  revert a i j. induction fuel as [|fuel IH]; intros a i j Hi Hij Hlen; simpl.
  - done.
  - destruct (j <=? n); [|done].
    set (j' := if (j <? n) && less_at1 less a j (j + 1) then j + 1 else j).
    assert (Hj' : j <= j') by (subst j'; destruct (_ && _); lia).
    destruct (get1 a j') as [aj|] eqn:Haj; [|done].
    destruct (less tmp aj); [|done].
    apply get1_le in Haj as Hlt.
    rewrite IH; rewrite ?length_set1; try lia.
    apply set1_set1_Permutation; auto; lia.
Qed.

Lemma length_build_heap l a n : length (build_heap less l a n) = length a.
Proof.
  revert a. induction l as [|l IH]; intros a; simpl; [done|].
  destruct (get1 a (S l)); [|done].
  by rewrite IH, length_sift_down.
Qed.

Lemma build_heap_Permutation l a n : build_heap less l a n ≡ₚ a.
Proof.
  revert a. induction l as [|l IH]; intros a; simpl; [done|].
  destruct (get1 a (S l)) as [tmp|] eqn:Htmp; [|done].
  apply get1_le in Htmp as Hlt.
  rewrite IH, sift_down_Permutation by lia.
  by rewrite set1_id.
Qed.

Lemma extract_max_Permutation fuel a n : extract_max less fuel a n ≡ₚ a.
Proof.
  revert a n. induction fuel as [|fuel IH]; intros a n; simpl; [done|].
  destruct (1 <? n) eqn:Hn; [|done]. apply Nat.ltb_lt in Hn.
  destruct (get1 a n) as [tmp|] eqn:Htmp; [|done].
  destruct (get1 a 1) as [top|] eqn:Htop; [|done].
  apply get1_le in Htmp as Hlt.
  rewrite IH, sift_down_Permutation; rewrite ?length_set1; try lia.
  rewrite set1_set1_Permutation by (auto; lia).
  by rewrite set1_id.
Qed.

Lemma aheapsort_Permutation a : aheapsort less a ≡ₚ a.
Proof.
  unfold aheapsort. by rewrite extract_max_Permutation, build_heap_Permutation.
Qed.

Lemma take1_drop a k : take 1 (drop k a) ++ drop (S k) a = drop k a.
Proof.
  rewrite <- (take_drop 1 (drop k a)) at 2.
  by rewrite drop_drop, Nat.add_1_r.
Qed.

Lemma split_at_pivot a k : take k a ++ take 1 (drop k a) ++ drop (S k) a = a.
Proof. by rewrite take1_drop, take_drop. Qed.

Lemma aquicksort_range_Permutation fuel check cdepth a :
  aquicksort_range less fuel check cdepth a ≡ₚ a.
Proof.
  revert check cdepth a.
  induction fuel as [|fuel IH]; intros check cdepth a; simpl; [done|].
  destruct (check && _); [apply aheapsort_Permutation|].
  destruct (SMALL_QUICKSORT <? _); [|apply insertion_sort_Permutation].
  pose proof (partition_Permutation a) as Hp.
  destruct (partition less a) as [a' pi]. cbn [fst] in Hp.
  destruct (pi <? _); rewrite !IH, split_at_pivot; done.
Qed.

Lemma npy_aquicksort_Permutation a : npy_aquicksort less a ≡ₚ a.
Proof. apply aquicksort_range_Permutation. Qed.
End IntrosortPermutation.

Section IntrosortSorted.
Context {A : Type} (less : A -> A -> bool).
Implicit Types a : list A.
Local Open Scope nat_scope.

(** [less] is the strict part of a total preorder. *)
Hypothesis less_asym : forall x y, less x y = true -> less y x = false.
Hypothesis not_less_trans :
  forall x y z, less y x = false -> less z y = false -> less z x = false.


Lemma less_irrefl x : less x x = false.
Proof. destruct (less x x) eqn:H; [by apply less_asym in H as H'; congruence|done]. Qed.

Lemma scan_up_spec a vp fuel pi b xb :
  pi < b -> b - pi <= fuel -> a !! b = Some xb -> less xb vp = false ->
  let r := scan_up less fuel a vp pi in
  pi < r <= b
  /\ (exists x, a !! r = Some x /\ less x vp = false)
  /\ (forall k x, pi < k < r -> a !! k = Some x -> less x vp = true).
Proof.
  revert pi. induction fuel as [|fuel IH]; intros pi Hlt Hfuel Hb Hxb; [lia|].
  cbn [scan_up].
  destruct (a !! S pi) as [x|] eqn:Hx.
  - destruct (less x vp) eqn:Hless.
    + assert (S pi ≠ b) by (intros <-; congruence).
      destruct (IH (S pi)) as (Hr & Hat & Hbelow); [lia|lia|done|done|].
      split; [lia|]. split; [done|].
      intros k y Hk Hy. destruct (decide (k = S pi)) as [->|]; [congruence|].
      apply (Hbelow k y); [lia|done].
    + split; [lia|]. split; [eauto|]. intros k y Hk; lia.
  - apply lookup_ge_None in Hx. apply lookup_lt_Some in Hb. lia.
Qed.

Lemma scan_down_spec a vp fuel pj b xb :
  b < pj -> pj <= length a -> pj - b <= fuel ->
  a !! b = Some xb -> less vp xb = false ->
  let r := scan_down less fuel a vp pj in
  b <= r < pj
  /\ (exists x, a !! r = Some x /\ less vp x = false)
  /\ (forall k x, r < k < pj -> a !! k = Some x -> less vp x = true).
Proof.
  revert pj. induction fuel as [|fuel IH]; intros pj Hlt Hlen Hfuel Hb Hxb; [lia|].
  cbn [scan_down]. destruct pj as [|pj]; [lia|]. cbn [Nat.pred].
  destruct (a !! pj) as [x|] eqn:Hx.
  - destruct (less vp x) eqn:Hless.
    + assert (pj ≠ b) by (intros ->; congruence).
      destruct (IH pj) as (Hr & Hat & Habove); [lia|lia|lia|done|done|].
      split; [lia|]. split; [done|].
      intros k y Hk Hy. destruct (decide (k = pj)) as [->|]; [congruence|].
      apply (Habove k y); [lia|done].
    + split; [lia|]. split; [eauto|]. intros k y Hk; lia.
  - apply lookup_ge_None in Hx. lia.
Qed.


Lemma partition_loop_spec fuel a vp pi pj n :
  partition_inv less vp n a pi pj -> pj - pi < fuel ->
  partition_post less vp n (partition_loop less fuel a vp pi pj).1
                 (partition_loop less fuel a vp pi pj).2.
Proof.
  revert a pi pj.
  induction fuel as [|fuel IH]; intros a pi pj Hinv Hfuel; [lia|].
  destruct Hinv as (Hlen & Hn & Hij & Hpj & Hpivot & Hlow & Hhigh).
  cbn [partition_loop].
  destruct (lookup_lt_is_Some_2 a pj ltac:(lia)) as [xj Hxj].
  destruct (lookup_lt_is_Some_2 a pi ltac:(lia)) as [xi Hxi].
  destruct (scan_up_spec a vp (length a) pi pj xj)
    as (Hup & (xu & Hxu & Hu) & Hbelow); [lia|lia|done|by apply (Hhigh pj)|].
  destruct (scan_down_spec a vp (length a) pj pi xi)
    as (Hdown & (xd & Hxd & Hd) & Habove); [lia|lia|lia|done|by apply (Hlow pi)|].
  set (pi' := scan_up less (length a) a vp pi) in *.
  set (pj' := scan_down less (length a) a vp pj) in *.
  destruct (pj' <=? pi') eqn:Hcmp.
  - apply Nat.leb_le in Hcmp. cbn [fst snd].
    repeat split; try done; try lia.
    + intros k x Hk Hx. destruct (decide (k <= pi)); [by apply (Hlow k)|].
      apply less_asym. apply (Hbelow k x); [lia|done].
    + intros k x Hk Hx.
      destruct (decide (k = pi')) as [->|]; [congruence|].
      destruct (decide (pj <= k)); [by apply (Hhigh k)|].
      apply less_asym. apply (Habove k x); [lia|done].
  - apply Nat.leb_gt in Hcmp.
    apply IH; [|lia].
    assert (Hlk : forall k, swap a pi' pj' !! k =
              if decide (k = pi') then a !! pj'
              else if decide (k = pj') then a !! pi' else a !! k)
      by (intros k; apply lookup_swap; lia).
    repeat split; rewrite ?length_swap; try done; try lia.
    + rewrite Hlk. repeat case_decide; try lia. done.
    + intros k x Hk. rewrite Hlk. repeat case_decide; try lia.
      * intros; congruence.
      * intros Hx. destruct (decide (k <= pi)); [by apply (Hlow k)|].
        apply less_asym. apply (Hbelow k x); [lia|done].
    + intros k x Hk. rewrite Hlk. repeat case_decide; try lia.
      * intros; congruence.
      * intros Hx. destruct (decide (pj <= k)); [by apply (Hhigh k)|].
        apply less_asym. apply (Habove k x); [lia|done].
Qed.

(** [if (less(v[a[i]], v[a[j]])) INTP_SWAP(a[i], a[j])] *)
Lemma conditional_swap_spec a i j x y :
  i ≠ j -> a !! i = Some x -> a !! j = Some y ->
  let b := if less_at less a i j then swap a i j else a in
  length b = length a
  /\ (forall k, k ≠ i -> k ≠ j -> b !! k = a !! k)
  /\ exists x' y', b !! i = Some x' /\ b !! j = Some y' /\ less x' y' = false
       /\ ((x' = x /\ y' = y) \/ (x' = y /\ y' = x /\ less x y = true)).
Proof.
  intros Hne Hx Hy. unfold less_at. rewrite Hx, Hy.
  apply lookup_lt_Some in Hx as Hi. apply lookup_lt_Some in Hy as Hj.
  destruct (less x y) eqn:Hless; cbn zeta.
  - rewrite length_swap. split; [done|]. split.
    + intros k ??. rewrite lookup_swap by done. by repeat case_decide.
    + exists y, x. rewrite !lookup_swap by done.
      repeat case_decide; try done.
      repeat split; auto.
  - split; [done|]. split; [done|]. exists x, y. repeat split; auto.
Qed.

Lemma median_of_three_spec a pm pr :
  0 < pm -> pm < pr -> pr < length a ->
  let b := median_of_three less a 0 pm pr in
  exists x0 xm xr,
    b !! 0 = Some x0 /\ b !! pm = Some xm /\ b !! pr = Some xr
    /\ less xm x0 = false /\ less xr xm = false.
Proof.
  intros H0 Hm Hr. unfold median_of_three.
  destruct (lookup_lt_is_Some_2 a 0 ltac:(lia)) as [p0 Hp0].
  destruct (lookup_lt_is_Some_2 a pm ltac:(lia)) as [m0 Hm0].
  destruct (lookup_lt_is_Some_2 a pr ltac:(lia)) as [r0 Hr0].
  destruct (conditional_swap_spec a pm 0 m0 p0 ltac:(lia) Hm0 Hp0)
    as (Hlen1 & Hoth1 & m1 & p1 & Hm1 & Hp1 & Hle1 & _).
  set (b1 := if less_at less a pm 0 then swap a pm 0 else a) in *.
  assert (Hr1 : b1 !! pr = Some r0) by (rewrite Hoth1 by lia; done).
  destruct (conditional_swap_spec b1 pr pm r0 m1 ltac:(lia) Hr1 Hm1)
    as (Hlen2 & Hoth2 & r2 & m2 & Hr2 & Hm2 & Hle2 & Hcase2).
  set (b2 := if less_at less b1 pr pm then swap b1 pr pm else b1) in *.
  assert (Hp2 : b2 !! 0 = Some p1) by (rewrite Hoth2 by lia; done).
  destruct (conditional_swap_spec b2 pm 0 m2 p1 ltac:(lia) Hm2 Hp2)
    as (Hlen3 & Hoth3 & m3 & p3 & Hm3 & Hp3 & Hle3 & Hcase3).
  set (b3 := if less_at less b2 pm 0 then swap b2 pm 0 else b2) in *.
  assert (Hr3 : b3 !! pr = Some r2) by (rewrite Hoth3 by lia; done).
  exists p3, m3, r2. repeat split; try done.
  destruct Hcase3 as [[-> ->]|(-> & -> & Hsw3)]; [done|].
  destruct Hcase2 as [[-> ->]|(-> & -> & Hsw2)]; [congruence|done].
Qed.

(** What one partition step achieves on a range of at least 3 entries. *)
Lemma partition_spec a :
  3 <= length a ->
  let a' := (partition less a).1 in
  let pi := (partition less a).2 in
  length a' = length a /\ pi < length a
  /\ exists vp, a' !! pi = Some vp
       /\ Forall (fun x => less vp x = false) (take pi a')
       /\ Forall (fun x => less x vp = false) (drop (S pi) a').
Proof.
  intros Hlen. unfold partition. cbv zeta.
  set (pr := length a - 1). set (pm := pr / 2).
  assert (Hpm : 0 < pm /\ pm < pr).
  { subst pm pr. split.
    - apply Nat.div_str_pos. lia.
    - apply Nat.div_lt; lia. }
  destruct (median_of_three_spec a pm pr)
    as (x0 & vp & xr & Hx0 & Hvp & Hxr & Hle0 & Hler); [lia|lia|lia|].
  pose proof (length_median_of_three less a 0 pm pr) as Hlb.
  set (b := median_of_three less a 0 pm pr) in *.
  rewrite Hvp.
  assert (Hlk : forall k, swap b pm (pr - 1) !! k =
            if decide (k = pm) then b !! (pr - 1)
            else if decide (k = pr - 1) then b !! pm else b !! k)
    by (intros k; apply lookup_swap; lia).
  set (c := swap b pm (pr - 1)) in *.
  assert (Hlc : length c = length a) by (subst c; by rewrite length_swap).
  assert (Hinv : partition_inv less vp (length a) c 0 (pr - 1)).
  { repeat split; try lia.
    - replace (length a - 2) with (pr - 1) by lia.
      rewrite Hlk. repeat case_decide; try lia; congruence.
    - intros k x Hk. replace k with 0 by lia. rewrite Hlk.
      repeat case_decide; try lia. intros; congruence.
    - intros k x Hk Hx. apply lookup_lt_Some in Hx as Hklt.
      rewrite Hlk in Hx.
      assert (k = pr - 1 \/ k = pr) as [->| ->] by lia.
      + assert (x = vp) as -> by (repeat case_decide; congruence).
        apply less_irrefl.
      + repeat case_decide; try lia. congruence. }
  pose proof (partition_loop_spec (length c) c vp 0 (pr - 1) (length a) Hinv
                ltac:(lia)) as Hpost.
  destruct (partition_loop less (length c) c vp 0 (pr - 1)) as [d pi].
  cbn [fst snd] in *.
  destruct Hpost as (Hld & _ & Hpi & Hpivot & Hlow & Hhigh).
  replace (length a - 2) with (pr - 1) in * by lia.
  assert (Hlk' : forall k, swap d pi (pr - 1) !! k =
            if decide (k = pi) then d !! (pr - 1)
            else if decide (k = pr - 1) then d !! pi else d !! k)
    by (intros k; apply lookup_swap; lia).
  rewrite length_swap. split; [done|]. split; [lia|].
  exists vp. split; [|split].
  - rewrite Hlk'. by case_decide.
  - apply Forall_lookup. intros k x Hx.
    apply lookup_take_Some in Hx as [Hx Hk].
    rewrite Hlk' in Hx. repeat case_decide; try lia.
    by apply (Hlow k).
  - apply Forall_lookup. intros k x Hx.
    rewrite lookup_drop, Hlk' in Hx.
    repeat case_decide; try lia.
    + apply (Hhigh pi); [lia|done].
    + apply (Hhigh (S pi + k)); [lia|done].
Qed.

(** *** Insertion sort *)

Lemma insert_back_sorted vi l :
  StronglySorted (fun x y => less x y = false) l ->
  StronglySorted (fun x y => less x y = false) (insert_back less vi l).
Proof.
  induction 1 as [|x l Hs IH Hx]; cbn [insert_back].
  - repeat constructor.
  - destruct (less vi x) eqn:Hless.
    + constructor; [done|].
      rewrite insert_back_Permutation. constructor; [by apply less_asym|done].
    + constructor; [by constructor|].
      constructor; [done|].
      eapply Forall_impl; [exact Hx|]. cbn beta.
      intros y Hy. by apply (not_less_trans y x vi).
Qed.

Lemma insertion_fold_sorted a acc :
  StronglySorted (fun x y => less x y = false) acc ->
  StronglySorted (fun x y => less x y = false)
    (fold_left (fun acc vi => insert_back less vi acc) a acc).
Proof.
  revert acc. induction a as [|x a IH]; intros acc Hacc; cbn [fold_left]; [done|].
  apply IH. by apply insert_back_sorted.
Qed.

Lemma StronglySorted_rev (R : A -> A -> Prop) l :
  StronglySorted R l -> StronglySorted (fun x y => R y x) (rev l).
Proof.
  induction 1 as [|x l Hs IH Hx]; cbn [rev]; [constructor|].
  apply StronglySorted_app. split; [|split; [done|repeat constructor]].
  intros x1 x2 H1 H2. apply list_elem_of_singleton in H2 as ->.
  rewrite Forall_forall in Hx. apply Hx.
  by apply list_elem_of_In, in_rev, list_elem_of_In.
Qed.

Lemma insertion_sort_sorted a : StronglySorted (not_after less) (insertion_sort less a).
Proof.
  unfold insertion_sort.
  apply (StronglySorted_rev (fun x y => less x y = false)).
  apply insertion_fold_sorted. constructor.
Qed.

(** *** Heapsort *)


Lemma get1_set1 a i k x :
  1 <= i -> 1 <= k -> i <= length a ->
  get1 (set1 a i x) k = if decide (k = i) then Some x else get1 a k.
Proof.
  intros Hi Hk Hlen. unfold get1, set1. case_decide as Hd.
  - subst. apply list_lookup_insert_eq. lia.
  - apply list_lookup_insert_ne. lia.
Qed.

Lemma get1_is_Some a k : 1 <= k -> k <= length a -> is_Some (get1 a k).
Proof. intros. apply lookup_lt_is_Some_2. lia. Qed.

(** The larger child, as the loop picks it. *)
Lemma larger_child a i n :
  1 <= i -> 2 * i <= n -> n <= length a ->
  let j := 2 * i in
  let j' := if (j <? n) && less_at1 less a j (j + 1) then j + 1 else j in
  is_child i j' /\ j' <= n
  /\ exists aj, get1 a j' = Some aj
       /\ forall c y, is_child i c -> c <= n -> get1 a c = Some y ->
            less aj y = false.
Proof.
  intros Hi Hj Hn. cbv zeta. unfold less_at1, less_at.
  replace (2 * i + 1 - 1) with (2 * i) by lia.
  destruct (get1_is_Some a (2 * i)) as [y0 Hy0]; [lia|lia|].
  unfold get1 in Hy0. rewrite Hy0.
  destruct (2 * i <? n) eqn:Hlt; cbn [andb].
  - apply Nat.ltb_lt in Hlt.
    destruct (get1_is_Some a (2 * i + 1)) as [y1 Hy1]; [lia|lia|].
    unfold get1 in Hy1. replace (2 * i + 1 - 1) with (2 * i) in Hy1 by lia.
    rewrite Hy1.
    destruct (less y0 y1) eqn:Hless.
    + split; [by right|]. split; [lia|]. exists y1.
      unfold get1. replace (2 * i + 1 - 1) with (2 * i) by lia.
      split; [done|]. intros c y [->| ->] Hc Hy.
      * rewrite Hy0 in Hy. simplify_eq. by apply less_asym.
      * replace (2 * i + 1 - 1) with (2 * i) in Hy by lia.
        simplify_eq. apply less_irrefl.
    + split; [by left|]. split; [lia|]. exists y0.
      split; [done|]. intros c y [->| ->] Hc Hy; unfold get1 in Hy.
      * simplify_eq. apply less_irrefl.
      * replace (2 * i + 1 - 1) with (2 * i) in Hy by lia. by simplify_eq.
  - apply Nat.ltb_ge in Hlt.
    split; [by left|]. split; [lia|]. exists y0.
    split; [done|]. intros c y [->| ->] Hc Hy; unfold get1 in Hy; [|lia].
    simplify_eq. apply less_irrefl.
Qed.

Lemma sift_down_heap fuel a tmp i lo n :
  1 <= lo -> lo <= i -> i <= n -> n <= length a -> n - i < fuel ->
  (forall k, lo <= k -> k ≠ i -> heap_at less a n k) ->
  (forall p xp, lo <= p -> is_child p i -> get1 a p = Some xp ->
     less xp tmp = false
     /\ forall c y, is_child i c -> c <= n -> get1 a c = Some y ->
          less xp y = false) ->
  forall k, lo <= k -> heap_at less (sift_down less fuel a tmp i (2 * i) n) n k.
Proof.
  revert a i.
  induction fuel as [|fuel IH]; intros a i Hlo Hi Hin Hn Hfuel Hheap Hparent;
    [lia|].
  assert (Hfinal : forall k, lo <= k ->
            (forall c y, is_child i c -> c <= n -> get1 a c = Some y ->
               less tmp y = false) ->
            heap_at less (set1 a i tmp) n k).
  { intros k Hk Hch c x y Hc Hcn.
    assert (c ≠ k) by (destruct Hc; lia).
    rewrite !get1_set1 by (destruct Hc; lia).
    destruct (decide (k = i)) as [->|Hki].
    - rewrite decide_False by done. intros ? Hy; simplify_eq.
      by apply (Hch c).
    - destruct (decide (c = i)) as [->|Hci]; intros Hx Hy; simplify_eq.
      + by destruct (Hparent k x Hk Hc Hx).
      + by apply (Hheap k Hk Hki c). }
  cbn [sift_down].
  destruct (2 * i <=? n) eqn:Hj.
  2:{ apply Nat.leb_gt in Hj. intros k Hk. apply Hfinal; [done|].
      intros c y [->| ->]; lia. }
  apply Nat.leb_le in Hj.
  destruct (larger_child a i n) as (Hchild & Hjn & aj & Haj & Hlarger);
    [lia|lia|lia|].
  set (j' := if (2 * i <? n) && less_at1 less a (2 * i) (2 * i + 1)
             then 2 * i + 1 else 2 * i) in *.
  rewrite Haj.
  destruct (less tmp aj) eqn:Hless.
  2:{ intros k Hk. apply Hfinal; [done|].
      intros c y Hc Hcn Hy.
      apply (not_less_trans y aj tmp); [by apply (Hlarger c)|done]. }
  assert (Hij : i < j') by (destruct Hchild; lia).
  replace (j' + j') with (2 * j') by lia.
  apply IH; rewrite ?length_set1; try lia.
  - intros k Hk Hkj c x y Hc Hcn.
    assert (c ≠ k) by (destruct Hc; lia).
    rewrite !get1_set1 by (destruct Hc; lia).
    destruct (decide (k = i)) as [->|Hki].
    + rewrite decide_False by done. intros ? Hy; simplify_eq.
      by apply (Hlarger c).
    + destruct (decide (c = i)) as [->|Hci]; intros Hx Hy; simplify_eq.
      * destruct (Hparent k x Hk Hc Hx) as [_ H']. by apply (H' j').
      * by apply (Hheap k Hk Hki c).
  - intros p xp Hp Hc. rewrite get1_set1 by (destruct Hc; lia).
    assert (p = i) as -> by (destruct Hc, Hchild; lia).
    case_decide; [|done]. intros ?; simplify_eq.
    split; [by apply less_asym|].
    intros c y Hc' Hcn. rewrite get1_set1 by (destruct Hc'; lia).
    case_decide; [destruct Hc'; lia|]. intros Hy.
    by apply (Hheap j' ltac:(lia) ltac:(lia) c).
Qed.

Lemma sift_down_drop fuel a tmp i j n :
  1 <= i -> i < j -> i <= n ->
  drop n (sift_down less fuel a tmp i j n) = drop n a.
Proof.
  revert a i j. induction fuel as [|fuel IH]; intros a i j Hi Hij Hin;
    cbn [sift_down]; unfold set1.
  - apply drop_insert_lt. lia.
  - destruct (j <=? n) eqn:Hj; [|apply drop_insert_lt; lia].
    apply Nat.leb_le in Hj.
    set (j' := if (j <? n) && less_at1 less a j (j + 1) then j + 1 else j).
    assert (Hj' : j <= j' <= n).
    { subst j'. destruct (j <? n) eqn:Hlt; cbn [andb]; [|lia].
      apply Nat.ltb_lt in Hlt. destruct (less_at1 _ _ _ _); lia. }
    destruct (get1 a j') as [aj|]; [|apply drop_insert_lt; lia].
    destruct (less tmp aj); [|apply drop_insert_lt; lia].
    rewrite IH by lia. apply drop_insert_lt. lia.
Qed.

Lemma build_heap_is_heap l a n :
  n <= length a -> 2 * l <= n ->
  (forall k, l + 1 <= k -> heap_at less a n k) ->
  forall k, 1 <= k -> heap_at less (build_heap less l a n) n k.
Proof.
  revert a. induction l as [|l IH]; intros a Hn Hl Hheap; cbn [build_heap].
  - intros k Hk. apply Hheap. lia.
  - destruct (get1_is_Some a (S l)) as [tmp Htmp]; [lia|lia|].
    rewrite Htmp.
    apply IH; rewrite ?length_sift_down; try lia.
    intros k Hk. apply sift_down_heap with (lo := S l); try lia.
    + intros k' ??. apply Hheap. lia.
    + intros p xp Hp [?|?]; lia.
Qed.

Lemma heap_root_max a n :
  n <= length a ->
  (forall k, 1 <= k -> heap_at less a n k) ->
  forall k x top, 1 <= k -> k <= n ->
    get1 a 1 = Some top -> get1 a k = Some x -> less top x = false.
Proof.
  intros Hn Hheap k. induction (lt_wf k) as [k _ IH].
  intros x top Hk Hkn Htop Hx.
  destruct (decide (k = 1)) as [->|Hk1].
  - simplify_eq. apply less_irrefl.
  - assert (Hdiv : k = 2 * (k / 2) + k mod 2) by apply Nat.div_mod_eq.
    pose proof (Nat.mod_upper_bound k 2 ltac:(lia)) as Hmod.
    destruct (get1_is_Some a (k / 2)) as [xp Hxp]; [lia|lia|].
    apply (not_less_trans x xp top).
    + apply (Hheap (k / 2) ltac:(lia) k); try done.
      unfold is_child. lia.
    + apply (IH (k / 2)); try done; lia.
Qed.

Lemma extract_max_sorted fuel a m :
  m <= fuel -> m <= length a ->
  (forall k, 1 <= k -> heap_at less a m k) ->
  StronglySorted (not_after less) (drop m a) ->
  (forall x y, x ∈ take m a -> y ∈ drop m a -> less y x = false) ->
  StronglySorted (not_after less) (extract_max less fuel a m).
Proof.
  revert a m.
  induction fuel as [|fuel IH]; intros a m Hfuel Hlen Hheap Hsorted Hcross.
  { assert (m = 0) as -> by lia. done. }
  cbn [extract_max].
  destruct (1 <? m) eqn:Hm.
  2:{ apply Nat.ltb_ge in Hm.
      rewrite <- (take_drop m a). apply StronglySorted_app.
      split; [done|]. split; [|done].
      destruct (take m a) as [|x [|y l]] eqn:Htake.
      - constructor.
      - repeat constructor.
      - apply (f_equal length) in Htake. rewrite length_take in Htake.
        simpl in Htake. lia. }
  apply Nat.ltb_lt in Hm.
  destruct (get1_is_Some a m) as [tmp Htmp]; [lia|lia|].
  destruct (get1_is_Some a 1) as [top Htop]; [lia|lia|].
  rewrite Htmp, Htop.
  set (a1 := set1 a m top).
  assert (Hl1 : length a1 = length a) by apply length_set1.
  assert (Hdrop1 : drop (m - 1) a1 = top :: drop m a).
  { subst a1. unfold set1.
    rewrite drop_insert_ge, Nat.sub_diag by lia.
    rewrite (drop_S a tmp (m - 1)) by done.
    cbn. by replace (S (m - 1)) with m by lia. }
  assert (Htake1 : take (m - 1) a1 = take (m - 1) a).
  { subst a1. unfold set1. by rewrite take_insert_ge. }
  set (a2 := sift_down less (m - 1) a1 tmp 1 2 (m - 1)).
  assert (Hdrop2 : drop (m - 1) a2 = top :: drop m a).
  { subst a2. rewrite sift_down_drop by lia. done. }
  assert (Hin2 : forall x, x ∈ take (m - 1) a2 -> x ∈ take m a).
  { intros x Hx.
    assert (Hperm : take (m - 1) a2 ≡ₚ take (m - 1) (set1 a1 1 tmp)).
    { apply (Permutation_app_inv_r (drop (m - 1) a2)).
      rewrite take_drop. rewrite Hdrop2, <- Hdrop1.
      replace (drop (m - 1) a1) with (drop (m - 1) (set1 a1 1 tmp))
        by (unfold set1; apply drop_insert_lt; lia).
      rewrite take_drop. subst a2.
      apply sift_down_Permutation; lia. }
    rewrite Hperm in Hx. unfold set1 in Hx.
    rewrite take_insert_lt in Hx by lia. rewrite Htake1 in Hx.
    apply list_elem_of_lookup in Hx as [k Hk].
    apply list_lookup_insert_Some in Hk as [(<- & <- & _)|[Hne Hk]].
    - apply elem_of_take. exists (m - 1). split; [done|lia].
    - apply lookup_take_Some in Hk as [Hk Hkm].
      apply elem_of_take. exists k. split; [done|lia]. }
  assert (Htopmax : forall x, x ∈ take m a -> less top x = false).
  { intros x Hx. apply elem_of_take in Hx as (k & Hk & Hkm).
    apply (heap_root_max a m Hlen Hheap (S k)); try done; try lia.
    unfold get1. by replace (S k - 1) with k by lia. }
  apply IH.
  - lia.
  - subst a2. rewrite length_sift_down. lia.
  - intros k Hk. subst a2.
    replace 2 with (2 * 1) at 1 by lia.
    apply sift_down_heap with (lo := 1); try lia.
    + intros k' Hk' Hne c x y Hc Hcm.
      subst a1. rewrite !get1_set1 by (destruct Hc; lia).
      repeat case_decide; try (destruct Hc; lia).
      intros Hx Hy. apply (Hheap k' Hk' c x y); [done|lia|done|done].
    + intros p xp Hp [?|?]; lia.
  - rewrite Hdrop2. constructor; [done|].
    apply Forall_forall. intros y Hy.
    apply Hcross; [|done].
    apply elem_of_take. exists 0. split; [done|lia].
  - intros x y Hx Hy. rewrite Hdrop2 in Hy.
    apply Hin2 in Hx.
    apply elem_of_cons in Hy as [->|Hy]; [by apply Htopmax|by apply Hcross].
Qed.

Lemma aheapsort_sorted a : StronglySorted (not_after less) (aheapsort less a).
Proof.
  unfold aheapsort.
  apply extract_max_sorted; rewrite ?length_build_heap; try lia.
  - apply build_heap_is_heap; [lia|apply Nat.Div0.mul_div_le|].
    intros k Hk c x y [->| ->] Hc; exfalso;
      pose proof (Nat.div_mod_eq (length a) 2);
      pose proof (Nat.mod_upper_bound (length a) 2 ltac:(lia)); lia.
  - rewrite drop_ge by (rewrite length_build_heap; lia). constructor.
  - intros x y _ Hy.
    rewrite drop_ge in Hy by (rewrite length_build_heap; lia).
    by apply elem_of_nil in Hy.
Qed.

(** *** The introsort *)

Lemma aquicksort_range_sorted fuel check cdepth a :
  length a < fuel ->
  StronglySorted (not_after less) (aquicksort_range less fuel check cdepth a).
Proof.
  revert check cdepth a.
  induction fuel as [|fuel IH]; intros check cdepth a Hfuel; [lia|].
  cbn [aquicksort_range].
  destruct (check && _); [apply aheapsort_sorted|].
  destruct (SMALL_QUICKSORT <? _) eqn:Hsmall; [|apply insertion_sort_sorted].
  apply Nat.ltb_lt in Hsmall. unfold SMALL_QUICKSORT in Hsmall.
  destruct (partition_spec a ltac:(lia))
    as (Hlen & Hpi & vp & Hvp & Hleft & Hright).
  destruct (partition less a) as [a' pi]. cbn [fst snd] in *.
  assert (Hpivot : take 1 (drop pi a') = [vp]).
  { rewrite (drop_S a' vp pi) by done. by destruct (drop (S pi) a'). }
  rewrite Hpivot.
  assert (Hl : length (take pi a') < fuel) by (rewrite length_take; lia).
  assert (Hr : length (drop (S pi) a') < fuel) by (rewrite length_drop; lia).
  assert (Hgoal : forall c1 c2 d1 d2,
            StronglySorted (not_after less)
              (aquicksort_range less fuel c1 d1 (take pi a')
                 ++ [vp] ++ aquicksort_range less fuel c2 d2 (drop (S pi) a'))).
  { intros c1 c2 d1 d2.
    apply StronglySorted_app. split; [|split; [by apply IH|]].
    - intros x y Hx Hy.
      rewrite aquicksort_range_Permutation in Hx.
      rewrite Forall_forall in Hleft. apply Hleft in Hx.
      apply elem_of_cons in Hy as [->|Hy]; [done|].
      rewrite aquicksort_range_Permutation in Hy.
      rewrite Forall_forall in Hright. apply Hright in Hy.
      by apply (not_less_trans x vp y).
    - cbn [app]. constructor; [by apply IH|].
      rewrite aquicksort_range_Permutation. done. }
  destruct (pi <? _); apply Hgoal.
Qed.

Theorem npy_aquicksort_sorted a : StronglySorted (not_after less) (npy_aquicksort less a).
Proof. apply aquicksort_range_sorted. lia. Qed.
End IntrosortSorted.

Section IntrosortStable.
Context {A : Type} (less : A -> A -> bool).
Implicit Types a : list A.
Local Open Scope nat_scope.

(** A range of at most 16 entries is sorted by insertion alone. *)
Lemma npy_aquicksort_short a :
  length a <= 16 -> npy_aquicksort less a = insertion_sort less a.
Proof.
  intros Hlen. unfold npy_aquicksort, depth_limit. cbn [aquicksort_range].
  assert (Hd : (2 * Z.log2 (Z.of_nat (length a)) <? 0)%Z = false).
  { apply Z.ltb_ge. pose proof (Z.log2_nonneg (Z.of_nat (length a))). lia. }
  rewrite Hd. cbn [andb].
  assert (Hs : (SMALL_QUICKSORT <? length a - 1) = false)
    by (apply Nat.ltb_ge; unfold SMALL_QUICKSORT; lia).
  by rewrite Hs.
Qed.

(** Insertion sort does not move an entry past another one of the same
    class [P], when entries of one class do not compare as less. *)
Lemma insert_back_filter (P : A -> bool) vi l :
  (forall x, P vi = true -> P x = true -> less vi x = false) ->
  List.filter P (insert_back less vi l) = List.filter P (vi :: l).
Proof.
  intros Hclass. induction l as [|x l IH]; [done|].
  cbn [insert_back]. destruct (less vi x) eqn:Hless; [|done].
  cbn [List.filter] in *. rewrite IH.
  destruct (P vi) eqn:Hvi, (P x) eqn:Hx; try done.
  rewrite Hclass in Hless by done. done.
Qed.

Lemma insertion_fold_filter (P : A -> bool) a acc :
  (forall x y, P x = true -> P y = true -> less x y = false) ->
  List.filter P (fold_left (fun acc vi => insert_back less vi acc) a acc)
  = List.filter P (rev a ++ acc).
Proof.
  intros Hclass. revert acc.
  induction a as [|x a IH]; intros acc; cbn [fold_left rev]; [done|].
  rewrite IH, <- app_assoc. cbn [app].
  rewrite !List.filter_app. f_equal.
  apply insert_back_filter. intros y. apply Hclass.
Qed.

Lemma insertion_sort_stable (P : A -> bool) a :
  (forall x y, P x = true -> P y = true -> less x y = false) ->
  List.filter P (insertion_sort less a) = List.filter P a.
Proof.
  intros Hclass. unfold insertion_sort.
  rewrite List.filter_rev, insertion_fold_filter by done.
  by rewrite app_nil_r, List.filter_rev, rev_involutive.
Qed.
End IntrosortStable.


(** * Properties of frames and of the normaliser *)

Lemma bind_Ok {A B} (r : result A) (k : A -> result B) (b : B) :
  bind r k = Ok b -> exists a, r = Ok a /\ k a = Ok b.
Proof. destruct r as [a|e]; cbn; [eauto|discriminate]. Qed.

Lemma mapM_map {A B C} (f : B -> result C) (g : A -> B) (l : list A) :
  mapM f (map g l) = mapM (fun a => f (g a)) l.
Proof. induction l as [|a l IH]; cbn [mapM map]; [done|]. by rewrite IH. Qed.

Lemma mapM_total {A B} (f : A -> result B) (g : A -> B) (l : list A) :
  Forall (fun a => f a = Ok (g a)) l -> mapM f l = Ok (map g l).
Proof.
  induction 1 as [|a l Ha _ IH]; cbn [mapM map]; [done|].
  by rewrite Ha, IH.
Qed.

Lemma zip_with_rows_map (f : Row -> cell -> Row) (g : Row -> cell) (rs : list Row) :
  zip_with_rows f rs (map g rs) = map (fun r => f r (g r)) rs.
Proof. induction rs as [|r rs IH]; cbn; [done|]. by rewrite IH. Qed.

Lemma cell_at_insert (i : nat) (v : cell) (r : Row) :
  (i < length r)%nat -> cell_at i (<[i:=v]> r) = v.
Proof. intros H. unfold cell_at. by rewrite list_lookup_insert_eq. Qed.

Lemma cell_at_insert_ne (i j : nat) (v : cell) (r : Row) :
  i ≠ j -> cell_at j (<[i:=v]> r) = cell_at j r.
Proof. intros H. unfold cell_at. by rewrite list_lookup_insert_ne. Qed.

Lemma cell_at_short (i : nat) (r : Row) : (length r <= i)%nat -> cell_at i r = NaN.
Proof. intros H. unfold cell_at. by rewrite lookup_ge_None_2. Qed.

(** Reading a column of a frame with the canonical labels. *)
Lemma get_column_canonical (rs : list Row) (name : string) (i : nat) :
  column_index name canonical_columns = Some i ->
  get_column (mkFrame canonical_columns rs) name = Ok (map (cell_at i) rs).
Proof. intros H. unfold get_column. cbn [columns rows]. by rewrite H. Qed.

Lemma set_column_canonical (rs : list Row) (name : string) (i : nat)
      (g : Row -> cell) :
  column_index name canonical_columns = Some i ->
  set_column (mkFrame canonical_columns rs) name (map g rs)
  = mkFrame canonical_columns (map (fun r => <[i:=g r]> r) rs).
Proof.
  intros H. unfold set_column. cbn [columns rows]. rewrite H.
  by rewrite zip_with_rows_map.
Qed.

(** The two passes of [clean_monetary] amount to one update of the cell. *)
Lemma clean_twice (i : nat) (r : Row) :
  <[i:=to_numeric_coerce (cell_at i (<[i:=replace_currency (cell_at i r)]> r))]>
    (<[i:=replace_currency (cell_at i r)]> r)
  = clean_cell_at i r.
Proof.
  unfold clean_cell_at.
  destruct (decide (i < length r)%nat) as [Hlt|Hge].
  - by rewrite cell_at_insert, list_insert_insert_eq.
  - by rewrite !(list_insert_ge r) by lia.
Qed.

Lemma clean_monetary_canonical (rs : list Row) (name : string) (i : nat) :
  column_index name canonical_columns = Some i ->
  clean_monetary (mkFrame canonical_columns rs) name
  = Ok (mkFrame canonical_columns (map (clean_cell_at i) rs)).
Proof.
  intros H. unfold clean_monetary.
  rewrite (get_column_canonical _ _ _ H). cbn [bind].
  rewrite map_map, (set_column_canonical _ _ _ _ H).
  rewrite (get_column_canonical _ _ _ H). cbn [bind].
  rewrite (map_map (cell_at i) to_numeric_coerce).
  rewrite (set_column_canonical _ name i
             (fun r => to_numeric_coerce (cell_at i r)) H).
  rewrite map_map. do 2 f_equal.
  apply map_ext. intros r. apply clean_twice.
Qed.

(** ** The order of dates *)

Lemma date_eqb_eq (a b : Date) : date_eqb a b = true <-> a = b.
Proof.
  destruct a as [ya ma da], b as [yb mb db]. unfold date_eqb. cbn.
  rewrite !andb_true_iff, !Z.eqb_eq. split; [intros [[-> ->] ->]; done|].
  by intros [= -> -> ->].
Qed.

Lemma date_ltb_lt (a b : Date) :
  date_ltb a b = true
  <-> year a < year b
      \/ (year a = year b
          /\ (month a < month b \/ (month a = month b /\ day a < day b))).
Proof.
  unfold date_ltb.
  by rewrite !orb_true_iff, !andb_true_iff, !orb_true_iff, !andb_true_iff,
       !Z.ltb_lt, !Z.eqb_eq.
Qed.

Lemma date_ltb_asym (a b : Date) : date_ltb a b = true -> date_ltb b a = false.
Proof.
  rewrite <- not_true_iff_false, !date_ltb_lt. lia.
Qed.

Lemma date_ltb_not_trans (a b c : Date) :
  date_ltb b a = false -> date_ltb c b = false -> date_ltb c a = false.
Proof.
  rewrite <- !not_true_iff_false, !date_ltb_lt. lia.
Qed.

Lemma date_ltb_irrefl (a : Date) : date_ltb a a = false.
Proof. rewrite <- not_true_iff_false, date_ltb_lt. lia. Qed.

Lemma less_by_date_asym (x y : nat * Date) :
  less_by_date x y = true -> less_by_date y x = false.
Proof. apply date_ltb_asym. Qed.

Lemma less_by_date_not_trans (x y z : nat * Date) :
  less_by_date y x = false -> less_by_date z y = false ->
  less_by_date z x = false.
Proof. apply date_ltb_not_trans. Qed.

(** ** [sort_values] on rows that all carry a date *)

Lemma StronglySorted_map_in {A B} (R1 : A -> A -> Prop) (R2 : B -> B -> Prop)
      (f : A -> B) (l : list A) :
  (forall x y, x ∈ l -> y ∈ l -> R1 x y -> R2 (f x) (f y)) ->
  StronglySorted R1 l -> StronglySorted R2 (map f l).
Proof.
  intros Hf Hs. induction Hs as [|x l Hs IH Hx]; cbn [map]; constructor.
  - apply IH. intros y z Hy Hz. apply Hf; by right.
  - apply Forall_forall. intros y Hy.
    apply list_elem_of_fmap in Hy as (z & -> & Hz).
    apply Hf; [by left|by right|].
    rewrite Forall_forall in Hx. by apply Hx.
Qed.

Lemma filter_map_in {A B} (P : B -> bool) (Q : A -> bool) (f : A -> B)
      (l : list A) :
  Forall (fun x => P (f x) = Q x) l ->
  List.filter P (map f l) = map f (List.filter Q l).
Proof.
  induction 1 as [|x l Hx _ IH]; cbn [map List.filter]; [done|].
  rewrite Hx, IH. by destruct (Q x).
Qed.

Lemma non_nan_idx_spec (rs pre : list Row) (keys : list (option Date)) :
  Forall2 (fun r k => row_date r = k /\ is_Some k) rs keys ->
  nan_idx (length pre) keys = []
  /\ map (row_of (pre ++ rs)) (non_nan_idx (length pre) keys) = rs
  /\ Forall (fun p => row_date (row_of (pre ++ rs) p) = Some (snd p))
            (non_nan_idx (length pre) keys).
Proof.
  intros H. revert pre.
  induction H as [|r k rs keys [Hr [d ->]] _ IH]; intros pre; [done|].
  cbn [nan_idx non_nan_idx map].
  destruct (IH (pre ++ [r])) as (Hnan & Hmap & Hdates).
  rewrite length_app, Nat.add_1_r, <- app_assoc in *. cbn [app] in *.
  assert (Hhere : row_of (pre ++ r :: rs) (length pre, d) = r).
  { unfold row_of. cbn [fst]. by rewrite list_lookup_middle. }
  split; [done|]. split.
  - by rewrite Hhere, Hmap.
  - constructor; [|done]. by rewrite Hhere.
Qed.

Lemma has_date_row_of (rs : list Row) (d : Date) (p : nat * Date) :
  row_date (row_of rs p) = Some (snd p) ->
  has_date d (row_of rs p) = date_eqb d (snd p).
Proof. intros H. unfold has_date. by rewrite H. Qed.

Lemma take_rows_nargsort (rs : list Row) (keys : list (option Date)) :
  Forall2 (fun r k => row_date r = k /\ is_Some k) rs keys ->
  take_rows (nargsort keys) rs ≡ₚ rs
  /\ StronglySorted row_not_after (take_rows (nargsort keys) rs)
  /\ ((length rs <= 16)%nat -> forall d,
        List.filter (has_date d) (take_rows (nargsort keys) rs)
        = List.filter (has_date d) rs).
Proof.
  intros H.
  destruct (non_nan_idx_spec rs [] keys H) as (Hnan & Hmap & Hdates).
  cbn [length app] in *.
  unfold nargsort, take_rows. rewrite Hnan, app_nil_r, map_map.
  change (fun x => default [] (rs !! fst x)) with (row_of rs).
  set (pairs := non_nan_idx 0 keys) in *.
  pose proof (npy_aquicksort_Permutation less_by_date pairs) as Hperm.
  assert (Hdates' : Forall (fun p => row_date (row_of rs p) = Some (snd p))
                      (npy_aquicksort less_by_date pairs))
    by (by rewrite Hperm).
  split; [|split].
  - rewrite <- Hmap at 2. by apply Permutation_map.
  - eapply StronglySorted_map_in;
      [|apply npy_aquicksort_sorted;
        [apply less_by_date_asym|apply less_by_date_not_trans]].
    intros x y Hx Hy Hxy. rewrite Forall_forall in Hdates'.
    exists (snd x), (snd y). split; [by apply Hdates'|]. split; [by apply Hdates'|].
    exact Hxy.
  - intros Hlen d.
    assert (Hlp : (length pairs <= 16)%nat).
    { apply (f_equal length) in Hmap. rewrite length_map in Hmap. lia. }
    rewrite (filter_map_in _ (fun p => date_eqb d (snd p))).
    2:{ eapply Forall_impl; [exact Hdates'|]. intros p Hp.
        by apply has_date_row_of. }
    rewrite npy_aquicksort_short by done.
    rewrite insertion_sort_stable.
    2:{ intros x y Hx Hy. apply date_eqb_eq in Hx, Hy.
        unfold less_by_date. rewrite <- Hx, <- Hy. apply date_ltb_irrefl. }
    rewrite <- (filter_map_in (has_date d)).
    + by rewrite Hmap.
    + eapply Forall_impl; [exact Hdates|]. intros p Hp.
      by apply has_date_row_of.
Qed.

(** ** The loop over the tables *)

Lemma filter_filter {A} (f g : A -> bool) (l : list A) :
  List.filter f (List.filter g l) = List.filter (fun x => g x && f x) l.
Proof.
  induction l as [|x l IH]; cbn [List.filter]; [done|].
  destruct (g x); cbn [List.filter andb]; rewrite IH; done.
Qed.

Lemma filter_concat {A} (f : A -> bool) (ls : list (list A)) :
  List.filter f (concat ls) = concat (map (List.filter f) ls).
Proof.
  induction ls as [|l ls IH]; cbn [concat map]; [done|].
  by rewrite List.filter_app, IH.
Qed.

Lemma process_table_Some (t : RawTable) (rs : list Row) :
  process_table t = Ok (Some rs) ->
  Nat.leb 6 (width t) = true /\ width t = 7%nat
  /\ has_str_accessor (map (cell_at 0) (body t)) = true
  /\ rs = List.filter date_found (body t).
Proof.
  unfold process_table.
  destruct (Nat.leb 6 (width t)) eqn:Hw; [|discriminate].
  destruct (Nat.eqb_spec (width t) (length canonical_columns)) as [H7|];
    [|discriminate].
  destruct (has_str_accessor _); [|discriminate].
  intros [= <-]. by rewrite filter_filter.
Qed.

Lemma process_table_None (t : RawTable) :
  process_table t = Ok None -> Nat.leb 6 (width t) = false.
Proof.
  unfold process_table.
  destruct (Nat.leb 6 (width t)); [|done].
  destruct (Nat.eqb _ _); [|discriminate].
  destruct (has_str_accessor _); discriminate.
Qed.

Lemma process_tables_Ok (tables : list RawTable) (pts : list (list Row)) :
  process_tables tables = Ok pts ->
  concat pts = List.filter date_found (candidate_rows tables)
  /\ (pts = [] <-> Forall (fun t => (width t < 6)%nat) tables)
  /\ Forall (fun t => (6 <= width t)%nat -> width t = 7%nat) tables.
Proof.
  revert pts. induction tables as [|t tables IH]; intros pts; cbn [process_tables].
  - intros [= <-]. repeat split; auto.
  - intros H. apply bind_Ok in H as (r & Hr & H).
    apply bind_Ok in H as (pts' & Hpts' & [= <-]).
    destruct (IH pts' Hpts') as (Hrows & Hnone & Hwidth).
    unfold candidate_rows in *. cbn [List.filter].
    destruct r as [rs|].
    + apply process_table_Some in Hr as (Hw & H7 & _ & ->).
      rewrite Hw. cbn [map concat]. rewrite List.filter_app, <- Hrows.
      split; [done|]. split; [|by constructor].
      split; [done|]. intros Hall. apply Forall_cons_1 in Hall as [Hlt _].
      apply Nat.leb_le in Hw. lia.
    + apply process_table_None in Hr as Hw. rewrite Hw.
      apply Nat.leb_gt in Hw.
      split; [done|]. split; [|constructor; [lia|done]].
      rewrite Hnone. split; [by constructor|]. by intros [_ ?]%Forall_cons_1.
Qed.

(** ** The rows that [process_pdf] keeps *)

Lemma header_has_no_date (s : string) :
  date_pattern_search s = true -> String.eqb s "Transaction Date" = false.
Proof.
  intros H. destruct (String.eqb_spec s "Transaction Date") as [->|]; [|done].
  vm_compute in H. discriminate.
Qed.

Lemma date_found_Str (r : Row) :
  date_found r = true ->
  exists s, r !! 0%nat = Some (Str s) /\ date_pattern_search s = true.
Proof.
  unfold date_found, str_contains_date, cell_at.
  intros [_ H]%andb_true_iff.
  destruct (r !! 0%nat) as [[|s| |]|]; try discriminate. eauto.
Qed.

Lemma date_found_not_header (r : Row) :
  date_found r = true -> not_header_label (cell_at 0 r) = true.
Proof.
  intros (s & Hs & Hfound)%date_found_Str. unfold cell_at. rewrite Hs. cbn.
  by rewrite header_has_no_date.
Qed.

Lemma filter_not_header (rs : list Row) :
  List.filter (fun r => not_header_label (cell_at 0 r))
              (List.filter date_found rs)
  = List.filter date_found rs.
Proof.
  rewrite filter_filter. apply List.filter_ext. intros r.
  destruct (date_found r) eqn:H; [|done].
  by rewrite date_found_not_header.
Qed.

Lemma strptime_dmY_full (s : string) (d : Date) :
  strptime_dmY s = Some d -> date_pattern_full s = true /\ valid_date d = true.
Proof.
  unfold strptime_dmY, date_pattern_full.
  do 10 (destruct s as [|? s]; [discriminate|]).
  destruct s; [|discriminate].
  destruct (date_pattern_at _) eqn:Hat; [|discriminate].
  destruct (valid_date _) eqn:Hv; [|discriminate].
  intros [= <-]. by rewrite Hv.
Qed.

Lemma date_pattern_full_search (s : string) :
  date_pattern_full s = true -> date_pattern_search s = true.
Proof.
  unfold date_pattern_full. intros [H _]%andb_true_iff.
  destruct s; cbn [date_pattern_search]; by rewrite H.
Qed.

Lemma all_null_first (r : Row) (c : cell) :
  r !! 0%nat = Some c -> is_null c = false -> all_null r = false.
Proof. destruct r as [|c' r]; [done|]. intros [= ->] H. cbn. by rewrite H. Qed.

Lemma date_strict_found (r : Row) : date_strict r = true -> date_found r = true.
Proof.
  unfold date_strict, date_found, cell_at.
  destruct (r !! 0%nat) as [[|s| |]|] eqn:Hr; try discriminate. cbn [default].
  intros H. rewrite (all_null_first r (Str s)) by done. cbn.
  by apply date_pattern_full_search.
Qed.

Lemma to_datetime_format_Str (r : Row) (s : string) (v : cell) :
  r !! 0%nat = Some (Str s) ->
  to_datetime_format (cell_at 0 r) = Ok v ->
  exists d, strptime_dmY s = Some d /\ v = Dt d /\ dated_row r = <[0%nat:=Dt d]> r.
Proof.
  intros Hr. unfold dated_row, cell_at. rewrite Hr. cbn.
  destruct (strptime_dmY s) as [d|]; [|discriminate].
  intros [= <-]. eauto.
Qed.

Lemma row_date_dated_row (r : Row) (s : string) (d : Date) :
  r !! 0%nat = Some (Str s) -> strptime_dmY s = Some d ->
  cell_at 0 (dated_row r) = Dt d /\ row_date (dated_row r) = Some d.
Proof.
  intros Hr Hd.
  assert (Hfmt : to_datetime_format (cell_at 0 r) = Ok (Dt d)).
  { unfold cell_at. rewrite Hr. cbn. by rewrite Hd. }
  unfold row_date, dated_row. rewrite Hfmt.
  apply lookup_lt_Some in Hr.
  by rewrite cell_at_insert.
Qed.

Lemma assign_dates (kept : list Row) (dates : list cell) :
  Forall (fun r => date_found r = true) kept ->
  mapM to_datetime_format (map (cell_at 0) kept) = Ok dates ->
  Forall parses kept
  /\ zip_with_rows (fun r v => <[0%nat:=v]> r) kept dates = map dated_row kept.
Proof.
  intros Hfound. revert dates.
  induction Hfound as [|r kept Hr _ IH]; intros dates; cbn [map mapM].
  - intros [= <-]. by split.
  - intros H. apply bind_Ok in H as (v & Hv & H).
    apply bind_Ok in H as (vs & Hvs & [= <-]).
    destruct (IH vs Hvs) as [Hall Hzip].
    apply date_found_Str in Hr as (s & Hs & _).
    destruct (to_datetime_format_Str r s v Hs Hv) as (d & Hd & -> & Hrow).
    split; [constructor; [by exists s, d|done]|].
    cbn [zip_with_rows]. by rewrite Hzip, Hrow.
Qed.

Lemma process_pdf_Some (tables : list RawTable) (df : DataFrame) :
  process_pdf tables = Ok (Some df) ->
  let kept := List.filter date_found (candidate_rows tables) in
  Forall parses kept
  /\ df = mkFrame canonical_columns
            (map clean_row
               (take_rows (nargsort (map (fun r => row_date (dated_row r)) kept))
                          (map dated_row kept))).
Proof.
  unfold process_pdf. intros H.
  apply bind_Ok in H as (pts & Hpts & H).
  apply process_tables_Ok in Hpts as (Hrows & _ & _).
  destruct pts as [|pt pts]; [discriminate|].
  rewrite Hrows in H. unfold filter_rows in H. cbn [columns rows] in H.
  rewrite filter_not_header in H.
  set (kept := List.filter date_found (candidate_rows tables)) in *.
  rewrite (get_column_canonical kept "Transaction Date" 0%nat eq_refl) in H. cbn [bind] in H.
  apply bind_Ok in H as (dates & Hdates & H).
  destruct (assign_dates kept dates) as [Hparse Hzip]; [|done|].
  { apply Forall_forall. intros r Hr.
    by apply list_elem_of_In, filter_In in Hr as [_ Hr]. }
  unfold set_column in H at 1. cbn [columns rows] in H.
  change (column_index "Transaction Date" canonical_columns) with (Some 0%nat) in H.
  cbn iota in H. rewrite Hzip in H.
  unfold sort_values in H.
  rewrite (get_column_canonical _ "Transaction Date" 0%nat eq_refl) in H. cbn [bind] in H.
  rewrite map_map, mapM_map in H.
  rewrite (mapM_total _ (fun r => row_date (dated_row r))) in H.
  2:{ eapply Forall_impl; [exact Hparse|]. intros r (s & d & Hs & Hd).
      destruct (row_date_dated_row r s d Hs Hd) as [-> ->]. done. }
  cbn [bind columns rows] in H.
  rewrite (clean_monetary_canonical _ "Money Out" 3%nat eq_refl) in H. cbn [bind] in H.
  rewrite (clean_monetary_canonical _ "Money In" 4%nat eq_refl) in H. cbn [bind] in H.
  rewrite (clean_monetary_canonical _ "Ledger Balance" 5%nat eq_refl) in H. cbn [bind] in H.
  injection H as <-. split; [done|].
  by rewrite !map_map.
Qed.

Lemma cell_at_clean_cell_at_ne (i j : nat) (r : Row) :
  i ≠ j -> cell_at j (clean_cell_at i r) = cell_at j r.
Proof. intros H. unfold clean_cell_at. by apply cell_at_insert_ne. Qed.

Lemma length_clean_row (r : Row) : length (clean_row r) = length r.
Proof. unfold clean_row, clean_cell_at. by rewrite !length_insert. Qed.

Lemma cell_at_0_clean_row (r : Row) : cell_at 0 (clean_row r) = cell_at 0 r.
Proof. unfold clean_row. by rewrite !cell_at_clean_cell_at_ne by lia. Qed.

Lemma row_date_clean_row (r : Row) : row_date (clean_row r) = row_date r.
Proof. unfold row_date. by rewrite cell_at_0_clean_row. Qed.

Lemma has_date_clean_row (d : Date) (r : Row) :
  has_date d (clean_row r) = has_date d r.
Proof. unfold has_date. by rewrite row_date_clean_row. Qed.

Lemma is_float_to_numeric_coerce (c : cell) : is_float_cell (to_numeric_coerce c) = true.
Proof. destruct c as [|s| |]; cbn; try done. by destruct (parse_decimal s). Qed.

Lemma is_float_clean_cell_at (i : nat) (r : Row) :
  is_float_cell (cell_at i (clean_cell_at i r)) = true.
Proof.
  unfold clean_cell_at.
  destruct (decide (i < length r)%nat).
  - rewrite cell_at_insert by done. apply is_float_to_numeric_coerce.
  - rewrite cell_at_short; [done|]. rewrite length_insert. lia.
Qed.

Lemma is_float_clean_row (r : Row) :
  is_float_cell (cell_at 3 (clean_row r)) = true
  /\ is_float_cell (cell_at 4 (clean_row r)) = true
  /\ is_float_cell (cell_at 5 (clean_row r)) = true.
Proof.
  unfold clean_row. repeat split.
  - rewrite !(cell_at_clean_cell_at_ne _ 3) by lia. apply is_float_clean_cell_at.
  - rewrite !(cell_at_clean_cell_at_ne 5 4) by lia. apply is_float_clean_cell_at.
  - apply is_float_clean_cell_at.
Qed.

Lemma ledger_row_parses (r : Row) :
  parses r -> ledger_row r = Ok (clean_row (dated_row r)).
Proof.
  intros (s & d & Hs & Hd). unfold ledger_row, dated_row, cell_at.
  rewrite Hs. cbn. by rewrite Hd.
Qed.

Lemma parses_strict (r : Row) : parses r -> date_strict r = true.
Proof.
  intros (s & d & Hs & Hd). unfold date_strict, cell_at. rewrite Hs. cbn.
  by apply strptime_dmY_full in Hd as [? _].
Qed.

(** What a ledger returned by [process_pdf] consists of. *)
Lemma process_pdf_rows (tables : list RawTable) (df : DataFrame) :
  process_pdf tables = Ok (Some df) ->
  let kept := List.filter date_strict (candidate_rows tables) in
  Forall parses kept
  /\ List.filter date_found (candidate_rows tables) = kept
  /\ columns df = canonical_columns
  /\ mapM ledger_row kept = Ok (map (fun r => clean_row (dated_row r)) kept)
  /\ rows df ≡ₚ map (fun r => clean_row (dated_row r)) kept
  /\ StronglySorted row_not_after (rows df)
  /\ ((length kept <= 16)%nat -> forall d,
        List.filter (has_date d) (rows df)
        = List.filter (has_date d) (map (fun r => clean_row (dated_row r)) kept)).
Proof.
  intros H. apply process_pdf_Some in H as [Hparse ->]. cbv zeta.
  assert (Hkept : List.filter date_found (candidate_rows tables)
                  = List.filter date_strict (candidate_rows tables)).
  { apply List.filter_ext_in. intros r Hr.
    destruct (date_found r) eqn:Hf.
    - symmetry. apply parses_strict.
      rewrite Forall_forall in Hparse. apply Hparse.
      apply list_elem_of_In, filter_In. by split.
    - destruct (date_strict r) eqn:Hs; [|done].
      apply date_strict_found in Hs. congruence. }
  rewrite Hkept in *.
  set (kept := List.filter date_strict (candidate_rows tables)) in *.
  destruct (take_rows_nargsort (map dated_row kept)
              (map (fun r => row_date (dated_row r)) kept))
    as (Hperm & Hsorted & Hstable).
  { apply Forall2_fmap. apply Forall_Forall2_diag.
    eapply Forall_impl; [exact Hparse|]. intros r (s & d & Hs & Hd).
    destruct (row_date_dated_row r s d Hs Hd) as [_ ->]. eauto. }
  cbn [columns rows].
  split; [done|]. split; [done|]. split; [done|]. split; [|split; [|split]].
  - apply mapM_total. eapply Forall_impl; [exact Hparse|].
    intros r. apply ledger_row_parses.
  - rewrite <- (map_map dated_row clean_row). by apply Permutation_map.
  - eapply StronglySorted_map_in; [|exact Hsorted].
    intros x y _ _ (d1 & d2 & H1 & H2 & Hle).
    exists d1, d2. by rewrite !row_date_clean_row.
  - intros Hlen d.
    rewrite (filter_map_in _ (has_date d)).
    2:{ apply Forall_forall. intros r _. apply has_date_clean_row. }
    rewrite Hstable by (rewrite length_map; done).
    rewrite <- (filter_map_in (has_date d)).
    2:{ apply Forall_forall. intros r _. apply has_date_clean_row. }
    by rewrite map_map.
Qed.

(** ** Ledgers *)

Lemma process_pdf_widths (tables : list RawTable) (r : option DataFrame) :
  process_pdf tables = Ok r ->
  Forall (fun t => (6 <= width t)%nat -> width t = 7%nat) tables.
Proof.
  unfold process_pdf. intros H. apply bind_Ok in H as (pts & Hpts & _).
  by apply process_tables_Ok in Hpts as (_ & _ & ?).
Qed.

Lemma candidate_rows_length (tables : list RawTable) (r : Row) :
  rectangular tables ->
  Forall (fun t => (6 <= width t)%nat -> width t = 7%nat) tables ->
  r ∈ candidate_rows tables -> length r = 7%nat.
Proof.
  unfold rectangular, candidate_rows. intros Hrect Hw Hr.
  apply list_elem_of_In, in_concat in Hr as (b & Hb & Hr).
  apply in_map_iff in Hb as (t & <- & Ht).
  apply filter_In in Ht as [Ht H6]. apply Nat.leb_le in H6.
  apply list_elem_of_In in Ht.
  rewrite Forall_forall in Hrect, Hw.
  specialize (Hrect t Ht). rewrite Forall_forall in Hrect.
  rewrite (Hrect r) by (by apply list_elem_of_In). by apply Hw.
Qed.

Lemma length_dated_row (r : Row) : length (dated_row r) = length r.
Proof.
  unfold dated_row. destruct (to_datetime_format _); [|done].
  by rewrite length_insert.
Qed.

Lemma is_ledger_row_clean (r : Row) :
  parses r -> length r = 7%nat -> is_ledger_row (clean_row (dated_row r)) = true.
Proof.
  intros (s & d & Hs & Hd) Hlen. unfold is_ledger_row.
  destruct (row_date_dated_row r s d Hs Hd) as [Hcell _].
  destruct (is_float_clean_row (dated_row r)) as (H3 & H4 & H5).
  rewrite length_clean_row, length_dated_row, Hlen, cell_at_0_clean_row, Hcell.
  by rewrite H3, H4, H5.
Qed.

Lemma process_pdf_is_ledger (tables : list RawTable) (df : DataFrame) :
  rectangular tables -> process_pdf tables = Ok (Some df) -> is_ledger df.
Proof.
  intros Hrect H. pose proof (process_pdf_widths _ _ H) as Hw.
  apply process_pdf_rows in H as (Hparse & _ & Hcols & _ & Hperm & _).
  split; [done|]. apply forallb_forall. intros r' Hr'.
  apply list_elem_of_In in Hr'. rewrite Hperm in Hr'.
  apply list_elem_of_fmap in Hr' as (r & -> & Hr).
  rewrite Forall_forall in Hparse.
  apply is_ledger_row_clean; [by apply Hparse|].
  apply (candidate_rows_length tables); [done|done|].
  apply list_elem_of_In, filter_In in Hr as [Hr _]. by apply list_elem_of_In.
Qed.

Lemma is_ledger_row_inv (r : Row) :
  is_ledger_row r = true ->
  length r = 7%nat
  /\ (exists d, r !! 0%nat = Some (Dt d) /\ cell_at 0 r = Dt d /\ row_date r = Some d)
  /\ as_float (cell_at 3 r) = Ok (float_of (cell_at 3 r))
  /\ as_float (cell_at 4 r) = Ok (float_of (cell_at 4 r))
  /\ as_float (cell_at 5 r) = Ok (float_of (cell_at 5 r)).
Proof.
  unfold is_ledger_row. rewrite !andb_true_iff.
  intros [[[[Hlen H0] H3] H4] H5]. apply Nat.eqb_eq in Hlen.
  split; [done|]. split.
  - unfold row_date, cell_at in *.
    destruct (r !! 0%nat) as [[| | |d]|]; try discriminate. eauto.
  - repeat split.
    + by destruct (cell_at 3 r).
    + by destruct (cell_at 4 r).
    + by destruct (cell_at 5 r).
Qed.

Lemma is_ledger_inv (df : DataFrame) :
  is_ledger df ->
  exists rs, df = mkFrame canonical_columns rs
             /\ Forall (fun r => is_ledger_row r = true) rs.
Proof.
  destruct df as [cols rs]. intros [Hcols Hrows]. cbn in *. subst.
  exists rs. split; [done|]. apply Forall_forall. intros r Hr.
  rewrite forallb_forall in Hrows. by apply Hrows, list_elem_of_In.
Qed.

(** ** The aggregations on a ledger *)

Lemma ledger_dates (rs : list Row) :
  Forall (fun r => is_ledger_row r = true) rs ->
  to_datetime (map (cell_at 0) rs) = Ok (map row_date rs).
Proof.
  intros H. unfold to_datetime. rewrite mapM_map. apply mapM_total.
  eapply Forall_impl; [exact H|]. intros r Hr.
  apply is_ledger_row_inv in Hr as (_ & (d & _ & -> & ->) & _). done.
Qed.

Lemma ledger_floats (rs : list Row) (i : nat) :
  Forall (fun r => as_float (cell_at i r) = Ok (float_of (cell_at i r))) rs ->
  mapM as_float (map (cell_at i) rs) = Ok (map (fun r => float_of (cell_at i r)) rs).
Proof. intros H. rewrite mapM_map. by apply mapM_total. Qed.

Lemma ledger_set_dates (rs : list Row) :
  Forall (fun r => is_ledger_row r = true) rs ->
  set_column (mkFrame canonical_columns rs) "Transaction Date"
             (map of_datetime (map row_date rs))
  = mkFrame canonical_columns rs.
Proof.
  intros H. rewrite map_map.
  rewrite (set_column_canonical rs "Transaction Date" 0%nat _ eq_refl).
  f_equal. rewrite <- (map_id rs) at 2. apply map_ext_Forall.
  eapply Forall_impl; [exact H|]. intros r Hr.
  apply is_ledger_row_inv in Hr as (_ & (d & Hd & _ & ->) & _). cbn.
  by apply list_insert_id.
Qed.

Lemma ledger_money (rs : list Row) :
  Forall (fun r => is_ledger_row r = true) rs ->
  float_column (mkFrame canonical_columns rs) "Money In"
  = Ok (map (fun r => float_of (cell_at 4 r)) rs)
  /\ float_column (mkFrame canonical_columns rs) "Money Out"
     = Ok (map (fun r => float_of (cell_at 3 r)) rs).
Proof.
  intros H. unfold float_column.
  rewrite (get_column_canonical rs "Money In" 4%nat eq_refl).
  rewrite (get_column_canonical rs "Money Out" 3%nat eq_refl). cbn [bind].
  split; apply ledger_floats; (eapply Forall_impl; [exact H|]); intros r Hr;
    by apply is_ledger_row_inv in Hr as (_ & _ & ? & ? & ?).
Qed.

(** The daily rows of a ledger. *)
Lemma create_daily_totals_ledger (df : DataFrame) :
  is_ledger df ->
  exists daily_totals, create_daily_totals df = Ok (df, daily_totals).
Proof.
  intros (rs & -> & Hrows)%is_ledger_inv. unfold create_daily_totals.
  rewrite (get_column_canonical rs "Transaction Date" 0%nat eq_refl). cbn [bind].
  rewrite (ledger_dates rs Hrows). cbn [bind].
  rewrite (ledger_set_dates rs Hrows).
  destruct (ledger_money rs Hrows) as [-> ->]. cbn [bind].
  rewrite (get_column_canonical rs "Transaction Details" 2%nat eq_refl).
  cbn [bind]. eauto.
Qed.

Lemma cell_at_app_l (i : nat) (r : Row) (v : cell) :
  (i < length r)%nat -> cell_at i (r ++ [v]) = cell_at i r.
Proof. intros H. unfold cell_at. by rewrite lookup_app_l. Qed.

Lemma cell_at_app_last (r : Row) (v : cell) : cell_at (length r) (r ++ [v]) = v.
Proof. unfold cell_at. by rewrite list_lookup_middle. Qed.

Lemma get_column_with_month (rs : list Row) (g : Row -> cell) (name : string)
      (i : nat) :
  column_index name (canonical_columns ++ ["Month"]) = Some i ->
  (i < 7)%nat ->
  Forall (fun r => is_ledger_row r = true) rs ->
  get_column (mkFrame (canonical_columns ++ ["Month"])
                      (map (fun r => r ++ [g r]) rs)) name
  = Ok (map (cell_at i) rs).
Proof.
  intros Hi Hlt H. unfold get_column. cbn [columns rows]. rewrite Hi.
  rewrite map_map. f_equal. apply map_ext_Forall.
  eapply Forall_impl; [exact H|]. intros r Hr.
  apply is_ledger_row_inv in Hr as (Hlen & _).
  apply cell_at_app_l. lia.
Qed.

Lemma get_column_month (rs : list Row) (g : Row -> cell) :
  Forall (fun r => is_ledger_row r = true) rs ->
  get_column (mkFrame (canonical_columns ++ ["Month"])
                      (map (fun r => r ++ [g r]) rs)) "Month"
  = Ok (map g rs).
Proof.
  intros H. unfold get_column. cbn [columns rows].
  change (column_index "Month" (canonical_columns ++ ["Month"])) with (Some 7%nat).
  cbn iota. rewrite map_map. f_equal. apply map_ext_Forall.
  eapply Forall_impl; [exact H|]. intros r Hr.
  apply is_ledger_row_inv in Hr as (Hlen & _).
  rewrite <- Hlen. apply cell_at_app_last.
Qed.

Lemma as_label_month_label (r : Row) :
  as_label (month_label r) = option_map strftime_B_Y (row_date r).
Proof. unfold month_label. by destruct (row_date r). Qed.

(** The monthly table of a ledger, and the frame after the call. *)
Lemma create_monthly_totals_ledger (df : DataFrame) :
  is_ledger df ->
  create_monthly_totals df
  = Ok (with_month df,
        monthly_rows (ledger_monthly_groups (rows df))
          ++ [grand_totals (monthly_rows (ledger_monthly_groups (rows df)))]).
Proof.
  intros (rs & -> & Hrows)%is_ledger_inv. unfold create_monthly_totals.
  rewrite (get_column_canonical rs "Transaction Date" 0%nat eq_refl). cbn [bind].
  rewrite (ledger_dates rs Hrows). cbn [bind].
  rewrite (ledger_set_dates rs Hrows).
  assert (Hset : set_column (mkFrame canonical_columns rs) "Month"
                   (map (dt_strftime strftime_B_Y) (map row_date rs))
                 = with_month (mkFrame canonical_columns rs)).
  { unfold set_column, with_month. cbn [columns rows].
    change (column_index "Month" canonical_columns) with (@None nat). cbn iota.
    by rewrite map_map, zip_with_rows_map. }
  rewrite Hset. unfold with_month. cbn [columns rows].
  rewrite (get_column_month rs _ Hrows). cbn [bind].
  unfold float_column.
  rewrite (get_column_with_month rs _ "Money In" 4%nat eq_refl ltac:(lia) Hrows).
  cbn [bind]. rewrite ledger_floats.
  2:{ eapply Forall_impl; [exact Hrows|]. intros r Hr.
      by apply is_ledger_row_inv in Hr as (_ & _ & ? & ? & ?). }
  cbn [bind].
  rewrite (get_column_with_month rs _ "Money Out" 3%nat eq_refl ltac:(lia) Hrows).
  cbn [bind]. rewrite ledger_floats.
  2:{ eapply Forall_impl; [exact Hrows|]. intros r Hr.
      by apply is_ledger_row_inv in Hr as (_ & _ & ? & ? & ?). }
  cbn [bind].
  rewrite (get_column_with_month rs _ "Transaction Details" 2%nat eq_refl
             ltac:(lia) Hrows).
  cbn [bind]. unfold ledger_monthly_groups.
  rewrite map_map.
  by rewrite (map_ext _ _ as_label_month_label).
Qed.

(** ** The derived columns of the monthly table *)

Lemma create_monthly_totals_Ok (df df' : DataFrame) (mt : list MonthlyTotal) :
  create_monthly_totals df = Ok (df', mt) ->
  exists groups,
    mt = monthly_rows groups ++ [grand_totals (monthly_rows groups)].
Proof.
  unfold create_monthly_totals. intros H.
  apply bind_Ok in H as (? & _ & H). apply bind_Ok in H as (? & _ & H).
  apply bind_Ok in H as (? & _ & H). apply bind_Ok in H as (? & _ & H).
  apply bind_Ok in H as (? & _ & H). apply bind_Ok in H as (? & _ & H).
  injection H as _ <-. eauto.
Qed.

Lemma length_monthly_rows (groups : list (string * Q * Q * nat)) :
  length (monthly_rows groups) = length groups.
Proof. unfold monthly_rows. by rewrite length_imap. Qed.

Lemma map_imap_const {A B C} (f : nat -> A -> B) (P : B -> C) (g : A -> C)
      (l : list A) :
  (forall i x, P (f i x) = g x) -> map P (imap f l) = map g l.
Proof.
  intros H. revert f H. induction l as [|x l IH]; intros f H; cbn; [done|].
  rewrite H. f_equal. apply IH. intros i y. apply H.
Qed.

Lemma monthly_rows_columns (groups : list (string * Q * Q * nat)) :
  map Money_In (monthly_rows groups) = map group_in groups
  /\ map Money_Out (monthly_rows groups) = map group_out groups
  /\ map Transaction_Details (monthly_rows groups) = map group_count groups
  /\ map Monthly_Net_Movement (monthly_rows groups)
     = map (fun g => fadd (group_in g) (group_out g)) groups.
Proof. unfold monthly_rows. repeat split; by apply map_imap_const. Qed.

Lemma lookup_monthly_rows (groups : list (string * Q * Q * nat)) (i : nat)
      (m : MonthlyTotal) :
  monthly_rows groups !! i = Some m ->
  exists g, groups !! i = Some g
    /\ Money_In m = group_in g /\ Money_Out m = group_out g
    /\ Transaction_Details m = group_count g
    /\ Money_In_Growth m
       = default NotANumber
           (map times_100 (pct_change (map group_in groups)) !! i)
    /\ Money_Out_Growth m
       = default NotANumber
           (map times_100 (pct_change (map group_out groups)) !! i)
    /\ Transaction_Count_Growth m
       = default NotANumber
           (map times_100
              (pct_change (map Qnat (map group_count groups))) !! i)
    /\ Running_Total_In m = default 0%Q (cumsum (map group_in groups) !! i)
    /\ Running_Total_Out m = default 0%Q (cumsum (map group_out groups) !! i)
    /\ Running_Net_Movement m
       = fadd (default 0%Q (cumsum (map group_in groups) !! i))
              (default 0%Q (cumsum (map group_out groups) !! i)).
Proof.
  unfold monthly_rows. rewrite list_lookup_imap.
  destruct (groups !! i) as [g|]; [|discriminate].
  intros [= <-]. exists g. cbn. repeat split; done.
Qed.

Lemma pct_change_from_lookup (first : Q) (l : list Q) (i : nat) (prev cur : Q) :
  (first :: l) !! i = Some prev -> l !! i = Some cur ->
  pct_change_from first l !! i = Some (minus_one (fdiv cur prev)).
Proof.
  revert first i. induction l as [|x l IH]; intros first i Hprev Hcur; [done|].
  destruct i as [|i]; cbn in *.
  - by simplify_eq.
  - by apply IH.
Qed.

Lemma pct_change_next (l : list Q) (i : nat) (prev cur : Q) :
  l !! i = Some prev -> l !! S i = Some cur ->
  pct_change l !! S i = Some (minus_one (fdiv cur prev)).
Proof.
  destruct l as [|first l]; [done|]. cbn [pct_change]. intros Hprev Hcur.
  cbn in Hcur |- *. by apply pct_change_from_lookup.
Qed.

Lemma growth_percent_eq (prev cur : Q) :
  times_100 (minus_one (fdiv cur prev)) = growth_percent prev cur.
Proof.
  unfold fdiv, growth_percent.
  destruct (Qeq_bool prev 0); [by destruct (cur ?= 0)%Q|].
  destruct (finite_or_inf (round53 (cur / prev))) as [quotient| | |];
    cbn [minus_one times_100]; try done.
  by destruct (finite_or_inf (fsub quotient 1)).
Qed.

Lemma cumsum_from_lookup (acc : Q) (l : list Q) (i : nat) (x : Q) :
  cumsum_from acc l !! i = Some x -> x = add_from_left acc (take (S i) l).
Proof.
  revert acc i. induction l as [|y l IH]; intros acc i; [done|].
  destruct i as [|i]; cbn [cumsum_from].
  - intros [= <-]. by rewrite firstn_cons, take_0.
  - intros H. apply IH in H. by rewrite H, (firstn_cons (S i)).
Qed.

Lemma length_cumsum_from (acc : Q) (l : list Q) :
  length (cumsum_from acc l) = length l.
Proof. revert acc. induction l as [|y l IH]; intros acc; cbn; [done|]. by rewrite IH. Qed.

Lemma cumsum_lookup (l : list Q) (i : nat) :
  (i < length l)%nat ->
  cumsum l !! i = Some (add_from_left 0%Q (take (S i) l)).
Proof.
  intros Hi. unfold cumsum.
  destruct (lookup_lt_is_Some_2 (cumsum_from 0 l) i) as [x Hx].
  { by rewrite length_cumsum_from. }
  rewrite Hx. f_equal. by apply cumsum_from_lookup.
Qed.

(** The sum of a column of fewer than eight numbers is taken from the
    left, as its cumulative sums are. *)
Lemma Qsum_short (l : list Q) :
  (length l < 8)%nat -> Qsum l = add_from_left 0%Q l.
Proof.
  intros Hlen. unfold Qsum, pairwise_sum. cbn [pairwise_sum_fuel].
  by apply Nat.ltb_lt in Hlen as ->.
Qed.

(** The last running total of fewer than eight rows is the sum of the
    column. *)
Lemma cumsum_last (l : list Q) (i : nat) :
  S i = length l -> (length l < 8)%nat -> default 0%Q (cumsum l !! i) = Qsum l.
Proof.
  intros Hi Hlen. rewrite cumsum_lookup by lia. cbn [default from_option id].
  by rewrite take_ge, Qsum_short by lia.
Qed.



(** ** The run of the normaliser *)

Lemma process_tables_completes (tables : list RawTable) :
  loop_completes tables ->
  process_tables tables
  = Ok (map (fun t => List.filter date_found (body t))
            (List.filter (fun t => (6 <=? width t)%nat) tables)).
Proof.
  induction 1 as [|t tables Ht _ IH]; [done|].
  cbn [process_tables List.filter]. rewrite IH. unfold process_table.
  destruct (Nat.leb_spec 6 (width t)) as [H6|H6]; [|done].
  destruct (Ht H6) as [-> ->]. cbn. by rewrite filter_filter.
Qed.

Lemma candidate_rows_kept (tables : list RawTable) :
  concat (map (fun t => List.filter date_found (body t))
              (List.filter (fun t => (6 <=? width t)%nat) tables))
  = List.filter date_found (candidate_rows tables).
Proof. unfold candidate_rows. by rewrite filter_concat, map_map. Qed.

(** The parsing of the dates of the kept rows: it goes through when each
    of them parses, and raises otherwise. *)
Lemma to_datetime_kept (kept : list Row) :
  Forall (fun r => date_found r = true) kept ->
  (Forall parses kept
   /\ mapM to_datetime_format (map (cell_at 0) kept)
      = Ok (map (fun r => cell_at 0 (dated_row r)) kept))
  \/ (Exists (fun r => ~ parses r) kept
      /\ mapM to_datetime_format (map (cell_at 0) kept)
         = Raise ValueError_time_data).
Proof.
  induction 1 as [|r kept Hr _ IH]; [by left|].
  apply date_found_Str in Hr as (s & Hs & _).
  cbn [map mapM].
  assert (Hcell : cell_at 0 r = Str s) by (unfold cell_at; by rewrite Hs).
  rewrite Hcell. cbn [to_datetime_format].
  destruct (strptime_dmY s) as [d|] eqn:Hd.
  - destruct (row_date_dated_row r s d Hs Hd) as [Hdated _].
    cbn [bind]. destruct IH as [[Hall ->]|[Hex ->]].
    + left. split; [constructor; [by exists s, d|done]|].
      cbn [bind]. by rewrite Hdated.
    + right. split; [by right|done].
  - right. split; [|done]. left.
    intros (s' & d & Hs' & Hd'). congruence.
Qed.

(** The run of [process_pdf] once the loop has run to its end. *)
Lemma process_pdf_run (tables : list RawTable) :
  loop_completes tables ->
  Exists (fun t => (6 <= width t)%nat) tables ->
  let kept := List.filter date_found (candidate_rows tables) in
  (Forall parses kept
   /\ process_pdf tables
      = Ok (Some (mkFrame canonical_columns
                    (map clean_row
                       (take_rows
                          (nargsort (map (fun r => row_date (dated_row r)) kept))
                          (map dated_row kept))))))
  \/ (Exists (fun r => ~ parses r) kept
      /\ process_pdf tables = Raise ValueError_time_data).
Proof.
  intros Hloop Hsome. cbv zeta.
  unfold process_pdf. rewrite (process_tables_completes tables Hloop).
  cbn [bind].
  pose proof (candidate_rows_kept tables) as Hconcat.
  destruct (List.filter (fun t => (6 <=? width t)%nat) tables)
    as [|t ts] eqn:Hpassed.
  { exfalso. apply Exists_exists in Hsome as (t & Ht & H6).
    assert (Hin : In t (List.filter (fun t => (6 <=? width t)%nat) tables)).
    { apply filter_In. split; [by apply list_elem_of_In|by apply Nat.leb_le]. }
    by rewrite Hpassed in Hin. }
  cbn [map] in *. rewrite Hconcat.
  unfold filter_rows. cbn [columns rows].
  rewrite filter_not_header.
  set (kept := List.filter date_found (candidate_rows tables)).
  rewrite (get_column_canonical kept "Transaction Date" 0%nat eq_refl).
  cbn [bind].
  destruct (to_datetime_kept kept) as [[Hparse ->]|[Hex ->]].
  { apply Forall_forall. intros r Hr.
    by apply list_elem_of_In, filter_In in Hr as [_ Hr]. }
  2:{ right. split; [done|reflexivity]. }
  left. split; [done|]. cbn [bind].
  assert (Hset : set_column (mkFrame canonical_columns kept) "Transaction Date"
                   (map (fun r => cell_at 0 (dated_row r)) kept)
                 = mkFrame canonical_columns (map dated_row kept)).
  { rewrite (set_column_canonical kept "Transaction Date" 0%nat _ eq_refl).
    f_equal. apply map_ext_Forall. eapply Forall_impl; [exact Hparse|].
    intros r (s & d & Hs & Hd).
    destruct (row_date_dated_row r s d Hs Hd) as [-> _].
    assert (Hfmt : to_datetime_format (cell_at 0 r) = Ok (Dt d)).
    { unfold cell_at. rewrite Hs. cbn. by rewrite Hd. }
    unfold dated_row. by rewrite Hfmt. }
  rewrite Hset. unfold sort_values.
  rewrite (get_column_canonical _ "Transaction Date" 0%nat eq_refl). cbn [bind].
  rewrite map_map, mapM_map.
  rewrite (mapM_total _ (fun r => row_date (dated_row r))).
  2:{ eapply Forall_impl; [exact Hparse|]. intros r (s & d & Hs & Hd).
      destruct (row_date_dated_row r s d Hs Hd) as [-> ->]. done. }
  cbn [bind columns rows].
  rewrite (clean_monetary_canonical _ "Money Out" 3%nat eq_refl). cbn [bind].
  rewrite (clean_monetary_canonical _ "Money In" 4%nat eq_refl). cbn [bind].
  rewrite (clean_monetary_canonical _ "Ledger Balance" 5%nat eq_refl).
  cbn [bind]. by rewrite !map_map.
Qed.

(** * Properties of [groupby] *)

(** ** The groups of [groupby] *)

Section GroupByFacts.
Context {K : Type} (key_eqb key_ltb : K -> K -> bool).
Hypothesis key_eqb_eq : forall a b, key_eqb a b = true <-> a = b.
Hypothesis key_ltb_irrefl : forall a, key_ltb a a = false.
Hypothesis key_ltb_trans :
  forall a b c, key_ltb a b = true -> key_ltb b c = true -> key_ltb a c = true.
Hypothesis key_ltb_total :
  forall a b, key_eqb a b = false -> key_ltb a b = false -> key_ltb b a = true.

Lemma elem_of_insert_key (x k : K) (ks : list K) :
  x ∈ insert_key key_eqb key_ltb k ks <-> x = k \/ x ∈ ks.
Proof.
  induction ks as [|k' ks IH]; simpl.
  - rewrite list_elem_of_singleton, elem_of_nil. tauto.
  - destruct (key_eqb k k') eqn:E.
    + apply key_eqb_eq in E as ->. rewrite elem_of_cons. tauto.
    + destruct (key_ltb k k'); rewrite !elem_of_cons; [tauto|].
      rewrite IH. tauto.
Qed.

Lemma insert_key_sorted (k : K) (ks : list K) :
  StronglySorted (fun a b => key_ltb a b = true) ks ->
  StronglySorted (fun a b => key_ltb a b = true) (insert_key key_eqb key_ltb k ks).
Proof.
  induction 1 as [|k' ks Hs IH Hall]; simpl.
  - repeat constructor.
  - destruct (key_eqb k k') eqn:E; [by constructor|].
    destruct (key_ltb k k') eqn:L.
    + constructor; [by constructor|].
      constructor; [done|].
      eapply Forall_impl; [exact Hall|]. intros y Hy. by eapply key_ltb_trans.
    + constructor; [done|].
      apply Forall_forall. intros y Hy.
      apply elem_of_insert_key in Hy as [->|Hy].
      * by apply key_ltb_total.
      * by eapply Forall_forall in Hall.
Qed.

Lemma group_keys_sorted (keys : list K) :
  StronglySorted (fun a b => key_ltb a b = true)
                 (group_keys key_eqb key_ltb keys).
Proof.
  induction keys as [|k keys IH]; simpl; [constructor|].
  by apply insert_key_sorted.
Qed.

Lemma elem_of_group_keys (x : K) (keys : list K) :
  x ∈ group_keys key_eqb key_ltb keys <-> x ∈ keys.
Proof.
  induction keys as [|k keys IH]; simpl; [done|].
  rewrite elem_of_insert_key, IH, elem_of_cons. tauto.
Qed.

Lemma sorted_NoDup (ks : list K) :
  StronglySorted (fun a b => key_ltb a b = true) ks -> NoDup ks.
Proof.
  induction 1 as [|k ks Hs IH Hall]; constructor; [|done].
  intros Hin. eapply Forall_forall in Hall; [|exact Hin].
  by rewrite key_ltb_irrefl in Hall.
Qed.

(** The groups split the rows: every row with a key is in the group of its
    key and in no other. *)
Lemma group_values_one {V} (k0 : K) (v : V) (keys : list (option K))
      (vs : list V) (ks : list K) :
  NoDup ks -> k0 ∈ ks ->
  concat (map (fun k => group_values key_eqb k (Some k0 :: keys) (v :: vs)) ks)
  ≡ₚ v :: concat (map (fun k => group_values key_eqb k keys vs) ks).
Proof.
  induction 1 as [|k ks Hk Hnd IH]; [by intros ?%elem_of_nil|].
  intros Hin. cbn [map concat].
  change (group_values key_eqb k (Some k0 :: keys) (v :: vs))
    with (if key_eqb k k0 then v :: group_values key_eqb k keys vs
          else group_values key_eqb k keys vs).
  destruct (key_eqb k k0) eqn:E.
  - apply key_eqb_eq in E as ->. cbn [app].
    assert (map (fun k => group_values key_eqb k (Some k0 :: keys) (v :: vs)) ks
            = map (fun k => group_values key_eqb k keys vs) ks) as ->; [|done].
    apply map_ext_in. intros k Hin'%list_elem_of_In.
    cbn [group_values].
    destruct (key_eqb k k0) eqn:E'; [|done].
    apply key_eqb_eq in E' as ->. done.
  - apply elem_of_cons in Hin as [->|Hin].
    + assert (key_eqb k k = true) as E' by by apply key_eqb_eq. congruence.
    + etrans; [apply Permutation_app_head, IH, Hin|].
      by rewrite Permutation_middle.
Qed.

Lemma group_values_split {V} (keys : list (option K)) (vs : list V)
      (ks : list K) :
  NoDup ks -> length keys = length vs ->
  Forall (fun k => exists k', k = Some k' /\ k' ∈ ks) keys ->
  concat (map (fun k => group_values key_eqb k keys vs) ks) ≡ₚ vs.
Proof.
  intros Hnd. revert vs.
  induction keys as [|k keys IH]; intros [|v vs] Hlen Hall; try done.
  - clear. induction ks; simpl; done.
  - apply Forall_cons in Hall as [(k' & -> & Hin) Hall].
    etrans; [by apply group_values_one|].
    f_equiv. apply IH; [by injection Hlen|done].
Qed.

End GroupByFacts.

(** ** The order of labels and of dates *)

Lemma ascii_compare_Lt_trans (a b c : ascii) :
  Ascii.compare a b = Lt -> Ascii.compare b c = Lt -> Ascii.compare a c = Lt.
Proof.
  unfold Ascii.compare. rewrite !N.compare_lt_iff. lia.
Qed.

Lemma string_compare_Lt_trans (a b c : string) :
  String.compare a b = Lt -> String.compare b c = Lt -> String.compare a c = Lt.
Proof.
  revert b c. induction a as [|x a IH]; intros [|y b] [|z c]; cbn; try done.
  destruct (Ascii.compare x y) eqn:Exy; try done.
  - apply Ascii.compare_eq_iff in Exy as ->.
    destruct (Ascii.compare y z) eqn:Eyz; try done. apply IH.
  - destruct (Ascii.compare y z) eqn:Eyz; try done.
    + apply Ascii.compare_eq_iff in Eyz as ->. by rewrite Exy.
    + by rewrite (ascii_compare_Lt_trans x y z).
Qed.

Lemma string_ltb_trans (a b c : string) :
  String.ltb a b = true -> String.ltb b c = true -> String.ltb a c = true.
Proof.
  unfold String.ltb.
  destruct (String.compare a b) eqn:Eab; try done.
  destruct (String.compare b c) eqn:Ebc; try done.
  by rewrite (string_compare_Lt_trans a b c).
Qed.

Lemma string_compare_refl (a : string) : String.compare a a = Eq.
Proof.
  induction a as [|x a IH]; cbn; [done|].
  assert (Ascii.compare x x = Eq) as ->; [|done].
  unfold Ascii.compare. apply N.compare_refl.
Qed.

Lemma string_ltb_irrefl (a : string) : String.ltb a a = false.
Proof. unfold String.ltb. by rewrite string_compare_refl. Qed.

Lemma string_ltb_total (a b : string) :
  String.eqb a b = false -> String.ltb a b = false -> String.ltb b a = true.
Proof.
  unfold String.ltb. intros Hne. rewrite (String.compare_antisym a b).
  destruct (String.compare b a) eqn:E; cbn; try done.
  apply String.compare_eq_iff in E as ->. by rewrite String.eqb_refl in Hne.
Qed.

Lemma string_eqb_eq (a b : string) : String.eqb a b = true <-> a = b.
Proof. apply String.eqb_eq. Qed.

Lemma date_ltb_trans (a b c : Date) :
  date_ltb a b = true -> date_ltb b c = true -> date_ltb a c = true.
Proof. rewrite !date_ltb_lt. lia. Qed.

Lemma date_ltb_total (a b : Date) :
  date_eqb a b = false -> date_ltb a b = false -> date_ltb b a = true.
Proof.
  intros Hne Hlt. apply date_ltb_lt.
  assert (~ a = b) as Hne' by (rewrite <- date_eqb_eq; congruence).
  assert (~ date_ltb a b = true) as Hlt' by congruence.
  rewrite date_ltb_lt in Hlt'.
  destruct a as [ya ma da], b as [yb mb db]; cbn in *.
  assert (~ (ya = yb /\ ma = mb /\ da = db)) by (intros (-> & -> & ->); done).
  lia.
Qed.

(** ** Counts over groups *)

Lemma count_notna_app (l1 l2 : list cell) :
  count_notna (l1 ++ l2) = (count_notna l1 + count_notna l2)%nat.
Proof. unfold count_notna. by rewrite List.filter_app, length_app. Qed.

Lemma count_notna_Permutation (l1 l2 : list cell) :
  l1 ≡ₚ l2 -> count_notna l1 = count_notna l2.
Proof.
  induction 1 as [|x l1 l2 _ IH|x y l|l1 l2 l3 _ IH1 _ IH2]; unfold count_notna in *.
  - done.
  - cbn. destruct (negb (is_null x)); cbn; congruence.
  - cbn. destruct (negb (is_null x)), (negb (is_null y)); done.
  - congruence.
Qed.

Lemma count_notna_concat {A} (f : A -> list cell) (l : list A) :
  nat_sum (map (fun x => count_notna (f x)) l) = count_notna (concat (map f l)).
Proof.
  induction l as [|x l IH]; cbn [map concat]; [done|].
  by rewrite count_notna_app, <- IH.
Qed.

Lemma ledger_rows_keyed {K} (eqb ltb : K -> K -> bool) (key : Row -> option K)
      (rs : list Row) :
  (forall a b, eqb a b = true <-> a = b) ->
  Forall (fun r => is_Some (key r)) rs ->
  Forall (fun k => exists k', k = Some k'
                              /\ k' ∈ group_keys eqb ltb (omap id (map key rs)))
         (map key rs).
Proof.
  intros Heq H. apply Forall_forall. intros k Hk.
  apply (list_elem_of_fmap (B:=option K)) in Hk as (r & -> & Hr).
  eapply Forall_forall in H as [k' Hk']; [|exact Hr].
  exists k'. split; [done|].
  apply elem_of_group_keys; [done|].
  apply list_elem_of_omap. exists (key r). split; [|by rewrite Hk'].
  by apply (list_elem_of_fmap_2 (B:=option K)).
Qed.

Lemma ledger_rows_dated (rs : list Row) :
  Forall (fun r => is_ledger_row r = true) rs ->
  Forall (fun r => is_Some (row_date r)) rs.
Proof.
  intros H. eapply Forall_impl; [exact H|]. intros r Hr.
  apply is_ledger_row_inv in Hr as (_ & (d & _ & _ & ->) & _). eauto.
Qed.

Lemma ledger_rows_labelled (rs : list Row) :
  Forall (fun r => is_ledger_row r = true) rs ->
  Forall (fun r => is_Some (option_map strftime_B_Y (row_date r))) rs.
Proof.
  intros H. eapply Forall_impl; [exact H|]. intros r Hr.
  apply is_ledger_row_inv in Hr as (_ & (d & _ & _ & ->) & _). cbn. eauto.
Qed.

(** Over the groups of a key that every row has, the counts of a column
    add up to its count. *)
Lemma grouped_counts {K} (eqb ltb : K -> K -> bool) (key : Row -> option K)
      (rs : list Row) (f : Row -> cell) :
  (forall a b, eqb a b = true <-> a = b) ->
  (forall a, ltb a a = false) ->
  (forall a b c, ltb a b = true -> ltb b c = true -> ltb a c = true) ->
  (forall a b, eqb a b = false -> ltb a b = false -> ltb b a = true) ->
  Forall (fun r => is_Some (key r)) rs ->
  nat_sum (map (fun k => count_notna (group_values eqb k (map key rs) (map f rs)))
               (group_keys eqb ltb (omap id (map key rs))))
  = count_notna (map f rs).
Proof.
  intros Heq Hirr Htr Htot H.
  rewrite (count_notna_concat
             (fun k => group_values eqb k (map key rs) (map f rs))).
  apply count_notna_Permutation. eapply group_values_split; [exact Heq|..].
  - eapply sorted_NoDup; [exact Hirr|]. by eapply group_keys_sorted.
  - by rewrite !length_map.
  - by apply ledger_rows_keyed.
Qed.

(** * The claims *)

Lemma two_months_ledger_eq : process_pdf two_months = Ok (Some two_months_ledger).
Proof. vm_compute. reflexivity. Qed.

Lemma two_months_is_ledger : is_ledger two_months_ledger.
Proof. split; reflexivity. Qed.

(** C1 (defect of the code): the claim wants the monthly rows in the order
    in which the months occur in the ledger.  On a ledger with a
    transaction on 15.03.2024 and one on 10.04.2024 the monthly table
    begins with April 2024 and goes on with March 2024:
    [groupby('Month')] sorts the labels as strings. *)
Theorem C1_months_in_label_order :
  exists wb,
    upload_file two_months = Ok (Some wb)
    /\ map Month (Monthly_Analysis wb)
       = ["April 2024"; "March 2024"; "GRAND TOTAL"].
Proof. eexists. split; vm_compute; reflexivity. Qed.

(** C2 (defect of the code): a table of six columns passes the width test
    [len(table.columns) >= 6], and the assignment of the seven canonical
    labels to it raises; the table is neither discarded nor retained. *)
Theorem C2_six_columns_raise (rs : list Row) (tables : list RawTable) :
  process_pdf (six_columns rs :: tables) = Raise ValueError_length_mismatch.
Proof. reflexivity. Qed.

Lemma zip_with_rows_map2 (f : Row -> cell -> Row) (h : Row -> Row) (g : Row -> cell)
      (rs : list Row) :
  zip_with_rows f (map h rs) (map g rs) = map (fun r => f (h r) (g r)) rs.
Proof. induction rs as [|r rs IH]; cbn; [done|]. by rewrite IH. Qed.

Lemma row_date_app (r : Row) (v : cell) :
  (0 < length r)%nat -> row_date (r ++ [v]) = row_date r.
Proof. intros H. unfold row_date. by rewrite cell_at_app_l. Qed.

(** The first sheet: the frame with the month labels, its dates as text. *)
Lemma dates_to_text (rs : list Row) :
  Forall (fun r => is_ledger_row r = true) rs ->
  let df := with_month (mkFrame canonical_columns rs) in
  exists dates,
    get_column df "Transaction Date" = Ok dates
    /\ to_datetime dates = Ok (map row_date rs)
    /\ set_column df "Transaction Date"
                  (map (dt_strftime strftime_dmY) (map row_date rs))
       = with_date_text df.
Proof.
  intros H. cbv zeta. unfold with_month. cbn [columns rows].
  exists (map (cell_at 0) rs). split; [|split].
  - apply (get_column_with_month rs _ "Transaction Date" 0%nat eq_refl);
      [lia|done].
  - by apply ledger_dates.
  - unfold set_column, with_date_text. cbn [columns rows].
    change (column_index "Transaction Date" (canonical_columns ++ ["Month"]))
      with (Some 0%nat).
    cbn iota. f_equal. rewrite !map_map, zip_with_rows_map2.
    apply map_ext_Forall. eapply Forall_impl; [exact H|]. intros r Hr.
    apply is_ledger_row_inv in Hr as (Hlen & _).
    unfold date_text. rewrite row_date_app by lia. done.
Qed.

(** C3 (counterexample): on the ledger of the two example transactions
    [create_monthly_totals] leaves the frame with an eighth column,
    ['Month']. *)
Lemma C3_month_column_added :
  exists df df' monthly,
    process_pdf two_months = Ok (Some df)
    /\ create_monthly_totals df = Ok (df', monthly)
    /\ columns df = canonical_columns
    /\ columns df' = canonical_columns ++ ["Month"]
    /\ columns df' <> columns df.
Proof.
  exists two_months_ledger. eexists. eexists.
  split; [apply two_months_ledger_eq|].
  split; [rewrite (create_monthly_totals_ledger _ two_months_is_ledger);
          reflexivity|].
  split; [reflexivity|]. split; [reflexivity|]. discriminate.
Qed.

(** C3 (amended): [create_summary] only reads the ledger (it returns
    nothing but the summary), [create_daily_totals] leaves the ledger as it
    was, [create_monthly_totals] adds the column ['Month'] with the label of
    the month of each row and leaves the seven columns as they were; the
    sheet of transactions is that frame with its dates written as text. *)
Theorem C3_ledger_after_the_aggregations
        (tables : list RawTable) (df : DataFrame) :
  rectangular tables ->
  process_pdf tables = Ok (Some df) ->
  (exists daily, create_daily_totals df = Ok (df, daily))
  /\ (exists monthly, create_monthly_totals df = Ok (with_month df, monthly))
  /\ (forall wb, upload_file tables = Ok (Some wb) ->
        Transactions wb = with_date_text (with_month df)).
Proof.
  intros Hrect Hpdf.
  pose proof (process_pdf_is_ledger _ _ Hrect Hpdf) as Hledger.
  destruct (create_daily_totals_ledger df Hledger) as [daily Hdaily].
  pose proof (create_monthly_totals_ledger df Hledger) as Hmonthly.
  split; [eauto|]. split; [eauto|].
  intros wb. unfold upload_file. rewrite Hpdf. cbn [bind].
  intros H. apply bind_Ok in H as (summary & _ & H).
  rewrite Hdaily in H. cbn [bind] in H.
  rewrite Hmonthly in H. cbn [bind] in H.
  destruct (is_ledger_inv df Hledger) as (rs & -> & Hrows).
  destruct (dates_to_text rs Hrows) as (dates & Hget & Hdates & Hset).
  rewrite Hget in H. cbn [bind] in H. rewrite Hdates in H. cbn [bind] in H.
  rewrite Hset in H. by injection H as <-.
Qed.

Lemma C3_witness :
  rectangular two_months
  /\ process_pdf two_months = Ok (Some two_months_ledger)
  /\ (exists daily, create_daily_totals two_months_ledger
                    = Ok (two_months_ledger, daily))
  /\ (exists monthly, create_monthly_totals two_months_ledger
                      = Ok (with_month two_months_ledger, monthly))
  /\ (forall wb, upload_file two_months = Ok (Some wb) ->
        Transactions wb = with_date_text (with_month two_months_ledger)).
Proof.
  split; [repeat constructor|]. split; [vm_compute; reflexivity|].
  apply (C3_ledger_after_the_aggregations two_months two_months_ledger).
  - repeat constructor.
  - vm_compute. reflexivity.
Defined.

(** C4 (counterexample): a dated row that only carries a balance is
    retained, with neither money in nor money out. *)
Lemma C4_row_without_money :
  exists df r,
    process_pdf balance_only = Ok (Some df)
    /\ rows df = [r]
    /\ cell_at 3 r = NaN /\ cell_at 4 r = NaN.
Proof. eexists. eexists. repeat split; vm_compute; reflexivity. Qed.

(** C4 (amended): every record of the ledger has a transaction date that is
    there and is a day of the calendar; its money out and its money in are
    each a number or null, and nothing keeps both from being null. *)
Theorem C4_ledger_rows_are_dated (tables : list RawTable) (df : DataFrame) :
  process_pdf tables = Ok (Some df) ->
  Forall (fun r =>
            (exists d, cell_at 0 r = Dt d /\ valid_date d = true)
            /\ is_float_cell (cell_at 3 r) = true
            /\ is_float_cell (cell_at 4 r) = true)
         (rows df).
Proof.
  intros H. apply process_pdf_rows in H as (Hparse & _ & _ & _ & Hperm & _).
  rewrite Hperm. apply Forall_fmap. eapply Forall_impl; [exact Hparse|].
  intros r (s & d & Hs & Hd). cbn.
  destruct (row_date_dated_row r s d Hs Hd) as [Hcell _].
  destruct (is_float_clean_row (dated_row r)) as (H3 & H4 & _).
  apply strptime_dmY_full in Hd as [_ Hvalid].
  split; [|by split].
  exists d. by rewrite cell_at_0_clean_row.
Qed.

Lemma C4_witness :
  process_pdf balance_only
  = Ok (Some (mkFrame canonical_columns
                [[Dt (mkDate 2024 1 1); NaN; Str "Balance brought forward";
                  NaN; NaN; Num (Qmake 2500 1); NaN]]))
  /\ Forall (fun r =>
               (exists d, cell_at 0 r = Dt d /\ valid_date d = true)
               /\ is_float_cell (cell_at 3 r) = true
               /\ is_float_cell (cell_at 4 r) = true)
            [[Dt (mkDate 2024 1 1); NaN; Str "Balance brought forward";
              NaN; NaN; Num (Qmake 2500 1); NaN]].
Proof.
  split; [vm_compute; reflexivity|].
  apply (C4_ledger_rows_are_dated balance_only
           (mkFrame canonical_columns
              [[Dt (mkDate 2024 1 1); NaN; Str "Balance brought forward";
                NaN; NaN; Num (Qmake 2500 1); NaN]])).
  vm_compute. reflexivity.
Defined.

(** C5 (defect of the code): the claim wants the counts of the days to add
    up to the number of rows of the ledger.  The count of a day is the
    [count] of the column of details, which leaves out the rows whose
    details are missing: the ledger of one transaction without details has
    one row, and the count of its day is 0. *)
Theorem C5_count_leaves_out_rows_without_details :
  exists df daily,
    process_pdf no_details = Ok (Some df)
    /\ create_daily_totals df = Ok (df, daily)
    /\ length (rows df) = 1%nat
    /\ length daily = 1%nat
    /\ nat_sum (map daily_Transaction_Details daily) = 0%nat.
Proof. eexists. eexists. repeat split; vm_compute; reflexivity. Qed.

(** C6 (counterexample): in the monthly table of the two example
    transactions the first row (April 2024) has no money in, the second one
    (March 2024) has 1000.00: its growth of money in is not null, it is
    plus infinity. *)
Lemma C6_growth_after_zero_is_infinite :
  exists wb previous current,
    upload_file two_months = Ok (Some wb)
    /\ Monthly_Analysis wb !! 0%nat = Some previous
    /\ Monthly_Analysis wb !! 1%nat = Some current
    /\ Month current = "March 2024"
    /\ (Money_In previous == 0)%Q
    /\ Money_In_Growth current = PosInf
    /\ Money_In_Growth current <> NotANumber.
Proof.
  eexists. eexists. eexists.
  split; [vm_compute; reflexivity|].
  split; [vm_compute; reflexivity|].
  split; [vm_compute; reflexivity|].
  split; [vm_compute; reflexivity|].
  split; [vm_compute; reflexivity|].
  split; [vm_compute; reflexivity|]. discriminate.
Qed.

(** The growth from 1000 to 1400 is [(1400 / 1000 - 1) * 100] with each
    operation rounded, which is 39.99999999999999 and not 40. *)
Example growth_is_rounded :
  growth_percent 1000 1400 = Finite (5629499534213119 # 140737488355328)
  /\ ~ (5629499534213119 # 140737488355328 == (1400 - 1000) / 1000 * 100)%Q.
Proof. split; [vm_compute; reflexivity|]. vm_compute. discriminate. Qed.

(** C6 (amended): the three growth percentages of the first row of the
    monthly table are null; those of every further monthly row are
    [(current / previous - 1) * 100] relative to the row before it, in
    floats, each of the three operations rounded to the nearest float,
    when the previous value is not zero; when the previous value is zero
    they are null if the current value is zero too, plus infinity if it is
    positive and minus infinity if it is negative. *)
Theorem C6_growth_percentages
        (df df' : DataFrame) (monthly : list MonthlyTotal) :
  create_monthly_totals df = Ok (df', monthly) ->
  (forall first, monthly !! 0%nat = Some first ->
     Money_In_Growth first = NotANumber
     /\ Money_Out_Growth first = NotANumber
     /\ Transaction_Count_Growth first = NotANumber)
  /\ (forall i previous current,
        monthly !! i = Some previous ->
        monthly !! S i = Some current ->
        (S i < length monthly - 1)%nat ->
        Money_In_Growth current
        = growth_percent (Money_In previous) (Money_In current)
        /\ Money_Out_Growth current
           = growth_percent (Money_Out previous) (Money_Out current)
        /\ Transaction_Count_Growth current
           = growth_percent (Qnat (Transaction_Details previous))
                            (Qnat (Transaction_Details current))).
Proof.
  intros H. apply create_monthly_totals_Ok in H as [groups ->].
  split.
  - intros first. destruct groups as [|g groups].
    + intros [= <-]. done.
    + rewrite lookup_app_l by (rewrite length_monthly_rows; cbn; lia).
      intros (g' & Hg & _ & _ & _ & Hin & Hout & Hcount & _)%lookup_monthly_rows.
      by rewrite Hin, Hout, Hcount.
  - intros i previous current Hprev Hcur Hi.
    rewrite length_app, length_monthly_rows in Hi. cbn in Hi.
    rewrite lookup_app_l in Hprev by (rewrite length_monthly_rows; lia).
    rewrite lookup_app_l in Hcur by (rewrite length_monthly_rows; lia).
    apply lookup_monthly_rows in Hprev
      as (gp & Hgp & Hpin & Hpout & Hpcount & _).
    apply lookup_monthly_rows in Hcur
      as (gc & Hgc & Hcin & Hcout & Hccount & Hin & Hout & Hcount & _).
    rewrite Hpin, Hpout, Hpcount, Hcin, Hcout, Hccount, Hin, Hout, Hcount.
    rewrite !list_lookup_fmap.
    rewrite (pct_change_next (map group_in groups) i (group_in gp) (group_in gc))
      by (by rewrite list_lookup_fmap, ?Hgp, ?Hgc).
    rewrite (pct_change_next (map group_out groups) i (group_out gp) (group_out gc))
      by (by rewrite list_lookup_fmap, ?Hgp, ?Hgc).
    rewrite (pct_change_next (map Qnat (map group_count groups)) i
               (Qnat (group_count gp)) (Qnat (group_count gc)))
      by (by rewrite !list_lookup_fmap, ?Hgp, ?Hgc).
    cbn [fmap option_fmap option_map default from_option id].
    repeat split; apply growth_percent_eq.
Qed.

Lemma C6_witness :
  process_pdf growth_months = Ok (Some growth_ledger)
  /\ create_monthly_totals growth_ledger
     = Ok (with_month growth_ledger, growth_monthly)
  /\ (forall first, growth_monthly !! 0%nat = Some first ->
        Money_In_Growth first = NotANumber
        /\ Money_Out_Growth first = NotANumber
        /\ Transaction_Count_Growth first = NotANumber)
  /\ (forall i previous current,
        growth_monthly !! i = Some previous ->
        growth_monthly !! S i = Some current ->
        (S i < length growth_monthly - 1)%nat ->
        Money_In_Growth current
        = growth_percent (Money_In previous) (Money_In current)
        /\ Money_Out_Growth current
           = growth_percent (Money_Out previous) (Money_Out current)
        /\ Transaction_Count_Growth current
           = growth_percent (Qnat (Transaction_Details previous))
                            (Qnat (Transaction_Details current)))
  /\ exists previous current,
       growth_monthly !! 0%nat = Some previous
       /\ growth_monthly !! 1%nat = Some current
       /\ Month previous = "April 2024" /\ Money_In previous = 1000%Q
       /\ Month current = "March 2024" /\ Money_In current = 1400%Q
       /\ Money_In_Growth current
          = Finite (5629499534213119 # 140737488355328)
       /\ Money_Out_Growth current = NotANumber
       /\ Transaction_Count_Growth current = Finite 0.
Proof.
  assert (create_monthly_totals growth_ledger
          = Ok (with_month growth_ledger, growth_monthly)) as Hmonthly.
  { vm_compute. reflexivity. }
  destruct (C6_growth_percentages growth_ledger (with_month growth_ledger)
              growth_monthly Hmonthly) as [Hfirst Hnext].
  split; [vm_compute; reflexivity|]. split; [exact Hmonthly|].
  split; [exact Hfirst|]. split; [exact Hnext|].
  destruct (growth_monthly !! 0%nat) as [previous|] eqn:Hp;
    [|vm_compute in Hp; discriminate].
  destruct (growth_monthly !! 1%nat) as [current|] eqn:Hc;
    [|vm_compute in Hc; discriminate].
  exists previous, current.
  destruct (Hnext 0%nat previous current Hp Hc) as (Hin & Hout & Hcount).
  { vm_compute. lia. }
  rewrite Hin, Hout, Hcount.
  vm_compute in Hp, Hc. injection Hp as <-. injection Hc as <-.
  repeat split; vm_compute; reflexivity.
Defined.

Lemma insert_key_not_nil {K} (eqb ltb : K -> K -> bool) (k : K) (ks : list K) :
  insert_key eqb ltb k ks <> [].
Proof.
  destruct ks as [|k' ks]; cbn; [done|].
  destruct (eqb k k'); [done|]. by destruct (ltb k k').
Qed.

Lemma ledger_monthly_groups_not_nil (rs : list Row) :
  Forall (fun r => is_ledger_row r = true) rs -> rs <> [] ->
  ledger_monthly_groups rs <> [].
Proof.
  intros H Hne. destruct H as [|r rs Hr _]; [done|].
  unfold ledger_monthly_groups, monthly_groups.
  apply is_ledger_row_inv in Hr as (_ & (d & _ & _ & Hd) & _).
  cbn [map omap]. rewrite Hd. cbn [option_map id].
  intros Hnil. apply map_eq_nil in Hnil.
  unfold group_keys in Hnil. cbn [list_omap fold_right] in Hnil.
  by apply insert_key_not_nil in Hnil.
Qed.

Lemma ledger_monthly_counts (rs : list Row) :
  Forall (fun r => is_ledger_row r = true) rs ->
  nat_sum (map group_count (ledger_monthly_groups rs))
  = count_notna (map (cell_at 2) rs).
Proof.
  intros Hrows.
  rewrite <- (grouped_counts String.eqb String.ltb
                (fun r => option_map strftime_B_Y (row_date r)) rs (cell_at 2)
                string_eqb_eq string_ltb_irrefl string_ltb_trans
                string_ltb_total (ledger_rows_labelled rs Hrows)).
  unfold ledger_monthly_groups, monthly_groups. by rewrite map_map.
Qed.

(** C7 (counterexample): with 0.10 in and 0.20 out in April and 0.10 in
    and 0.10 out in March, the running net movement of the row GRAND
    TOTAL, the sum of the net movements -0.1 and 0.0, is the float -0.1;
    the last cumulative sum, the running net movement of the last monthly
    row, is the sum of the running totals 0.2 and -0.30000000000000004,
    which is -0.10000000000000003. *)
Lemma C7_running_net_movement_differs :
  exists wb last_month grand,
    upload_file cents_months = Ok (Some wb)
    /\ length (Monthly_Analysis wb) = 3%nat
    /\ Monthly_Analysis wb !! 1%nat = Some last_month
    /\ Monthly_Analysis wb !! 2%nat = Some grand
    /\ Month grand = "GRAND TOTAL"
    /\ Running_Net_Movement grand = (- float_0_1)%Q
    /\ Running_Net_Movement last_month
       = -1801439850948199 # 18014398509481984
    /\ ~ (Running_Net_Movement grand == Running_Net_Movement last_month)%Q.
Proof.
  eexists. eexists. eexists.
  split; [vm_compute; reflexivity|].
  split; [vm_compute; reflexivity|].
  split; [vm_compute; reflexivity|].
  split; [vm_compute; reflexivity|].
  split; [vm_compute; reflexivity|].
  split; [vm_compute; reflexivity|].
  split; [vm_compute; reflexivity|].
  vm_compute. discriminate.
Qed.

(** C7 (amended): on a ledger with at least one row the monthly table ends
    with the row labelled GRAND TOTAL; its three growth columns are null;
    its money in, money out, count of transactions and net movement are
    the sums of these columns over the monthly rows, the count being the
    number of rows of the ledger that have details; its three running
    totals repeat these sums of money in, money out and net movement.  In
    a table of fewer than eight monthly rows the running totals of money
    in and of money out are the last cumulative sums, those of the last
    monthly row. *)
Theorem C7_grand_total_row (df : DataFrame) :
  is_ledger df -> rows df <> [] ->
  exists df' months grand last_month,
    create_monthly_totals df = Ok (df', months ++ [grand])
    /\ last months = Some last_month
    /\ Month grand = "GRAND TOTAL"
    /\ Money_In_Growth grand = NotANumber
    /\ Money_Out_Growth grand = NotANumber
    /\ Transaction_Count_Growth grand = NotANumber
    /\ Money_In grand = Qsum (map Money_In months)
    /\ Money_Out grand = Qsum (map Money_Out months)
    /\ Transaction_Details grand = nat_sum (map Transaction_Details months)
    /\ Transaction_Details grand = count_notna (map (cell_at 2) (rows df))
    /\ Monthly_Net_Movement grand = Qsum (map Monthly_Net_Movement months)
    /\ Running_Total_In grand = Money_In grand
    /\ Running_Total_Out grand = Money_Out grand
    /\ Running_Net_Movement grand = Monthly_Net_Movement grand
    /\ ((length months < 8)%nat ->
          Running_Total_In grand = Running_Total_In last_month
          /\ Running_Total_Out grand = Running_Total_Out last_month).
Proof.
  intros Hledger Hne.
  rewrite (create_monthly_totals_ledger df Hledger).
  destruct (is_ledger_inv df Hledger) as (rs & -> & Hrows). cbn [rows] in *.
  pose proof (ledger_monthly_groups_not_nil rs Hrows Hne) as Hgroups.
  pose proof (ledger_monthly_counts rs Hrows) as Hcounts.
  set (groups := ledger_monthly_groups rs) in *.
  destruct (monthly_rows_columns groups) as (Hin & Hout & Hcount & Hnet).
  assert (Hlen : length (monthly_rows groups) = length groups)
    by apply length_monthly_rows.
  destruct (lookup_lt_is_Some_2 (monthly_rows groups) (length groups - 1))
    as [last_month Hlast].
  { destruct groups; [done|]. cbn in *. lia. }
  exists (with_month (mkFrame canonical_columns rs)), (monthly_rows groups),
    (grand_totals (monthly_rows groups)), last_month.
  split; [done|]. split.
  { rewrite last_lookup, Hlen. by replace (Nat.pred (length groups))
      with (length groups - 1)%nat by lia. }
  apply lookup_monthly_rows in Hlast
    as (g & Hg & _ & _ & _ & _ & _ & _ & Hrin & Hrout & _).
  assert (Hi : S (length groups - 1) = length groups)
    by (destruct groups; [done|]; cbn; lia).
  cbn [grand_totals Month Money_In Money_Out Transaction_Details
       Monthly_Net_Movement Money_In_Growth Money_Out_Growth
       Transaction_Count_Growth Running_Total_In Running_Total_Out
       Running_Net_Movement].
  do 7 (split; [reflexivity|]).
  split; [by rewrite Hcount|].
  do 4 (split; [reflexivity|]).
  rewrite Hlen. intros Hshort.
  rewrite Hrin, Hrout, Hin, Hout.
  by rewrite !cumsum_last by (by rewrite length_map).
Qed.

Lemma C7_witness :
  process_pdf cents_months = Ok (Some cents_ledger)
  /\ is_ledger cents_ledger
  /\ rows cents_ledger <> []
  /\ exists df' months grand last_month,
       create_monthly_totals cents_ledger = Ok (df', months ++ [grand])
       /\ last months = Some last_month
       /\ Month grand = "GRAND TOTAL"
       /\ Money_In_Growth grand = NotANumber
       /\ Money_Out_Growth grand = NotANumber
       /\ Transaction_Count_Growth grand = NotANumber
       /\ Money_In grand = Qsum (map Money_In months)
       /\ Money_Out grand = Qsum (map Money_Out months)
       /\ Transaction_Details grand = nat_sum (map Transaction_Details months)
       /\ Transaction_Details grand
          = count_notna (map (cell_at 2) (rows cents_ledger))
       /\ Monthly_Net_Movement grand = Qsum (map Monthly_Net_Movement months)
       /\ Running_Total_In grand = Money_In grand
       /\ Running_Total_Out grand = Money_Out grand
       /\ Running_Net_Movement grand = Monthly_Net_Movement grand
       /\ ((length months < 8)%nat ->
             Running_Total_In grand = Running_Total_In last_month
             /\ Running_Total_Out grand = Running_Total_Out last_month).
Proof.
  split; [vm_compute; reflexivity|].
  split; [split; reflexivity|]. split; [discriminate|].
  apply (C7_grand_total_row cents_ledger).
  - split; reflexivity.
  - discriminate.
Defined.

(** C8 (counterexample): the title line "Statement from 01.01.2024" is not
    a date in the form DD.MM.YYYY, yet the filter of the loop keeps it,
    because the pattern is searched for inside the cell; the dates are then
    parsed, and the title makes [process_pdf] raise instead of returning
    the ledger of the one transaction. *)
Lemma C8_title_with_a_date_is_kept :
  date_strict title_row = false
  /\ date_strict march_row = true
  /\ process_table titled_table = Ok (Some [title_row; march_row])
  /\ process_pdf [titled_table] = Raise ValueError_time_data.
Proof. repeat split; vm_compute; reflexivity. Qed.

(** C8 (amended): the filter of [process_pdf] keeps the rows that are not
    empty and whose transaction date cell is a string in which
    [DD.MM.YYYY] occurs.  When the loop over the tables has run to its end
    with a table appended, there are two cases.  Either each kept cell
    reads as a date: then each of them is [DD.MM.YYYY] and nothing else,
    [process_pdf] returns a ledger, and the rows of the ledger are the rows
    with such a cell, each with its date parsed and its monetary cells
    cleaned; rows with any other cell, the repeated header among them, are
    not in it.  Or some kept cell does not read as a date: then
    [process_pdf] raises and returns no ledger. *)
Theorem C8_rows_of_the_ledger (tables : list RawTable) :
  loop_completes tables ->
  Exists (fun t => (6 <= width t)%nat) tables ->
  (exists df ledger_rows,
     process_pdf tables = Ok (Some df)
     /\ List.filter date_found (candidate_rows tables)
        = List.filter date_strict (candidate_rows tables)
     /\ mapM ledger_row (List.filter date_strict (candidate_rows tables))
        = Ok ledger_rows
     /\ rows df ≡ₚ ledger_rows)
  \/ (process_pdf tables = Raise ValueError_time_data
      /\ Exists (fun r => ~ parses r)
                (List.filter date_found (candidate_rows tables))).
Proof.
  intros Hloop Hsome.
  destruct (process_pdf_run tables Hloop Hsome) as [[_ Hpdf]|[Hex Hpdf]].
  - left.
    destruct (process_pdf_rows _ _ Hpdf) as (_ & Hkept & _ & Hrows & Hperm & _).
    eauto 10.
  - right. by split.
Qed.

Lemma C8_witness :
  (loop_completes statement_page
   /\ Exists (fun t => (6 <= width t)%nat) statement_page
   /\ ((exists df ledger_rows,
          process_pdf statement_page = Ok (Some df)
          /\ List.filter date_found (candidate_rows statement_page)
             = List.filter date_strict (candidate_rows statement_page)
          /\ mapM ledger_row
               (List.filter date_strict (candidate_rows statement_page))
             = Ok ledger_rows
          /\ rows df ≡ₚ ledger_rows)
       \/ (process_pdf statement_page = Raise ValueError_time_data
           /\ Exists (fun r => ~ parses r)
                     (List.filter date_found (candidate_rows statement_page))))
   /\ process_pdf statement_page = Ok (Some two_months_ledger)
   /\ candidate_rows statement_page
      = [map Str canonical_columns; march_row; totals_row; april_row]
   /\ List.filter date_strict (candidate_rows statement_page)
      = [march_row; april_row])
  /\ (loop_completes [titled_table]
      /\ Exists (fun t => (6 <= width t)%nat) [titled_table]
      /\ ((exists df ledger_rows,
             process_pdf [titled_table] = Ok (Some df)
             /\ List.filter date_found (candidate_rows [titled_table])
                = List.filter date_strict (candidate_rows [titled_table])
             /\ mapM ledger_row
                  (List.filter date_strict (candidate_rows [titled_table]))
                = Ok ledger_rows
             /\ rows df ≡ₚ ledger_rows)
          \/ (process_pdf [titled_table] = Raise ValueError_time_data
              /\ Exists (fun r => ~ parses r)
                        (List.filter date_found
                           (candidate_rows [titled_table]))))
      /\ process_pdf [titled_table] = Raise ValueError_time_data).
Proof.
  split.
  - split; [repeat constructor|].
    split; [left; simpl; lia|].
    split; [|repeat split; vm_compute; reflexivity].
    apply (C8_rows_of_the_ledger statement_page).
    + repeat constructor.
    + left. simpl. lia.
  - split; [repeat constructor|].
    split; [left; simpl; lia|].
    split; [|vm_compute; reflexivity].
    apply (C8_rows_of_the_ledger [titled_table]).
    + repeat constructor.
    + left. simpl. lia.
Defined.

(** C9 (counterexample): seventeen transactions of one day, in the order
    of the document "Payment 00" to "Payment 16".  In the ledger
    "Payment 14" comes second and "Payment 01" comes fifteenth: the rows of
    one date do not keep the order of the document. *)
Lemma C9_same_day_rows_reordered : ~ keeps_document_order same_day.
Proof.
  intros Hkeep.
  destruct (process_pdf same_day) as [[df|]|] eqn:Hpdf;
    try (vm_compute in Hpdf; discriminate).
  destruct (mapM ledger_row (List.filter date_strict (candidate_rows same_day)))
    as [ledger_rows|] eqn:Hrows; try (vm_compute in Hrows; discriminate).
  specialize (Hkeep df ledger_rows (mkDate 2024 1 5) Hpdf Hrows).
  vm_compute in Hpdf, Hrows.
  injection Hpdf as <-. injection Hrows as <-.
  vm_compute in Hkeep. discriminate.
Qed.

(** C9 (amended): [process_pdf] sorts the rows by parsed transaction date:
    the ledger is a rearrangement of the retained rows in which no row is
    dated before a row above it.  Rows of one date keep the order of the
    document when at most 16 rows are retained; with more rows the default
    sort of [sort_values] (quicksort) does not keep their order. *)
Theorem C9_ledger_sorted_by_date (tables : list RawTable) (df : DataFrame) :
  process_pdf tables = Ok (Some df) ->
  exists ledger_rows,
    mapM ledger_row (List.filter date_strict (candidate_rows tables))
    = Ok ledger_rows
    /\ rows df ≡ₚ ledger_rows
    /\ StronglySorted row_not_after (rows df)
    /\ ((length ledger_rows <= 16)%nat -> forall d,
          List.filter (has_date d) (rows df)
          = List.filter (has_date d) ledger_rows).
Proof.
  intros H.
  apply process_pdf_rows in H as (_ & _ & _ & Hrows & Hperm & Hsorted & Hstable).
  eexists. split; [exact Hrows|]. split; [done|]. split; [done|].
  intros Hlen. apply Hstable. by rewrite length_map in Hlen.
Qed.

Lemma C9_witness :
  exists df ledger_rows,
    process_pdf two_days = Ok (Some df)
    /\ mapM ledger_row (List.filter date_strict (candidate_rows two_days))
       = Ok ledger_rows
    /\ rows df ≡ₚ ledger_rows
    /\ StronglySorted row_not_after (rows df)
    /\ length ledger_rows = 16%nat
    /\ (forall d, List.filter (has_date d) (rows df)
                  = List.filter (has_date d) ledger_rows)
    /\ map (cell_at 2) (rows df)
       = map (fun i => Str ("Payment " ++ decimal2 (Z.of_nat i))%string)
             two_days_order.
Proof.
  destruct (process_pdf two_days) as [[df|]|] eqn:Hpdf;
    try (vm_compute in Hpdf; discriminate).
  destruct (C9_ledger_sorted_by_date two_days df Hpdf)
    as (ledger_rows & Hrows & Hperm & Hsorted & Hstable).
  exists df, ledger_rows.
  assert (length ledger_rows = 16%nat) as Hlen.
  { vm_compute in Hrows. injection Hrows as <-. reflexivity. }
  split; [reflexivity|]. split; [exact Hrows|]. split; [exact Hperm|].
  split; [exact Hsorted|]. split; [exact Hlen|].
  split; [apply Hstable; lia|].
  vm_compute in Hpdf. injection Hpdf as <-. vm_compute. reflexivity.
Defined.

(** The order of the ledger of [same_day], by the details of its rows. *)
Example same_day_ledger_order :
  exists df,
    process_pdf same_day = Ok (Some df)
    /\ map (cell_at 2) (rows df)
       = map (fun i => Str ("Payment " ++ decimal2 (Z.of_nat i))%string)
             [0; 14; 13; 12; 11; 10; 9; 15; 8; 6; 5; 4; 3; 2; 1; 7; 16]%nat.
Proof. eexists. split; vm_compute; reflexivity. Qed.

Lemma create_summary_ledger (df : DataFrame) :
  is_ledger df -> rows df <> [] -> exists summary, create_summary df = Ok summary.
Proof.
  intros (rs & -> & Hrows)%is_ledger_inv Hne. cbn [rows] in Hne.
  unfold create_summary.
  destruct (ledger_money rs Hrows) as [-> ->]. cbn [bind].
  rewrite (get_column_canonical rs "Transaction Date" 0%nat eq_refl). cbn [bind].
  destruct rs as [|r rs]; [done|]. cbn [map iloc_first bind].
  unfold iloc_last.
  destruct (last (cell_at 0 r :: map (cell_at 0) rs)) as [c|] eqn:Hlast.
  - cbn [bind]. eauto.
  - apply last_None in Hlast. discriminate.
Qed.

(** C10 (counterexample): a table of seven columns whose first column is
    empty passes the width test and none of its rows passes the filters,
    yet [process_pdf] returns no ledger, empty or not: the [.str] accessor
    raises on the first column, which holds no string. *)
Lemma C10_first_column_without_strings :
  Exists (fun t => (6 <= width t)%nat) [continuation_table]
  /\ List.filter date_found (candidate_rows [continuation_table]) = []
  /\ process_pdf [continuation_table] = Raise AttributeError_str_accessor
  /\ process_pdf [continuation_table]
     <> Ok (Some (mkFrame canonical_columns [])).
Proof.
  split; [left; simpl; lia|].
  split; [reflexivity|]. split; [reflexivity|]. discriminate.
Qed.

(** C10 (amended): when the loop over the tables runs to its end (each
    table that passes the width test has seven columns and a first column
    with the [.str] accessor), a table passes the width test and no row
    passes the filters, [process_pdf] returns a ledger that is there and
    has no rows, not the absent result; [create_summary] raises on it
    when it reads the first transaction date, and so does the whole
    request; on a ledger with a row [create_summary] returns. *)
Theorem C10_empty_ledger (tables : list RawTable) :
  loop_completes tables ->
  Exists (fun t => (6 <= width t)%nat) tables ->
  List.filter date_found (candidate_rows tables) = [] ->
  process_pdf tables = Ok (Some (mkFrame canonical_columns []))
  /\ create_summary (mkFrame canonical_columns [])
     = Raise IndexError_out_of_bounds
  /\ upload_file tables = Raise IndexError_out_of_bounds
  /\ (forall df, is_ledger df -> rows df <> [] ->
        exists summary, create_summary df = Ok summary).
Proof.
  intros Hloop Hsome Hrows.
  assert (Hpdf : process_pdf tables = Ok (Some (mkFrame canonical_columns []))).
  { unfold process_pdf. rewrite (process_tables_completes tables Hloop).
    cbn [bind].
    destruct (List.filter (fun t => (6 <=? width t)%nat) tables)
      as [|t ts] eqn:Hpassed.
    - exfalso. apply Exists_exists in Hsome as (t & Ht & H6).
      assert (Hin : In t (List.filter (fun t => (6 <=? width t)%nat) tables)).
      { apply filter_In. split; [by apply list_elem_of_In|by apply Nat.leb_le]. }
      by rewrite Hpassed in Hin.
    - assert (Hconcat : concat (map (fun t => List.filter date_found (body t))
                                    (t :: ts)) = []).
      { rewrite <- Hrows. unfold candidate_rows.
        by rewrite Hpassed, filter_concat, map_map. }
      cbn [map] in *. rewrite Hconcat. reflexivity. }
  split; [done|]. split; [reflexivity|]. split.
  - unfold upload_file. rewrite Hpdf. reflexivity.
  - apply create_summary_ledger.
Qed.

Lemma C10_witness :
  loop_completes header_only
  /\ Exists (fun t => (6 <= width t)%nat) header_only
  /\ List.filter date_found (candidate_rows header_only) = []
  /\ process_pdf header_only = Ok (Some (mkFrame canonical_columns []))
  /\ create_summary (mkFrame canonical_columns [])
     = Raise IndexError_out_of_bounds
  /\ upload_file header_only = Raise IndexError_out_of_bounds
  /\ (forall df, is_ledger df -> rows df <> [] ->
        exists summary, create_summary df = Ok summary).
Proof.
  split; [repeat constructor|].
  split; [left; simpl; lia|].
  split; [reflexivity|].
  apply (C10_empty_ledger header_only).
  - repeat constructor.
  - left. simpl. lia.
  - reflexivity.
Defined.

(** * Lemmas for the further properties *)

(** ** Decimal numerals *)

Lemma digit_char_spec (n : Z) :
  is_digit (digit_char n) = true /\ digit_val (digit_char n) = n mod 10.
Proof.
  unfold digit_char.
  assert (0 <= n mod 10 < 10) as H by (apply Z.mod_pos_bound; lia).
  assert (n mod 10 = 0 \/ n mod 10 = 1 \/ n mod 10 = 2 \/ n mod 10 = 3
          \/ n mod 10 = 4 \/ n mod 10 = 5 \/ n mod 10 = 6 \/ n mod 10 = 7
          \/ n mod 10 = 8 \/ n mod 10 = 9) as Hd by lia.
  destruct Hd as [-> | [-> | [-> | [-> | [-> | [-> | [-> | [-> | [-> | ->]]]]]]]]];
    by vm_compute.
Qed.

Lemma digit_val_spec (c : ascii) :
  is_digit c = true -> 0 <= digit_val c <= 9 /\ digit_char (digit_val c) = c.
Proof.
  destruct c as [[] [] [] [] [] [] [] []]; vm_compute; try discriminate;
    intros _; (split; [split; discriminate|reflexivity]).
Qed.

(** Reading back the digits that [decimal_digits] writes in front of a
    text. *)
Lemma read_decimal_digits (fuel : nat) (n : Z) (rest : string) :
  0 <= n -> (Z.to_nat n < fuel)%nat ->
  exists m : nat,
    (0 < m)%nat
    /\ String.length (decimal_digits fuel n rest) = (m + String.length rest)%nat
    /\ forall a k,
         read_digits (decimal_digits fuel n rest) a k
         = read_digits rest (a * 10 ^ Z.of_nat m + n) (k + m).
Proof.
  revert n rest. induction fuel as [|fuel IH]; intros n rest Hn Hf; [lia|].
  cbn [decimal_digits]. destruct (n <? 10) eqn:E.
  - apply Z.ltb_lt in E. exists 1%nat. split; [lia|]. split; [done|].
    intros a k. cbn [read_digits].
    destruct (digit_char_spec n) as [-> ->].
    rewrite Z.mod_small by lia. f_equal; [|lia].
    change (10 ^ Z.of_nat 1) with 10. lia.
  - apply Z.ltb_ge in E.
    destruct (IH (n / 10) (String (digit_char n) rest)) as (m & Hm & Hlen & Hread).
    + apply Z.div_pos; lia.
    + assert (n / 10 < n) by (apply Z.div_lt; lia).
      assert (0 <= n / 10) by (apply Z.div_pos; lia). lia.
    + exists (S m). split; [lia|]. split; [rewrite Hlen; cbn; lia|].
      intros a k. rewrite Hread. cbn [read_digits].
      destruct (digit_char_spec n) as [-> ->]. f_equal; [|lia].
      rewrite Nat2Z.inj_succ, Z.pow_succ_r by lia.
      pose proof (Z.div_mod n 10 ltac:(lia)). lia.
Qed.

Lemma read_decimal (n : Z) (rest : string) :
  0 <= n ->
  exists m : nat,
    (0 < m)%nat
    /\ forall a k,
         read_digits (decimal_digits (S (Z.to_nat n)) n rest) a k
         = read_digits rest (a * 10 ^ Z.of_nat m + n) (k + m).
Proof.
  intros Hn.
  destruct (read_decimal_digits (S (Z.to_nat n)) n rest Hn ltac:(lia))
    as (m & Hm & _ & H).
  eauto.
Qed.

Lemma decimal_inj (n1 n2 : Z) :
  0 <= n1 -> 0 <= n2 -> decimal n1 = decimal n2 -> n1 = n2.
Proof.
  intros H1 H2 Heq. unfold decimal in Heq.
  destruct (read_decimal n1 EmptyString H1) as (m1 & _ & R1).
  destruct (read_decimal n2 EmptyString H2) as (m2 & _ & R2).
  specialize (R1 0 0%nat). specialize (R2 0 0%nat).
  rewrite Heq, R2 in R1. cbn in R1. injection R1. lia.
Qed.

Lemma month_name_inj (m1 m2 : Z) (s1 s2 : string) :
  1 <= m1 <= 12 -> 1 <= m2 <= 12 ->
  (month_name m1 ++ " " ++ s1 = month_name m2 ++ " " ++ s2)%string ->
  m1 = m2 /\ s1 = s2.
Proof.
  intros H1 H2.
  assert (m1 = 1 \/ m1 = 2 \/ m1 = 3 \/ m1 = 4 \/ m1 = 5 \/ m1 = 6 \/ m1 = 7
          \/ m1 = 8 \/ m1 = 9 \/ m1 = 10 \/ m1 = 11 \/ m1 = 12) as C1 by lia.
  assert (m2 = 1 \/ m2 = 2 \/ m2 = 3 \/ m2 = 4 \/ m2 = 5 \/ m2 = 6 \/ m2 = 7
          \/ m2 = 8 \/ m2 = 9 \/ m2 = 10 \/ m2 = 11 \/ m2 = 12) as C2 by lia.
  clear H1 H2.
  destruct C1 as [-> | [-> | [-> | [-> | [-> | [-> | [-> | [-> | [-> | [-> | [-> | ->]]]]]]]]]]];
  destruct C2 as [-> | [-> | [-> | [-> | [-> | [-> | [-> | [-> | [-> | [-> | [-> | ->]]]]]]]]]]];
    cbn; intros H; first [discriminate H | by injection H].
Qed.

Lemma valid_date_bounds (d : Date) :
  valid_date d = true ->
  1 <= month d <= 12 /\ 1 <= day d <= 31 /\ 1677 <= year d <= 2262.
Proof.
  unfold valid_date. rewrite !andb_true_iff, negb_true_iff.
  intros [[[[[H1 H2] H3] H4] H5] H6].
  apply date_ltb_lt in H5. cbn in H5.
  assert (~ date_ltb Timestamp_max_date d = true) as H6' by congruence.
  rewrite date_ltb_lt in H6'. cbn in H6'.
  assert (days_in_month (year d) (month d) <= 31).
  { unfold days_in_month. repeat case_match; lia. }
  lia.
Qed.

Lemma strftime_B_Y_inj (d1 d2 : Date) :
  valid_date d1 = true -> valid_date d2 = true ->
  strftime_B_Y d1 = strftime_B_Y d2
  <-> year d1 = year d2 /\ month d1 = month d2.
Proof.
  intros V1%valid_date_bounds V2%valid_date_bounds. unfold strftime_B_Y. split.
  - intros H. apply month_name_inj in H as [Hm Hy]; [|lia|lia].
    apply decimal_inj in Hy; [done|lia|lia].
  - by intros [-> ->].
Qed.

Lemma digit_char_mod (a b : Z) : digit_char (10 * a + b) = digit_char b.
Proof.
  unfold digit_char. do 3 f_equal.
  rewrite Z.add_comm, Z.mul_comm. apply Z.mod_add. lia.
Qed.

Lemma decimal_four (y : Z) :
  1000 <= y < 10000 ->
  decimal y
  = String (digit_char (y / 10 / 10 / 10))
      (String (digit_char (y / 10 / 10))
         (String (digit_char (y / 10)) (String (digit_char y) EmptyString))).
Proof.
  intros H. unfold decimal.
  assert (exists k, Z.to_nat y = (3 + k)%nat) as [k ->] by (exists (Z.to_nat y - 3)%nat; lia).
  cbn [Nat.add decimal_digits].
  assert ((y <? 10) = false) as -> by (apply Z.ltb_ge; lia).
  assert ((y / 10 <? 10) = false) as ->.
  { apply Z.ltb_ge. Z.to_euclidean_division_equations. lia. }
  assert ((y / 10 / 10 <? 10) = false) as ->.
  { apply Z.ltb_ge. Z.to_euclidean_division_equations. lia. }
  assert ((y / 10 / 10 / 10 <? 10) = true) as ->.
  { apply Z.ltb_lt. Z.to_euclidean_division_equations. lia. }
  done.
Qed.

Lemma strftime_after_strptime (s : string) (d : Date) :
  strptime_dmY s = Some d -> strftime_dmY d = s.
Proof.
  unfold strptime_dmY.
  destruct s as [|d1 [|d2 [|p1 [|m1 [|m2 [|p2 [|y1 [|y2 [|y3 [|y4 [|]]]]]]]]]]];
    try discriminate.
  destruct (date_pattern_at _) eqn:Hp; [|discriminate].
  destruct (valid_date _) eqn:Hv; [|discriminate].
  intros [= <-].
  unfold date_pattern_at in Hp. rewrite !andb_true_iff in Hp.
  destruct Hp as [[[[[[[[[D1 D2] P1] M1] M2] P2] Y1] Y2] Y3] Y4].
  apply valid_date_bounds in Hv. cbn [year month day] in Hv.
  apply digit_val_spec in D1 as [B1 C1], D2 as [B2 C2], M1 as [B3 C3],
    M2 as [B4 C4], Y1 as [B5 C5], Y2 as [B6 C6], Y3 as [B7 C7], Y4 as [B8 C8].
  apply Ascii.eqb_eq in P1 as ->, P2 as ->.
  unfold strftime_dmY, decimal2. cbn [year month day].
  rewrite decimal_four by lia.
  rewrite !digit_char_mod.
  replace ((10 * digit_val d1 + digit_val d2) / 10) with (digit_val d1)
    by (Z.to_euclidean_division_equations; lia).
  replace ((10 * digit_val m1 + digit_val m2) / 10) with (digit_val m1)
    by (Z.to_euclidean_division_equations; lia).
  set (y := 1000 * digit_val y1 + 100 * digit_val y2 + 10 * digit_val y3
            + digit_val y4).
  replace (y / 10 / 10 / 10) with (digit_val y1)
    by (subst y; Z.to_euclidean_division_equations; lia).
  replace (digit_char (y / 10 / 10)) with (digit_char (digit_val y2)).
  2:{ replace (y / 10 / 10) with (10 * digit_val y1 + digit_val y2)
        by (subst y; Z.to_euclidean_division_equations; lia).
      by rewrite digit_char_mod. }
  replace (digit_char (y / 10)) with (digit_char (digit_val y3)).
  2:{ replace (y / 10) with (10 * (10 * digit_val y1 + digit_val y2) + digit_val y3)
        by (subst y; Z.to_euclidean_division_equations; lia).
      by rewrite digit_char_mod. }
  replace (digit_char y) with (digit_char (digit_val y4)).
  2:{ subst y.
      replace (1000 * digit_val y1 + 100 * digit_val y2 + 10 * digit_val y3
               + digit_val y4)
        with (10 * (100 * digit_val y1 + 10 * digit_val y2 + digit_val y3)
              + digit_val y4) by lia.
      by rewrite digit_char_mod. }
  rewrite C1, C2, C3, C4, C5, C6, C7, C8. done.
Qed.

Lemma decimal_digits_app (fuel : nat) (n : Z) (acc rest : string) :
  (decimal_digits fuel n acc ++ rest)%string
  = decimal_digits fuel n (acc ++ rest)%string.
Proof.
  revert n acc. induction fuel as [|fuel IH]; intros n acc; cbn; [done|].
  destruct (n <? 10); [done|]. by rewrite IH.
Qed.

Lemma decimal_digits_head (fuel : nat) (n : Z) (acc : string) :
  exists c t, decimal_digits (S fuel) n acc = String c t /\ is_digit c = true.
Proof.
  revert n acc. induction fuel as [|fuel IH]; intros n acc.
  - cbn. destruct (digit_char_spec n) as [Hd _].
    destruct (n <? 10); eauto.
  - cbn [decimal_digits]. destruct (n <? 10).
    + destruct (digit_char_spec n) as [Hd _]. eauto.
    + apply IH.
Qed.

Lemma read_digits_stop (s : string) (a : Z) (k : nat) :
  match s with
  | String c _ => is_digit c = false
  | EmptyString => True
  end ->
  read_digits s a k = (a, k, s).
Proof. destruct s as [|c s]; cbn; [done|]. by intros ->. Qed.

Lemma parse_amount_text (whole cents : Z) :
  0 <= whole -> 0 <= cents < 100 ->
  parse_decimal (amount_text whole cents) = Some (Qmake (whole * 100 + cents) 100)
  /\ parse_decimal (String "-" (amount_text whole cents))
     = Some (Qmake (- (whole * 100 + cents)) 100).
Proof.
  intros Hw Hc. unfold amount_text, decimal.
  rewrite decimal_digits_app.
  change (EmptyString ++ "." ++ decimal2 cents)%string
    with (String "." (decimal2 cents)).
  destruct (read_decimal whole (String "." (decimal2 cents)) Hw) as (m & Hm & Hread).
  assert (Hfrac : read_digits (decimal2 cents) 0 0 = (cents, 2%nat, EmptyString)).
  { unfold decimal2. cbn [read_digits].
    destruct (digit_char_spec (cents / 10)) as [-> ->].
    destruct (digit_char_spec cents) as [-> ->].
    f_equal. f_equal. Z.to_euclidean_division_equations. lia. }
  assert (Hscale : (0 + m + 2 =? 0)%nat = false) by (apply Nat.eqb_neq; lia).
  split.
  - unfold parse_decimal.
    destruct (decimal_digits_head (Z.to_nat whole) whole
                (String "." (decimal2 cents))) as (c & t & Hhead & Hdig).
    rewrite Hhead.
    destruct c as [[] [] [] [] [] [] [] []]; try discriminate Hdig;
      cbv beta iota; rewrite <- Hhead, Hread;
      (rewrite read_digits_stop by done); rewrite Hfrac, Hscale;
      change (10 ^ Z.of_nat 2) with 100; change (Z.to_pos 100) with 100%positive;
      by rewrite Z.mul_0_l, Z.add_0_l.
  - unfold parse_decimal. cbv beta iota. rewrite Hread.
    rewrite read_digits_stop by done. rewrite Hfrac, Hscale.
    change (10 ^ Z.of_nat 2) with 100. change (Z.to_pos 100) with 100%positive.
    by rewrite Z.mul_0_l, Z.add_0_l.
Qed.

(** ** The name of the upload *)

Lemma rsplit_dot_no_dot (s : string) :
  contains_dot s = false -> rsplit_dot s = [s].
Proof.
  induction s as [|c s IH]; cbn; [done|].
  intros [Hc Hs]%orb_false_iff. by rewrite (IH Hs), Hc.
Qed.

Lemma contains_dot_app (s t : string) :
  contains_dot (s ++ t) = contains_dot s || contains_dot t.
Proof.
  induction s as [|c s IH]; cbn; [done|]. by rewrite IH, orb_assoc.
Qed.

Lemma rsplit_dot_app (stem extension : string) :
  contains_dot extension = false ->
  rsplit_dot (stem ++ "." ++ extension) = [stem; extension].
Proof.
  intros H. induction stem as [|c stem IH]; cbn.
  - by rewrite (rsplit_dot_no_dot _ H).
  - cbn in IH. by rewrite IH.
Qed.

Lemma rsplit_dot_spec (s : string) :
  contains_dot s = true ->
  exists stem extension,
    s = (stem ++ "." ++ extension)%string /\ contains_dot extension = false.
Proof.
  induction s as [|c s IH]; cbn; [done|].
  destruct (contains_dot s) eqn:E.
  - intros _. destruct (IH eq_refl) as (stem & extension & -> & H).
    by exists (String c stem), extension.
  - rewrite orb_false_r. intros ->%Ascii.eqb_eq. by exists EmptyString, s.
Qed.

Lemma index_rsplit_dot (filename : string) :
  exists stem, index (rsplit_dot filename) 0 = Ok stem.
Proof.
  unfold index. destruct filename as [|c s]; cbn; [eauto|].
  destruct (rsplit_dot s) as [|h [|t [|]]]; destruct (is_dot c); cbn; eauto.
Qed.

(** ** The summary and the tables of a ledger *)


Lemma create_summary_empty (df : DataFrame) (summary : Summary) :
  create_summary df = Ok summary -> rows df <> [].
Proof.
  unfold create_summary. intros H.
  apply bind_Ok in H as (money_in & _ & H).
  apply bind_Ok in H as (money_out & _ & H).
  apply bind_Ok in H as (dates & Hdates & H).
  apply bind_Ok in H as (first & Hfirst & _).
  unfold get_column in Hdates. destruct (column_index _ _); [|done].
  injection Hdates as <-. intros Hnil. by rewrite Hnil in Hfirst.
Qed.








Lemma process_pdf_rows_dated (tables : list RawTable) (df : DataFrame) :
  process_pdf tables = Ok (Some df) ->
  Forall (fun r => exists d, cell_at 0 r = Dt d /\ row_date r = Some d) (rows df).
Proof.
  intros H. apply process_pdf_rows in H as (Hparse & _ & _ & _ & Hperm & _).
  rewrite Hperm. apply Forall_fmap. eapply Forall_impl; [exact Hparse|].
  intros r (s & d & Hs & Hd). cbn.
  destruct (row_date_dated_row r s d Hs Hd) as [Hcell Hdate].
  exists d. by rewrite cell_at_0_clean_row, row_date_clean_row.
Qed.

Lemma process_pdf_rows_valid (tables : list RawTable) (df : DataFrame) :
  process_pdf tables = Ok (Some df) ->
  Forall (fun r => exists d, row_date r = Some d /\ valid_date d = true) (rows df).
Proof.
  intros H. apply process_pdf_rows in H as (Hparse & _ & _ & _ & Hperm & _).
  rewrite Hperm. apply Forall_fmap. eapply Forall_impl; [exact Hparse|].
  intros r (s & d & Hs & Hd). cbn.
  destruct (row_date_dated_row r s d Hs Hd) as [_ Hdate].
  apply strptime_dmY_full in Hd as [_ Hvalid].
  exists d. by rewrite row_date_clean_row.
Qed.

Lemma create_daily_totals_rows (df : DataFrame) :
  is_ledger df ->
  create_daily_totals df = Ok (df, ledger_daily_totals (rows df)).
Proof.
  intros (rs & -> & Hrows)%is_ledger_inv. unfold create_daily_totals.
  rewrite (get_column_canonical rs "Transaction Date" 0%nat eq_refl). cbn [bind].
  rewrite (ledger_dates rs Hrows). cbn [bind].
  rewrite (ledger_set_dates rs Hrows).
  destruct (ledger_money rs Hrows) as [-> ->]. cbn [bind].
  rewrite (get_column_canonical rs "Transaction Details" 2%nat eq_refl).
  cbn [bind]. done.
Qed.

Lemma map_monthly_groups (labels : list (option string))
      (money_in money_out : list (option Q)) (details : list cell) :
  let keys := group_keys String.eqb String.ltb (omap id labels) in
  map group_label (monthly_groups labels money_in money_out details) = keys
  /\ map group_in (monthly_groups labels money_in money_out details)
     = map (fun m => group_sum (group_values String.eqb m labels money_in)) keys
  /\ map group_out (monthly_groups labels money_in money_out details)
     = map (fun m => group_sum (group_values String.eqb m labels money_out)) keys
  /\ map group_count (monthly_groups labels money_in money_out details)
     = map (fun m => count_notna (group_values String.eqb m labels details)) keys.
Proof.
  cbn zeta. unfold monthly_groups. rewrite !map_map.
  unfold group_label, group_in, group_out, group_count. cbn [fst snd].
  by rewrite map_id.
Qed.

Lemma monthly_rows_labels (groups : list (string * Q * Q * nat)) :
  map Month (monthly_rows groups) = map group_label groups.
Proof. unfold monthly_rows. cbn zeta. by apply map_imap_const. Qed.

Lemma ledger_month_labels (rs : list Row) :
  let labels := map Month (monthly_rows (ledger_monthly_groups rs)) in
  StronglySorted label_lt labels
  /\ NoDup labels
  /\ (forall label, label ∈ labels
        <-> exists r d, r ∈ rs /\ row_date r = Some d
                        /\ label = strftime_B_Y d).
Proof.
  cbv zeta. rewrite monthly_rows_labels. unfold ledger_monthly_groups.
  destruct (map_monthly_groups
              (map (fun r => option_map strftime_B_Y (row_date r)) rs)
              (map (fun r => float_of (cell_at 4 r)) rs)
              (map (fun r => float_of (cell_at 3 r)) rs)
              (map (cell_at 2) rs)) as (-> & _).
  assert (Hs : StronglySorted label_lt
                 (group_keys String.eqb String.ltb
                    (omap id (map (fun r => option_map strftime_B_Y (row_date r))
                                  rs)))).
  { apply group_keys_sorted.
    - apply string_eqb_eq.
    - apply string_ltb_trans.
    - apply string_ltb_total. }
  split; [done|]. split.
  { eapply sorted_NoDup; [exact string_ltb_irrefl|exact Hs]. }
  intros label.
  rewrite (elem_of_group_keys _ _ string_eqb_eq), list_elem_of_omap.
  split.
  - intros (x & Hx & Hd).
    apply (list_elem_of_fmap (B:=option string)) in Hx as (r & -> & Hr).
    destruct (row_date r) as [d|] eqn:E; [|done].
    injection Hd as <-. eauto.
  - intros (r & d & Hr & Hd & ->).
    exists (option_map strftime_B_Y (row_date r)). split; [|by rewrite Hd].
    by apply (list_elem_of_fmap_2 (B:=option string)
                (fun r => option_map strftime_B_Y (row_date r))).
Qed.

Lemma group_values_filter {K V} (eqb : K -> K -> bool) (k : K)
      (key : Row -> option K) (f : Row -> V) (rs : list Row) :
  group_values eqb k (map key rs) (map f rs)
  = map f (List.filter (fun r => match key r with
                                 | Some k' => eqb k k'
                                 | None => false
                                 end) rs).
Proof.
  induction rs as [|r rs IH]; cbn [map group_values List.filter]; [done|].
  destruct (key r) as [k'|]; [|done].
  destruct (eqb k k'); cbn [map]; by rewrite IH.
Qed.

Lemma filter_ext_Forall {A} (f g : A -> bool) (l : list A) :
  Forall (fun x => f x = g x) l -> List.filter f l = List.filter g l.
Proof.
  induction 1 as [|x l Hx _ IH]; cbn; [done|]. by rewrite Hx, IH.
Qed.

Lemma same_label_same_month (d : Date) (rs : list Row) :
  valid_date d = true ->
  Forall (fun r => exists d, row_date r = Some d /\ valid_date d = true) rs ->
  List.filter (fun r => match option_map strftime_B_Y (row_date r) with
                        | Some l => String.eqb (strftime_B_Y d) l
                        | None => false
                        end) rs
  = List.filter (same_month d) rs.
Proof.
  intros Hd Hrs. apply filter_ext_Forall.
  eapply Forall_impl; [exact Hrs|]. intros r (d' & Hr & Hd').
  unfold same_month. rewrite Hr. cbn [option_map].
  pose proof (strftime_B_Y_inj d d' Hd Hd') as Hinj.
  destruct (String.eqb _ _) eqn:E.
  - apply String.eqb_eq, Hinj in E as [-> ->]. by rewrite !Z.eqb_refl.
  - symmetry. apply andb_false_iff.
    destruct (year d =? year d') eqn:Ey; [|by left].
    destruct (month d =? month d') eqn:Em; [|by right].
    apply Z.eqb_eq in Ey, Em.
    assert (strftime_B_Y d = strftime_B_Y d') as Heq by by apply Hinj.
    apply String.eqb_eq in Heq. congruence.
Qed.

Lemma lookup_map {A B} (f : A -> B) (l : list A) (i : nat) (x : A) :
  l !! i = Some x -> map f l !! i = Some (f x).
Proof.
  intros H. change (map f l) with (f <$> l). by rewrite list_lookup_fmap, H.
Qed.

Lemma lookup_monthly_groups (labels : list (option string))
      (money_in money_out : list (option Q)) (details : list cell)
      (i : nat) (label : string) :
  group_keys String.eqb String.ltb (omap id labels) !! i = Some label ->
  exists m,
    monthly_rows (monthly_groups labels money_in money_out details) !! i = Some m
    /\ Month m = label
    /\ Money_In m = group_sum (group_values String.eqb label labels money_in)
    /\ Money_Out m = group_sum (group_values String.eqb label labels money_out)
    /\ Transaction_Details m
       = count_notna (group_values String.eqb label labels details).
Proof.
  intros Hi. unfold monthly_rows. cbv zeta. rewrite list_lookup_imap.
  assert (monthly_groups labels money_in money_out details !! i
          = Some (label,
                  group_sum (group_values String.eqb label labels money_in),
                  group_sum (group_values String.eqb label labels money_out),
                  count_notna (group_values String.eqb label labels details)))
    as ->.
  { unfold monthly_groups.
    exact (lookup_map
             (fun m => (m,
                group_sum (group_values String.eqb m labels money_in),
                group_sum (group_values String.eqb m labels money_out),
                count_notna (group_values String.eqb m labels details)))
             _ _ _ Hi). }
  cbn [fmap option_fmap option_map].
  eexists. split; [reflexivity|]. done.
Qed.

(** ** The normaliser and the request *)

Lemma process_tables_loop (tables : list RawTable) (pts : list (list Row)) :
  process_tables tables = Ok pts -> loop_completes tables.
Proof.
  revert pts. induction tables as [|t tables IH]; intros pts; [constructor|].
  cbn [process_tables]. intros H.
  apply bind_Ok in H as (o & Ht & H). apply bind_Ok in H as (pts' & Hts & _).
  constructor; [|by eapply IH].
  intros Hw. destruct o as [rs|].
  - by apply process_table_Some in Ht as (_ & ? & ? & _).
  - apply process_table_None in Ht. apply Nat.leb_gt in Ht. lia.
Qed.

Lemma process_pdf_loop (tables : list RawTable) (r : option DataFrame) :
  process_pdf tables = Ok r -> loop_completes tables.
Proof.
  unfold process_pdf. intros H. apply bind_Ok in H as (pts & Hpts & _).
  by eapply process_tables_loop.
Qed.

Lemma upload_file_absent (tables : list RawTable) :
  upload_file tables = Ok None <-> process_pdf tables = Ok None.
Proof.
  unfold upload_file. split.
  - intros H. apply bind_Ok in H as ([df|] & Hpdf & H); [|done].
    apply bind_Ok in H as (summary & _ & H).
    apply bind_Ok in H as ([df1 daily] & _ & H).
    apply bind_Ok in H as ([df2 monthly] & _ & H).
    apply bind_Ok in H as (dates & _ & H).
    apply bind_Ok in H as (dates' & _ & H). discriminate.
  - by intros ->.
Qed.

Lemma process_pdf_None (tables : list RawTable) :
  process_pdf tables = Ok None <-> Forall (fun t => (width t < 6)%nat) tables.
Proof.
  split.
  - unfold process_pdf. intros H. apply bind_Ok in H as (pts & Hpts & H).
    apply process_tables_Ok in Hpts as (_ & Hnil & _).
    destruct pts as [|p pts]; [by apply Hnil|].
    repeat (apply bind_Ok in H as (? & _ & H)). discriminate.
  - intros Hall. unfold process_pdf.
    assert (process_tables tables = Ok []) as ->; [|done].
    induction Hall as [|t tables Ht _ IH]; [done|].
    cbn [process_tables]. unfold process_table.
    assert ((6 <=? width t)%nat = false) as -> by (apply Nat.leb_gt; lia).
    cbn [bind]. by rewrite IH.
Qed.

Lemma process_tables_narrow (tables : list RawTable) :
  process_tables (List.filter (fun t => (6 <=? width t)%nat) tables)
  = process_tables tables.
Proof.
  induction tables as [|t tables IH]; [done|]. cbn [List.filter process_tables].
  destruct (6 <=? width t)%nat eqn:E.
  - cbn [process_tables]. by rewrite IH.
  - rewrite IH. unfold process_table. rewrite E. cbn [bind].
    by destruct (process_tables tables).
Qed.

(** The sheets of a request whose tables give the ledger [df]. *)
Lemma upload_file_ledger (tables : list RawTable) (df : DataFrame) :
  is_ledger df ->
  process_pdf tables = Ok (Some df) ->
  upload_file tables
  = let* summary := create_summary df in
    Ok (Some {| Transactions := with_date_text (with_month df);
                Summary_sheet := summary;
                Daily_Totals := ledger_daily_totals (rows df);
                Monthly_Analysis :=
                  monthly_rows (ledger_monthly_groups (rows df))
                    ++ [grand_totals
                          (monthly_rows (ledger_monthly_groups (rows df)))] |}).
Proof.
  intros Hledger Hpdf. unfold upload_file. rewrite Hpdf. cbn [bind].
  destruct (create_summary df) as [summary|e]; [|done]. cbn [bind].
  rewrite (create_daily_totals_rows df Hledger). cbn [bind].
  rewrite (create_monthly_totals_ledger df Hledger). cbn [bind].
  destruct (is_ledger_inv df Hledger) as (rs & -> & Hrows).
  destruct (dates_to_text rs Hrows) as (dates & Hget & Hdates & Hset).
  rewrite Hget. cbn [bind]. rewrite Hdates. cbn [bind]. by rewrite Hset.
Qed.

Lemma insert_clean_cell_at (i : nat) (x : cell) (r : Row) :
  i ≠ 0%nat -> <[0%nat:=x]> (clean_cell_at i r) = clean_cell_at i (<[0%nat:=x]> r).
Proof.
  intros Hi. unfold clean_cell_at.
  rewrite (cell_at_insert_ne 0 i) by done.
  by apply list_insert_insert_ne.
Qed.

Lemma insert_clean_row (x : cell) (r : Row) :
  <[0%nat:=x]> (clean_row r) = clean_row (<[0%nat:=x]> r).
Proof. unfold clean_row. by rewrite !insert_clean_cell_at. Qed.

(** A row of the first sheet, from the row of the table it comes from. *)
Lemma sheet_row_of (r : Row) :
  parses r ->
  (fun r' => <[0%nat:=date_text r']> r')
    ((fun r' => r' ++ [month_label r']) (clean_row (dated_row r)))
  = sheet_row r.
Proof.
  intros (s & d & Hs & Hd). cbn beta.
  destruct (row_date_dated_row r s d Hs Hd) as [_ Hdate].
  assert (Hlen : (0 < length (clean_row (dated_row r)))%nat).
  { rewrite length_clean_row, length_dated_row.
    apply lookup_lt_Some in Hs. lia. }
  unfold date_text, month_label.
  rewrite row_date_app by done. rewrite row_date_clean_row, Hdate.
  cbn [dt_strftime]. rewrite (strftime_after_strptime s d Hd).
  unfold sheet_row, month_of_text, cell_at. rewrite Hs. cbn [default id].
  rewrite Hd. cbn [dt_strftime].
  rewrite insert_app_l by done. f_equal.
  rewrite insert_clean_row. f_equal.
  unfold dated_row, to_datetime_format, cell_at. rewrite Hs. cbn [default id].
  rewrite Hd. rewrite list_insert_insert_eq. by apply list_insert_id.
Qed.

Lemma clean_cell_twice (c : cell) :
  to_numeric_coerce (replace_currency (to_numeric_coerce (replace_currency c)))
  = to_numeric_coerce (replace_currency c).
Proof.
  destruct c as [|s|q|d]; cbn; try done. by destruct (parse_decimal _).
Qed.

Lemma clean_cell_at_idem (i : nat) (r : Row) :
  clean_cell_at i (clean_cell_at i r) = clean_cell_at i r.
Proof.
  unfold clean_cell_at. destruct (decide (i < length r)%nat) as [Hlt|Hge].
  - rewrite cell_at_insert by done.
    by rewrite clean_cell_twice, list_insert_insert_eq.
  - rewrite (list_insert_ge r) by lia. by rewrite (list_insert_ge r) by lia.
Qed.

Lemma clean_cell_at_comm (i j : nat) (r : Row) :
  i <> j ->
  clean_cell_at i (clean_cell_at j r) = clean_cell_at j (clean_cell_at i r).
Proof.
  intros Hne. unfold clean_cell_at.
  rewrite (cell_at_insert_ne j i), (cell_at_insert_ne i j) by done.
  by apply list_insert_insert_ne.
Qed.

Lemma process_table_completes (t : RawTable) :
  ((6 <= width t)%nat ->
   width t = 7%nat /\ has_str_accessor (map (cell_at 0) (body t)) = true) ->
  exists rs, process_table t = Ok rs.
Proof.
  intros H. unfold process_table. destruct (6 <=? width t)%nat eqn:E; [|eauto].
  apply Nat.leb_le in E. destruct (H E) as [-> ->]. eauto.
Qed.

Lemma process_tables_raise (before after : list RawTable) (t : RawTable)
      (e : exception) :
  loop_completes before ->
  process_table t = Raise e ->
  process_tables (before ++ t :: after) = Raise e.
Proof.
  intros Hloop Ht. induction Hloop as [|b before Hb _ IH]; cbn [app process_tables].
  - by rewrite Ht.
  - destruct (process_table_completes b Hb) as [rs ->]. cbn [bind].
    by rewrite IH.
Qed.

(** ** The sheets and the upload folder *)

Lemma month_label_not_grand_total (d : Date) : strftime_B_Y d <> "GRAND TOTAL".
Proof.
  unfold strftime_B_Y, month_name.
  destruct (month d) as [|p|p]; [discriminate| |discriminate].
  destruct p as [p|p|]; try discriminate;
    destruct p as [p|p|]; try discriminate;
    destruct p as [p|p|]; try discriminate;
    destruct p as [p|p|]; discriminate.
Qed.

Lemma elem_of_write_headers (c : Worksheet.call) (labels : list string) :
  c ∈ write_headers labels ->
  exists col_num value, c = Worksheet.write 0 col_num value fmt_header
                        /\ labels !! col_num = Some value.
Proof.
  unfold write_headers. intros (i & Hi)%list_elem_of_lookup.
  rewrite list_lookup_imap in Hi.
  destruct (labels !! i) as [value|] eqn:E; [|done].
  injection Hi as <-. eauto.
Qed.

Lemma upload_file_columns (tables : list RawTable) (wb : Workbook) :
  rectangular tables ->
  upload_file tables = Ok (Some wb) ->
  columns (Transactions wb) = canonical_columns ++ ["Month"].
Proof.
  intros Hrect H.
  assert (exists df, process_pdf tables = Ok (Some df)) as [df Hpdf].
  { unfold upload_file in H. apply bind_Ok in H as ([df|] & Hpdf & H); [eauto|done]. }
  pose proof (process_pdf_is_ledger _ _ Hrect Hpdf) as Hledger.
  rewrite (upload_file_ledger tables df Hledger Hpdf) in H.
  apply bind_Ok in H as (summary & _ & [= <-]). cbn [Transactions].
  destruct Hledger as [Hcols _]. cbn. by rewrite Hcols.
Qed.

Lemma path_exists_remove (path : string) (folder : Folder) :
  path_exists path (remove path folder) = false.
Proof.
  unfold path_exists, remove. induction folder as [|[p f] folder IH]; cbn; [done|].
  destruct (String.eqb p path) eqn:E; cbn; [done|]. by rewrite E.
Qed.

Lemma path_exists_remove_ne (path path' : string) (folder : Folder) :
  path <> path' ->
  path_exists path (remove path' folder) = path_exists path folder.
Proof.
  intros Hne. unfold path_exists, remove.
  induction folder as [|[p f] folder IH]; cbn; [done|].
  destruct (String.eqb p path') eqn:E; cbn.
  - apply String.eqb_eq in E as ->.
    assert (String.eqb path' path = false) as -> by (apply String.eqb_neq; congruence).
    done.
  - by rewrite IH.
Qed.

Lemma remove_remove (path : string) (folder : Folder) :
  remove path (remove path folder) = remove path folder.
Proof.
  unfold remove. rewrite filter_filter. apply filter_ext_Forall, Forall_forall.
  intros f _. by rewrite andb_diag.
Qed.

Lemma path_exists_save (path : string) (content : File) (folder : Folder) :
  path_exists path (save path content folder) = true.
Proof. unfold path_exists, save. cbn. by rewrite String.eqb_refl. Qed.

Lemma remove_save (path : string) (content : File) (folder : Folder) :
  remove path (save path content folder) = remove path folder.
Proof.
  unfold save. unfold remove at 1. cbn. rewrite String.eqb_refl. cbn.
  apply remove_remove.
Qed.

Lemma two_months_summary_eq : create_summary two_months_ledger = Ok two_months_summary.
Proof. vm_compute. reflexivity. Qed.

Lemma two_months_workbook_eq : upload_file two_months = Ok (Some two_months_workbook).
Proof. vm_compute. reflexivity. Qed.

(** * Further properties *)

(** X1: [allowed_file] never raises, although it takes the second part of
    [rsplit('.', 1)]: the index is guarded by the test for a dot.  It
    accepts exactly the names that are some text, a dot and an extension
    without a dot that reads [pdf] once its letters are lowered; a name
    without a dot, and a name whose last dot is followed by anything else,
    is refused. *)
Theorem allowed_file_accepts (filename : string) :
  exists accepted,
    allowed_file filename = Ok accepted
    /\ (accepted = true
        <-> exists stem extension,
              filename = (stem ++ "." ++ extension)%string
              /\ contains_dot extension = false
              /\ lower extension = "pdf").
Proof.
  unfold allowed_file. destruct (contains_dot filename) eqn:E.
  - destruct (rsplit_dot_spec filename E) as (stem & extension & -> & H).
    rewrite (rsplit_dot_app stem extension H). cbn.
    eexists. split; [reflexivity|]. rewrite orb_false_r, String.eqb_eq. split.
    + intros Hl. by exists stem, extension.
    + intros (stem' & extension' & Heq & H' & Hl).
      change ((stem ++ "." ++ extension)%string
              = (stem' ++ "." ++ extension')%string) in Heq.
      pose proof (f_equal rsplit_dot Heq) as Hsplit.
      rewrite (rsplit_dot_app stem extension H) in Hsplit.
      rewrite (rsplit_dot_app stem' extension' H') in Hsplit.
      by injection Hsplit as _ ->.
  - exists false. split; [done|]. split; [done|].
    intros (stem & extension & -> & _).
    rewrite contains_dot_app in E. cbn in E. by rewrite orb_true_r in E.
Qed.



(** X3: on the ledger that [process_pdf] returns, the first and the last
    transaction date of the summary are dates, every row of the ledger has
    a date, none is before the first date and none is after the last
    one. *)
Theorem summary_first_and_last_date
        (tables : list RawTable) (df : DataFrame) (summary : Summary) :
  process_pdf tables = Ok (Some df) ->
  create_summary df = Ok summary ->
  exists first last,
    First_Transaction_Date summary = Dt first
    /\ Last_Transaction_Date summary = Dt last
    /\ forall r, r ∈ rows df ->
         exists d, row_date r = Some d
                   /\ date_ltb d first = false /\ date_ltb last d = false.
Proof.
  intros Hpdf Hs.
  pose proof (process_pdf_rows_dated _ _ Hpdf) as Hdated.
  pose proof (process_pdf_rows _ _ Hpdf) as (_ & _ & Hcols & _ & _ & Hsorted & _).
  destruct df as [cols rs]. cbn [columns rows] in *. subst cols.
  unfold create_summary in Hs.
  apply bind_Ok in Hs as (money_in & _ & Hs).
  apply bind_Ok in Hs as (money_out & _ & Hs).
  rewrite (get_column_canonical rs "Transaction Date" 0%nat eq_refl) in Hs.
  cbn [bind] in Hs.
  apply bind_Ok in Hs as (first & Hfirst & Hs).
  apply bind_Ok in Hs as (last & Hlast & [= <-]).
  cbn [First_Transaction_Date Last_Transaction_Date].
  unfold iloc_first in Hfirst. unfold iloc_last in Hlast.
  destruct rs as [|r0 rs']; [done|]. injection Hfirst as <-.
  destruct (list.last (map (cell_at 0) (r0 :: rs'))) as [c|] eqn:El; [|done].
  injection Hlast as <-.
  assert (list.last (map (cell_at 0) (r0 :: rs'))
          = option_map (cell_at 0) (list.last (r0 :: rs'))) as Hfl
    by apply (fmap_last (cell_at 0)).
  rewrite Hfl in El. clear Hfl.
  destruct (list.last (r0 :: rs')) as [rl|] eqn:El'; [|done].
  injection El as <-.
  apply last_Some in El' as [front Hfront].
  pose proof Hdated as Hd0. apply Forall_cons in Hd0 as [(d0 & Hc0 & Hr0) _].
  assert (rl ∈ r0 :: rs') as Hrl by (rewrite Hfront; apply elem_of_app; right; apply list_elem_of_here).
  pose proof Hdated as Hdl. eapply Forall_forall in Hdl as (dl & Hcl & Hrl'); [|exact Hrl].
  exists d0, dl. split; [done|]. split; [done|].
  intros r Hr.
  pose proof Hdated as Hd. eapply Forall_forall in Hd as (d & Hc & Hrd); [|exact Hr].
  exists d. split; [done|]. split.
  - apply elem_of_cons in Hr as [-> | Hr].
    + assert (d = d0) as -> by congruence. apply date_ltb_irrefl.
    + apply StronglySorted_inv in Hsorted as [_ Hall].
      eapply Forall_forall in Hall as (d1 & d2 & H1 & H2 & Hlt); [|exact Hr].
      congruence.
  - rewrite Hfront in Hr, Hsorted. apply elem_of_app in Hr as [Hr | Hr].
    + pose proof (StronglySorted_app_1_elem_of _ _ _ r rl Hsorted Hr
                    ltac:(apply list_elem_of_here)) as (d1 & d2 & H1 & H2 & Hlt).
      congruence.
    + apply list_elem_of_singleton in Hr as ->.
      assert (d = dl) as -> by congruence. apply date_ltb_irrefl.
Qed.

Lemma summary_first_and_last_date_witness :
  process_pdf two_months = Ok (Some two_months_ledger)
  /\ create_summary two_months_ledger = Ok two_months_summary
  /\ exists first last,
       First_Transaction_Date two_months_summary = Dt first
       /\ Last_Transaction_Date two_months_summary = Dt last
       /\ forall r, r ∈ rows two_months_ledger ->
            exists d, row_date r = Some d
                      /\ date_ltb d first = false /\ date_ltb last d = false.
Proof.
  split; [exact two_months_ledger_eq|].
  split; [exact two_months_summary_eq|].
  apply (summary_first_and_last_date two_months two_months_ledger).
  - exact two_months_ledger_eq.
  - exact two_months_summary_eq.
Defined.

(** X4: the daily table of a ledger has one row per date of the ledger: its
    dates are strictly ascending, so no date comes twice, and a date is in
    it exactly when some row of the ledger has it. *)
Theorem daily_totals_one_row_per_date
        (df df' : DataFrame) (daily : list DailyTotal) :
  is_ledger df ->
  create_daily_totals df = Ok (df', daily) ->
  StronglySorted date_lt (map daily_Transaction_Date daily)
  /\ NoDup (map daily_Transaction_Date daily)
  /\ (forall d, d ∈ map daily_Transaction_Date daily
                <-> exists r, r ∈ rows df /\ row_date r = Some d).
Proof.
  intros Hdf. rewrite (create_daily_totals_rows df Hdf). intros [= <- <-].
  apply is_ledger_inv in Hdf as (rs & -> & Hrows). cbn [rows].
  unfold ledger_daily_totals. cbn zeta. rewrite map_map. cbn [daily_Transaction_Date].
  rewrite map_id.
  assert (Hs : StronglySorted date_lt
                 (group_keys date_eqb date_ltb (omap id (map row_date rs)))).
  { apply group_keys_sorted.
    - apply date_eqb_eq.
    - apply date_ltb_trans.
    - apply date_ltb_total. }
  split; [done|]. split.
  { eapply sorted_NoDup; [exact date_ltb_irrefl|exact Hs]. }
  intros d. rewrite (elem_of_group_keys _ _ date_eqb_eq), list_elem_of_omap.
  split.
  - intros (x & Hx & Hd).
    apply (list_elem_of_fmap (B:=option Date)) in Hx as (r & -> & Hr). eauto.
  - intros (r & Hr & Hd). exists (row_date r). split; [|done].
    by apply (list_elem_of_fmap_2 (B:=option Date)).
Qed.

Lemma daily_totals_one_row_per_date_witness :
  is_ledger two_months_ledger
  /\ create_daily_totals two_months_ledger
     = Ok (two_months_ledger, ledger_daily_totals (rows two_months_ledger))
  /\ StronglySorted date_lt
       (map daily_Transaction_Date (ledger_daily_totals (rows two_months_ledger)))
  /\ NoDup (map daily_Transaction_Date
                (ledger_daily_totals (rows two_months_ledger)))
  /\ (forall d,
        d ∈ map daily_Transaction_Date
              (ledger_daily_totals (rows two_months_ledger))
        <-> exists r, r ∈ rows two_months_ledger /\ row_date r = Some d).
Proof.
  split; [exact two_months_is_ledger|].
  split; [exact (create_daily_totals_rows _ two_months_is_ledger)|].
  apply (daily_totals_one_row_per_date two_months_ledger two_months_ledger).
  - exact two_months_is_ledger.
  - exact (create_daily_totals_rows _ two_months_is_ledger).
Defined.

(** X6: the counts of the days add up to the number of rows of the ledger
    whose details are there, which is the number of all rows when no row
    lacks its details. *)
Theorem daily_counts_add_up_to_rows_with_details
        (df df' : DataFrame) (daily : list DailyTotal) :
  is_ledger df ->
  create_daily_totals df = Ok (df', daily) ->
  nat_sum (map daily_Transaction_Details daily)
  = count_notna (map (cell_at 2) (rows df))
  /\ (Forall (fun r => is_null (cell_at 2 r) = false) (rows df) ->
      nat_sum (map daily_Transaction_Details daily) = length (rows df)).
Proof.
  intros Hdf. rewrite (create_daily_totals_rows df Hdf). intros [= <- <-].
  apply is_ledger_inv in Hdf as (rs & -> & Hrows). cbn [rows].
  unfold ledger_daily_totals. cbn zeta. rewrite !map_map.
  cbn [daily_Transaction_Details].
  pose proof (ledger_rows_dated rs Hrows) as Hd.
  rewrite (grouped_counts date_eqb date_ltb row_date rs (cell_at 2)
             date_eqb_eq date_ltb_irrefl date_ltb_trans date_ltb_total Hd).
  split; [done|]. intros Hall. unfold count_notna.
  rewrite <- (length_map (cell_at 2) rs). f_equal.
  clear -Hall. induction Hall as [|r rs Hr _ IH]; cbn; [done|].
  rewrite Hr. cbn. by rewrite IH.
Qed.

Lemma daily_counts_witness :
  is_ledger two_months_ledger
  /\ create_daily_totals two_months_ledger
     = Ok (two_months_ledger, ledger_daily_totals (rows two_months_ledger))
  /\ nat_sum (map daily_Transaction_Details
                  (ledger_daily_totals (rows two_months_ledger)))
     = count_notna (map (cell_at 2) (rows two_months_ledger))
  /\ (Forall (fun r => is_null (cell_at 2 r) = false) (rows two_months_ledger) ->
      nat_sum (map daily_Transaction_Details
                   (ledger_daily_totals (rows two_months_ledger)))
      = length (rows two_months_ledger)).
Proof.
  split; [exact two_months_is_ledger|].
  split; [exact (create_daily_totals_rows _ two_months_is_ledger)|].
  apply (daily_counts_add_up_to_rows_with_details
           two_months_ledger two_months_ledger).
  - exact two_months_is_ledger.
  - exact (create_daily_totals_rows _ two_months_is_ledger).
Defined.

(** X7: the monthly table of a ledger is its monthly rows followed by the
    row GRAND TOTAL; the labels of the monthly rows are strictly ascending
    as strings, so no label comes twice, and a label is among them exactly
    when it is the month and year of some row of the ledger. *)
Theorem monthly_rows_sorted_by_label
        (df df' : DataFrame) (monthly : list MonthlyTotal) :
  is_ledger df ->
  create_monthly_totals df = Ok (df', monthly) ->
  exists months grand,
    monthly = months ++ [grand]
    /\ Month grand = "GRAND TOTAL"
    /\ StronglySorted label_lt (map Month months)
    /\ NoDup (map Month months)
    /\ (forall label, label ∈ map Month months
          <-> exists r d, r ∈ rows df /\ row_date r = Some d
                          /\ label = strftime_B_Y d).
Proof.
  intros Hdf. rewrite (create_monthly_totals_ledger df Hdf). intros [= <- <-].
  eexists _, _. split; [done|]. split; [done|].
  apply ledger_month_labels.
Qed.

Lemma monthly_rows_sorted_by_label_witness :
  is_ledger two_months_ledger
  /\ create_monthly_totals two_months_ledger
     = Ok (with_month two_months_ledger, two_months_monthly)
  /\ exists months grand,
       two_months_monthly = months ++ [grand]
       /\ Month grand = "GRAND TOTAL"
       /\ StronglySorted label_lt (map Month months)
       /\ NoDup (map Month months)
       /\ (forall label, label ∈ map Month months
             <-> exists r d, r ∈ rows two_months_ledger /\ row_date r = Some d
                             /\ label = strftime_B_Y d).
Proof.
  split; [exact two_months_is_ledger|].
  split; [exact (create_monthly_totals_ledger _ two_months_is_ledger)|].
  apply (monthly_rows_sorted_by_label two_months_ledger
           (with_month two_months_ledger)).
  - exact two_months_is_ledger.
  - exact (create_monthly_totals_ledger _ two_months_is_ledger).
Defined.

(** X8: on the ledger that [process_pdf] returns, the months are told
    apart by their labels: for each row of the ledger the monthly table has
    a monthly row with the label of its month, whose money in, money out
    and count are the sums and the count over the rows of the ledger in the
    same month of the same year. *)
Theorem monthly_row_of_a_calendar_month
        (tables : list RawTable) (df df' : DataFrame)
        (monthly : list MonthlyTotal) (r0 : Row) (d : Date) :
  rectangular tables ->
  process_pdf tables = Ok (Some df) ->
  create_monthly_totals df = Ok (df', monthly) ->
  r0 ∈ rows df ->
  row_date r0 = Some d ->
  exists i m,
    monthly !! i = Some m
    /\ (S i < length monthly)%nat
    /\ Month m = strftime_B_Y d
    /\ Money_In m
       = group_sum (map (fun r => float_of (cell_at 4 r))
                         (List.filter (same_month d) (rows df)))
    /\ Money_Out m
       = group_sum (map (fun r => float_of (cell_at 3 r))
                         (List.filter (same_month d) (rows df)))
    /\ Transaction_Details m
       = count_notna (map (cell_at 2) (List.filter (same_month d) (rows df))).
Proof.
  intros Hrect Hpdf Hm Hr0 Hd.
  pose proof (process_pdf_is_ledger _ _ Hrect Hpdf) as Hledger.
  pose proof (process_pdf_rows_valid _ _ Hpdf) as Hvalid.
  rewrite (create_monthly_totals_ledger df Hledger) in Hm.
  injection Hm as _ <-.
  assert (valid_date d = true) as Hdv.
  { eapply Forall_forall in Hvalid as (d' & Hd' & Hv); [|exact Hr0]. congruence. }
  unfold ledger_monthly_groups.
  assert (strftime_B_Y d
          ∈ group_keys String.eqb String.ltb
              (omap id (map (fun r => option_map strftime_B_Y (row_date r))
                            (rows df)))) as Hin.
  { apply (elem_of_group_keys _ _ string_eqb_eq), list_elem_of_omap.
    exists (Some (strftime_B_Y d)). split; [|done].
    apply (list_elem_of_fmap (B:=option string)). exists r0. by rewrite Hd. }
  apply list_elem_of_lookup in Hin as [i Hi].
  destruct (lookup_monthly_groups _
              (map (fun r => float_of (cell_at 4 r)) (rows df))
              (map (fun r => float_of (cell_at 3 r)) (rows df))
              (map (cell_at 2) (rows df)) i _ Hi)
    as (m & Hmi & HM & Hmin & Hmout & Hmcount).
  exists i, m.
  split; [by apply lookup_app_l_Some|].
  split.
  { apply lookup_lt_Some in Hmi. rewrite length_app. cbn. lia. }
  split; [done|]. rewrite Hmin, Hmout, Hmcount.
  rewrite !group_values_filter.
  by rewrite (same_label_same_month d (rows df) Hdv Hvalid).
Qed.

Lemma monthly_row_of_a_calendar_month_witness :
  rectangular two_months
  /\ process_pdf two_months = Ok (Some two_months_ledger)
  /\ create_monthly_totals two_months_ledger
     = Ok (with_month two_months_ledger, two_months_monthly)
  /\ [Dt (mkDate 2024 3 15); Str "15.03.2024"; Str "Salary"; NaN;
      Num (Qmake 1000 1); Num (Qmake 1000 1); Str "REF1"]
     ∈ rows two_months_ledger
  /\ row_date [Dt (mkDate 2024 3 15); Str "15.03.2024"; Str "Salary"; NaN;
               Num (Qmake 1000 1); Num (Qmake 1000 1); Str "REF1"]
     = Some (mkDate 2024 3 15)
  /\ exists i m,
       two_months_monthly !! i = Some m
       /\ (S i < length two_months_monthly)%nat
       /\ Month m = strftime_B_Y (mkDate 2024 3 15)
       /\ Money_In m
          = group_sum (map (fun r => float_of (cell_at 4 r))
                            (List.filter (same_month (mkDate 2024 3 15))
                                         (rows two_months_ledger)))
       /\ Money_Out m
          = group_sum (map (fun r => float_of (cell_at 3 r))
                            (List.filter (same_month (mkDate 2024 3 15))
                                         (rows two_months_ledger)))
       /\ Transaction_Details m
          = count_notna (map (cell_at 2)
                             (List.filter (same_month (mkDate 2024 3 15))
                                          (rows two_months_ledger))).
Proof.
  split; [repeat constructor|]. split; [vm_compute; reflexivity|].
  split; [exact (create_monthly_totals_ledger _ two_months_is_ledger)|].
  split; [apply list_elem_of_here|]. split; [reflexivity|].
  apply (monthly_row_of_a_calendar_month two_months two_months_ledger
           (with_month two_months_ledger) two_months_monthly
           [Dt (mkDate 2024 3 15); Str "15.03.2024"; Str "Salary"; NaN;
            Num (Qmake 1000 1); Num (Qmake 1000 1); Str "REF1"]).
  - repeat constructor.
  - vm_compute. reflexivity.
  - exact (create_monthly_totals_ledger _ two_months_is_ledger).
  - apply list_elem_of_here.
  - reflexivity.
Defined.

(** X9: the running totals of the monthly table accumulate down its rows,
    in the order of the table: in every monthly row the running total of
    money in is the money in of the rows down to it, added in floats from
    the top, one row after the other; so is the running total of money
    out; the running net movement is the sum of the two running totals
    of the row. *)
Theorem running_totals_are_prefix_sums
        (df df' : DataFrame) (monthly : list MonthlyTotal) (i : nat)
        (m : MonthlyTotal) :
  create_monthly_totals df = Ok (df', monthly) ->
  monthly !! i = Some m ->
  (S i < length monthly)%nat ->
  Running_Total_In m = add_from_left 0%Q (map Money_In (take (S i) monthly))
  /\ Running_Total_Out m
     = add_from_left 0%Q (map Money_Out (take (S i) monthly))
  /\ Running_Net_Movement m
     = fadd (Running_Total_In m) (Running_Total_Out m).
Proof.
  intros (groups & ->)%create_monthly_totals_Ok Hm Hi.
  rewrite length_app, length_monthly_rows in Hi. cbn in Hi.
  rewrite lookup_app_l in Hm by (rewrite length_monthly_rows; lia).
  rewrite take_app_le by (rewrite length_monthly_rows; lia).
  assert (Htake : forall {B} (f : MonthlyTotal -> B),
            map f (take (S i) (monthly_rows groups))
            = take (S i) (map f (monthly_rows groups))).
  { intros B f. apply (fmap_take f). }
  rewrite !Htake.
  destruct (monthly_rows_columns groups) as (-> & -> & _).
  apply lookup_monthly_rows in Hm
    as (g & Hg & _ & _ & _ & _ & _ & _ & Hin & Hout & Hnet).
  rewrite Hnet, Hin, Hout.
  rewrite !cumsum_lookup by (rewrite length_map; lia).
  done.
Qed.

Lemma running_totals_are_prefix_sums_witness :
  exists m,
    create_monthly_totals cents_ledger
    = Ok (with_month cents_ledger, cents_monthly)
    /\ cents_monthly !! 1%nat = Some m
    /\ (2 < length cents_monthly)%nat
    /\ Running_Total_In m
       = add_from_left 0%Q (map Money_In (take 2 cents_monthly))
    /\ Running_Total_Out m
       = add_from_left 0%Q (map Money_Out (take 2 cents_monthly))
    /\ Running_Net_Movement m
       = fadd (Running_Total_In m) (Running_Total_Out m).
Proof.
  assert (create_monthly_totals cents_ledger
          = Ok (with_month cents_ledger, cents_monthly)) as H.
  { vm_compute. reflexivity. }
  eexists. split; [exact H|].
  split; [reflexivity|].
  split; [vm_compute; lia|].
  apply (running_totals_are_prefix_sums cents_ledger
           (with_month cents_ledger) cents_monthly 1).
  - exact H.
  - reflexivity.
  - vm_compute. lia.
Defined.

(** X11: [process_pdf] returns [None], and the request answers 'No valid
    tables found', exactly when every table has fewer than six columns;
    this is so when there is no table at all. *)
Theorem no_valid_tables_found (tables : list RawTable) :
  (process_pdf tables = Ok None
   <-> Forall (fun t => (width t < 6)%nat) tables)
  /\ (upload_file tables = Ok None
      <-> Forall (fun t => (width t < 6)%nat) tables).
Proof.
  split; [apply process_pdf_None|].
  rewrite upload_file_absent. apply process_pdf_None.
Qed.

(** X12: the tables with fewer than six columns have no part in the result:
    without them [process_pdf] and the request return what they return
    with them, an exception included. *)
Theorem narrow_tables_are_skipped (tables : list RawTable) :
  process_pdf (List.filter (fun t => (6 <=? width t)%nat) tables)
  = process_pdf tables
  /\ upload_file (List.filter (fun t => (6 <=? width t)%nat) tables)
     = upload_file tables.
Proof.
  assert (process_pdf (List.filter (fun t => (6 <=? width t)%nat) tables)
          = process_pdf tables) as H.
  { unfold process_pdf. by rewrite process_tables_narrow. }
  split; [done|]. unfold upload_file. by rewrite H.
Qed.

(** X13: a monetary cell is read as its amount: when the text without its
    dollar signs and commas is an optional minus sign, a whole part, a
    point and two digits, of at most 15 digits in all, the cleaned cell is
    the float nearest to that number of hundredths, negated under a minus
    sign. *)
Theorem cleaned_amount (s : string) (negative : bool) (whole cents : Z) :
  0 <= whole -> 0 <= cents < 100 ->
  whole * 100 + cents < 10 ^ 15 ->
  strip_currency s
  = ((if negative then "-" else "") ++ amount_text whole cents)%string ->
  to_numeric_coerce (replace_currency (Str s))
  = Num (round53 (Qmake (if negative then - (whole * 100 + cents)
                         else whole * 100 + cents) 100)).
Proof.
  intros Hw Hc _ Hs.
  destruct (parse_amount_text whole cents Hw Hc) as [Hpos Hneg].
  cbn [replace_currency to_numeric_coerce]. rewrite Hs.
  destruct negative; cbn [String.append].
  - by rewrite Hneg.
  - by rewrite Hpos.
Qed.

Lemma cleaned_amount_witness :
  0 <= 1234 /\ 0 <= 56 < 100
  /\ 1234 * 100 + 56 < 10 ^ 15
  /\ strip_currency "$1,234.56"
     = ((if false then "-" else "") ++ amount_text 1234 56)%string
  /\ to_numeric_coerce (replace_currency (Str "$1,234.56"))
     = Num (round53 (Qmake (if false then - (1234 * 100 + 56)
                            else 1234 * 100 + 56) 100))
  /\ round53 (Qmake (1234 * 100 + 56) 100)
     = 2714826150374277 # 2199023255552.
Proof.
  split; [lia|]. split; [lia|]. split; [lia|].
  split; [vm_compute; reflexivity|].
  split; [|vm_compute; reflexivity].
  apply (cleaned_amount "$1,234.56" false 1234 56); [lia|lia|lia|].
  vm_compute. reflexivity.
Defined.

(** X14: cleaning the monetary cells of a row that has been cleaned changes
    nothing. *)
Theorem clean_row_idempotent (r : Row) : clean_row (clean_row r) = clean_row r.
Proof.
  unfold clean_row.
  rewrite (clean_cell_at_comm 3 5 (clean_cell_at 4 (clean_cell_at 3 r))) by done.
  rewrite (clean_cell_at_comm 4 5
             (clean_cell_at 3 (clean_cell_at 4 (clean_cell_at 3 r)))) by done.
  rewrite clean_cell_at_idem.
  rewrite (clean_cell_at_comm 3 4 (clean_cell_at 3 r)) by done.
  by rewrite !clean_cell_at_idem.
Qed.

(** X15: a date of the ledger written with [strftime('%d.%m.%Y')], as the
    request writes it to the first sheet, is read back by
    [to_datetime(format='%d.%m.%Y')] as the same date. *)
Theorem strptime_after_strftime (d : Date) :
  valid_date d = true -> strptime_dmY (strftime_dmY d) = Some d.
Proof.
  intros Hv. pose proof (valid_date_bounds d Hv) as Hb.
  unfold strftime_dmY, decimal2. rewrite decimal_four by lia.
  cbn [String.append]. unfold strptime_dmY, date_pattern_at.
  destruct (digit_char_spec (day d / 10)) as [-> E1].
  destruct (digit_char_spec (day d)) as [-> E2].
  destruct (digit_char_spec (month d / 10)) as [-> E3].
  destruct (digit_char_spec (month d)) as [-> E4].
  destruct (digit_char_spec (year d / 10 / 10 / 10)) as [-> E5].
  destruct (digit_char_spec (year d / 10 / 10)) as [-> E6].
  destruct (digit_char_spec (year d / 10)) as [-> E7].
  destruct (digit_char_spec (year d)) as [-> E8].
  cbn [andb is_dot]. change (Ascii.eqb "." ".") with true. cbn [andb].
  rewrite E1, E2, E3, E4, E5, E6, E7, E8.
  assert (mkDate
            (1000 * ((year d / 10 / 10 / 10) mod 10)
             + 100 * ((year d / 10 / 10) mod 10)
             + 10 * ((year d / 10) mod 10) + year d mod 10)
            (10 * ((month d / 10) mod 10) + month d mod 10)
            (10 * ((day d / 10) mod 10) + day d mod 10) = d) as ->.
  { destruct d as [y m dd]. cbn [year month day] in *.
    f_equal; Z.to_euclidean_division_equations; lia. }
  by rewrite Hv.
Qed.

Lemma strptime_after_strftime_witness :
  valid_date (mkDate 2024 3 15) = true
  /\ strptime_dmY (strftime_dmY (mkDate 2024 3 15)) = Some (mkDate 2024 3 15).
Proof.
  split; [reflexivity|].
  apply (strptime_after_strftime (mkDate 2024 3 15)). reflexivity.
Defined.

(** X16: [apply_excel_formatting] sets one row format on the sheet of the
    monthly table, the format of the grand total, and sets it on the row
    above the one on which [to_excel] writes the row GRAND TOTAL: the row
    with index [len(monthly_totals_df) - 1] holds the last monthly row,
    since the labels are on row 0. *)
Theorem grand_total_format_is_one_row_up
        (df df' sheet : DataFrame) (summary : Summary)
        (daily : list DailyTotal) (monthly : list MonthlyTotal)
        (g : nat) (grand : MonthlyTotal) :
  is_ledger df ->
  create_monthly_totals df = Ok (df', monthly) ->
  monthly !! g = Some grand ->
  Month grand = "GRAND TOTAL" ->
  forall row format,
    Worksheet.set_row row format
      ∈ apply_excel_formatting new_writer sheet summary daily monthly
          "Monthly Analysis"
    <-> row = to_excel_row g - 1 /\ format = fmt_grand_total.
Proof.
  intros Hdf. rewrite (create_monthly_totals_ledger df Hdf). intros [= <- <-].
  intros Hg Hlabel row format.
  destruct (ledger_month_labels (rows df)) as (_ & _ & Hlabels).
  set (months := monthly_rows (ledger_monthly_groups (rows df))) in *.
  assert (g = length months) as ->.
  { destruct (decide (g < length months)%nat) as [Hlt|Hge].
    - rewrite lookup_app_l in Hg by done.
      assert (Month grand ∈ map Month months) as Hin
        by (apply (list_elem_of_fmap_2 Month); by eapply list_elem_of_lookup_2).
      apply Hlabels in Hin as (r & d & _ & _ & Hd).
      rewrite Hlabel in Hd. symmetry in Hd. by apply month_label_not_grand_total in Hd.
    - apply lookup_lt_Some in Hg. rewrite length_app in Hg. cbn in Hg. lia. }
  unfold apply_excel_formatting, on_sheet, new_writer. cbn.
  rewrite length_app. cbn [length]. unfold to_excel_row.
  rewrite !elem_of_cons, elem_of_nil. split.
  - intros H. repeat (destruct H as [H|H]; try discriminate H).
    + injection H as -> ->. split; [lia|done].
    + done.
  - intros [-> ->]. do 19 right. left. f_equal. lia.
Qed.

Lemma grand_total_format_witness :
  is_ledger two_months_ledger
  /\ create_monthly_totals two_months_ledger
     = Ok (with_month two_months_ledger, two_months_monthly)
  /\ two_months_monthly !! 2%nat
     = Some (grand_totals
               (monthly_rows (ledger_monthly_groups (rows two_months_ledger))))
  /\ Month (grand_totals
              (monthly_rows (ledger_monthly_groups (rows two_months_ledger))))
     = "GRAND TOTAL"
  /\ forall row format,
       Worksheet.set_row row format
         ∈ apply_excel_formatting new_writer (Transactions two_months_workbook)
             two_months_summary (ledger_daily_totals (rows two_months_ledger))
             two_months_monthly "Monthly Analysis"
       <-> row = to_excel_row 2 - 1 /\ format = fmt_grand_total.
Proof.
  split; [exact two_months_is_ledger|].
  split; [exact (create_monthly_totals_ledger _ two_months_is_ledger)|].
  split; [reflexivity|]. split; [reflexivity|].
  apply (grand_total_format_is_one_row_up two_months_ledger
           (with_month two_months_ledger) (Transactions two_months_workbook)
           two_months_summary (ledger_daily_totals (rows two_months_ledger))
           two_months_monthly 2
           (grand_totals
              (monthly_rows (ledger_monthly_groups (rows two_months_ledger))))).
  - exact two_months_is_ledger.
  - exact (create_monthly_totals_ledger _ two_months_is_ledger).
  - reflexivity.
  - reflexivity.
Defined.

(** X17: the column ranges of [apply_excel_formatting] meet the labels of
    the frames: on the sheet of the monthly table the percentage format is
    on the three columns of growth and on no other, and on the sheets of
    the daily and of the monthly table the two conditional rules are on the
    column 'Net Movement' and on no other. *)
Theorem formats_meet_their_columns
        (sheet : DataFrame) (summary : Summary) (daily : list DailyTotal)
        (monthly : list MonthlyTotal) (col : nat) :
  let writer :=
    apply_excel_formatting new_writer sheet summary daily monthly in
  (column_format (writer "Monthly Analysis") col = Some fmt_percentage
   <-> exists label,
         MonthlyTotal_columns !! col = Some label
         /\ label ∈ ["Money In Growth %"; "Money Out Growth %";
                     "Transaction Count Growth %"])
  /\ (conditional_formats (writer "Monthly Analysis") 1 col <> []
      <-> MonthlyTotal_columns !! col = Some "Net Movement")
  /\ (conditional_formats (writer "Daily Totals") 1 col <> []
      <-> DailyTotal_columns !! col = Some "Net Movement").
Proof.
  cbv zeta. unfold apply_excel_formatting, on_sheet, new_writer. cbn.
  do 12 (destruct col as [|col];
         [cbn; repeat split; try done; try discriminate;
          try (by intros (label & [= <-] & H);
               rewrite !elem_of_cons, elem_of_nil in H;
               repeat (destruct H as [H|H]; try discriminate H));
          try (intros _; eexists; split; [reflexivity|];
               rewrite !elem_of_cons; tauto)|]).
  cbn. repeat split; try done; try discriminate.
  by intros (label & ? & _).
Qed.

(** X18: the column 'Month' that [create_monthly_totals] adds to the ledger
    is the eighth column of the first sheet: its label is written in the
    header format and the filter spans it (from the labels to the last row,
    columns 0 to 7), yet it has no column format, while each of the seven
    columns before it has one. *)
Theorem month_column_on_the_first_sheet (tables : list RawTable) (wb : Workbook) :
  rectangular tables ->
  upload_file tables = Ok (Some wb) ->
  let calls :=
    apply_excel_formatting new_writer (Transactions wb) (Summary_sheet wb)
      (Daily_Totals wb) (Monthly_Analysis wb) "Transactions" in
  columns (Transactions wb) !! 7%nat = Some "Month"
  /\ Worksheet.write 0 7 "Month" fmt_header ∈ calls
  /\ (forall first_row first_col last_row last_col,
        Worksheet.autofilter first_row first_col last_row last_col ∈ calls
        <-> first_row = 0 /\ first_col = 0
            /\ last_row = Z.of_nat (length (rows (Transactions wb)))
            /\ last_col = 7)
  /\ column_format calls 7 = None
  /\ (forall col, (col < 7)%nat -> is_Some (column_format calls col)).
Proof.
  intros Hrect H. cbv zeta.
  pose proof (upload_file_columns tables wb Hrect H) as Hcols.
  unfold apply_excel_formatting, on_sheet, new_writer. rewrite Hcols. cbn.
  split; [done|]. split; [do 13 right; by left|]. split; [|split; [done|]].
  - intros a b c d. rewrite !elem_of_cons, elem_of_nil. split.
    + intros Hin. repeat (destruct Hin as [Hin|Hin]; try discriminate Hin).
      * by injection Hin as -> -> -> ->.
      * done.
    + intros (-> & -> & -> & ->). do 5 right. by left.
  - intros col Hcol.
    do 7 (destruct col as [|col]; [by eexists|]). lia.
Qed.

Lemma month_column_on_the_first_sheet_witness :
  rectangular two_months
  /\ upload_file two_months = Ok (Some two_months_workbook)
  /\ columns (Transactions two_months_workbook) !! 7%nat = Some "Month"
  /\ Worksheet.write 0 7 "Month" fmt_header
     ∈ apply_excel_formatting new_writer (Transactions two_months_workbook)
         (Summary_sheet two_months_workbook) (Daily_Totals two_months_workbook)
         (Monthly_Analysis two_months_workbook) "Transactions"
  /\ (forall first_row first_col last_row last_col,
        Worksheet.autofilter first_row first_col last_row last_col
          ∈ apply_excel_formatting new_writer (Transactions two_months_workbook)
              (Summary_sheet two_months_workbook)
              (Daily_Totals two_months_workbook)
              (Monthly_Analysis two_months_workbook) "Transactions"
        <-> first_row = 0 /\ first_col = 0
            /\ last_row
               = Z.of_nat (length (rows (Transactions two_months_workbook)))
            /\ last_col = 7)
  /\ column_format
       (apply_excel_formatting new_writer (Transactions two_months_workbook)
          (Summary_sheet two_months_workbook) (Daily_Totals two_months_workbook)
          (Monthly_Analysis two_months_workbook) "Transactions") 7
     = None
  /\ (forall col, (col < 7)%nat ->
        is_Some (column_format
                   (apply_excel_formatting new_writer
                      (Transactions two_months_workbook)
                      (Summary_sheet two_months_workbook)
                      (Daily_Totals two_months_workbook)
                      (Monthly_Analysis two_months_workbook) "Transactions")
                   col)).
Proof.
  split; [repeat constructor|].
  split; [exact two_months_workbook_eq|].
  apply (month_column_on_the_first_sheet two_months two_months_workbook).
  - repeat constructor.
  - exact two_months_workbook_eq.
Defined.

(** X19: the request produces the sheets exactly when the loop over the
    tables runs to its end, every row that the filter keeps has a first
    cell that reads as a date, and at least one row is kept. *)
Theorem upload_file_gives_a_workbook (tables : list RawTable) :
  rectangular tables ->
  (exists wb, upload_file tables = Ok (Some wb))
  <-> loop_completes tables
      /\ Forall parses (List.filter date_found (candidate_rows tables))
      /\ List.filter date_found (candidate_rows tables) <> [].
Proof.
  intros Hrect. split.
  - intros [wb H].
    assert (exists df, process_pdf tables = Ok (Some df)) as [df Hpdf].
    { unfold upload_file in H. apply bind_Ok in H as ([df|] & Hpdf & H); [eauto|done]. }
    pose proof (process_pdf_is_ledger _ _ Hrect Hpdf) as Hledger.
    rewrite (upload_file_ledger tables df Hledger Hpdf) in H.
    apply bind_Ok in H as (summary & Hs%create_summary_empty & _).
    split; [by eapply process_pdf_loop|].
    pose proof (process_pdf_rows _ _ Hpdf) as (Hparses & Hkept & _ & _ & Hperm & _).
    rewrite Hkept. split; [done|].
    intros Hnil. rewrite Hnil in Hperm. by apply Permutation_nil_r in Hperm.
  - intros (Hloop & Hparses & Hne).
    assert (Exists (fun t => (6 <= width t)%nat) tables) as Hex.
    { assert (List.filter (fun t => (6 <=? width t)%nat) tables = []
              \/ Exists (fun t => (6 <= width t)%nat) tables) as [Hnil|?]; [| |done].
      - clear. induction tables as [|t ts [IH|IH]]; cbn [List.filter].
        + by left.
        + destruct (6 <=? width t)%nat eqn:E; [|by left].
          right. apply Exists_cons_hd. by apply Nat.leb_le.
        + right. by apply Exists_cons_tl.
      - exfalso. apply Hne. unfold candidate_rows. by rewrite Hnil. }
    destruct (process_pdf_run tables Hloop Hex) as [[_ Hpdf]|[Hbad _]].
    2:{ apply Exists_exists in Hbad as (r & Hr & Hbad).
        eapply Forall_forall in Hparses; [|exact Hr]. done. }
    pose proof (process_pdf_is_ledger _ _ Hrect Hpdf) as Hledger.
    rewrite (upload_file_ledger tables _ Hledger Hpdf).
    destruct (create_summary_ledger _ Hledger) as [summary ->]; [|cbn [bind]; eauto].
    pose proof (process_pdf_rows _ _ Hpdf) as (_ & _ & _ & _ & Hperm & _).
    intros Hnil. rewrite Hnil in Hperm. apply Permutation_nil_l in Hperm.
    symmetry in Hperm. apply fmap_nil_inv in Hperm.
    pose proof (process_pdf_rows _ _ Hpdf) as (_ & Hkept & _).
    by rewrite Hkept in Hne.
Qed.

Lemma upload_file_gives_a_workbook_witness :
  rectangular two_months
  /\ ((exists wb, upload_file two_months = Ok (Some wb))
      <-> loop_completes two_months
          /\ Forall parses (List.filter date_found (candidate_rows two_months))
          /\ List.filter date_found (candidate_rows two_months) <> []).
Proof.
  split; [repeat constructor|].
  apply (upload_file_gives_a_workbook two_months). repeat constructor.
Defined.

(** X20: the first sheet has the seven canonical columns and 'Month', and
    its rows are, in some order, the rows of the tables whose first cell is
    [DD.MM.YYYY] and nothing else, each with its monetary cells cleaned and
    the label of its month appended; the date is the text of the table and
    the other cells are as they were. *)
Theorem transactions_sheet_rows (tables : list RawTable) (wb : Workbook) :
  rectangular tables ->
  upload_file tables = Ok (Some wb) ->
  columns (Transactions wb) = canonical_columns ++ ["Month"]
  /\ rows (Transactions wb)
     ≡ₚ map sheet_row (List.filter date_strict (candidate_rows tables)).
Proof.
  intros Hrect H.
  assert (exists df, process_pdf tables = Ok (Some df)) as [df Hpdf].
  { unfold upload_file in H. apply bind_Ok in H as ([df|] & Hpdf & H); [eauto|done]. }
  pose proof (process_pdf_is_ledger _ _ Hrect Hpdf) as Hledger.
  rewrite (upload_file_ledger tables df Hledger Hpdf) in H.
  apply bind_Ok in H as (summary & _ & [= <-]). cbn [Transactions].
  pose proof (process_pdf_rows _ _ Hpdf) as (Hparses & _ & Hcols & _ & Hperm & _).
  split; [cbn; by rewrite Hcols|].
  unfold with_date_text, with_month. cbn [rows columns].
  rewrite Hperm, !map_map.
  assert (forall l l' : list Row, l = l' -> l ≡ₚ l') as Heq by (by intros ? ? ->).
  apply Heq, map_ext_Forall.
  eapply Forall_impl; [exact Hparses|]. intros r Hr. by apply sheet_row_of.
Qed.

Lemma transactions_sheet_rows_witness :
  rectangular two_months
  /\ upload_file two_months = Ok (Some two_months_workbook)
  /\ columns (Transactions two_months_workbook) = canonical_columns ++ ["Month"]
  /\ rows (Transactions two_months_workbook)
     ≡ₚ map sheet_row (List.filter date_strict (candidate_rows two_months)).
Proof.
  split; [repeat constructor|].
  split; [exact two_months_workbook_eq|].
  apply (transactions_sheet_rows two_months).
  - repeat constructor.
  - exact two_months_workbook_eq.
Defined.

(** X21: a request with a name that is allowed is answered, and the upload
    is not in the folder afterwards, whatever happened; when no table is
    valid or the processing raises, the folder is as before, without what
    was at the path of the upload. *)
Theorem upload_is_removed
        (secure_filename : string -> string) (join : string -> string -> string)
        (name : string) (tables : option (list RawTable)) (folder : Folder) :
  name <> "" ->
  allowed_file name = Ok true ->
  let pdf_path := join UPLOAD_FOLDER (secure_filename name) in
  exists response folder',
    upload_file_route secure_filename join (Some name) tables folder
    = Ok (response, folder')
    /\ path_exists pdf_path folder' = false
    /\ (response = No_valid_tables_found
        \/ response = Error_processing_PDF tabula_error
        \/ (exists e, response = Error_processing_PDF (raised e)) ->
        folder' = remove pdf_path folder).
Proof.
  intros Hname Hallowed. cbv zeta. unfold upload_file_route.
  apply String.eqb_neq in Hname. rewrite Hname, Hallowed. cbn [bind].
  set (pdf_path := join UPLOAD_FOLDER (secure_filename name)).
  assert (Hfailed : forall outcome,
    exists response folder',
      (let '(outcome, folder) := (outcome, save pdf_path Uploaded folder) in
       let response :=
         match outcome with
         | inl e => Error_processing_PDF e
         | inr response => response
         end in
       let folder :=
         if path_exists pdf_path folder then remove pdf_path folder else folder in
       Ok (response, folder)) = Ok (response, folder')
      /\ path_exists pdf_path folder' = false
      /\ folder' = remove pdf_path folder).
  { intros outcome. cbv zeta beta iota.
    rewrite path_exists_save, remove_save. eexists _, _.
    split; [reflexivity|]. split; [apply path_exists_remove|done]. }
  unfold try_upload.
  destruct tables as [tables|].
  2:{ destruct (Hfailed (inl tabula_error)) as (r & f & H1 & H2 & H3). eauto 10. }
  destruct (upload_file tables) as [[wb|]|e].
  2:{ destruct (Hfailed (inr No_valid_tables_found)) as (r & f & H1 & H2 & H3).
      eauto 10. }
  2:{ destruct (Hfailed (inl (raised e))) as (r & f & H1 & H2 & H3). eauto 10. }
  destruct (index (rsplit_dot (secure_filename name)) 0) as [stem|e].
  2:{ destruct (Hfailed (inl (raised e))) as (r & f & H1 & H2 & H3). eauto 10. }
  cbv zeta.
  set (excel_path := join UPLOAD_FOLDER (stem ++ ".xlsx")%string).
  set (folder1 := save excel_path _ (save pdf_path Uploaded folder)).
  destruct (path_exists pdf_path folder1) eqn:E1.
  - destruct (path_exists excel_path (remove pdf_path folder1)) eqn:E2;
      rewrite path_exists_remove; eexists _, _;
      (split; [reflexivity|]); (split; [apply path_exists_remove|]);
      intros [H|[H|[e H]]]; discriminate H.
  - rewrite E1. eexists _, _. split; [reflexivity|]. split; [done|].
    intros [H|[H|[e H]]]; discriminate H.
Qed.

Lemma upload_is_removed_witness :
  "statement.PDF" <> ""
  /\ allowed_file "statement.PDF" = Ok true
  /\ exists response folder',
       upload_file_route keep_name join_with_slash
         (Some "statement.PDF") (Some two_months) []
       = Ok (response, folder')
       /\ path_exists (join_with_slash UPLOAD_FOLDER (keep_name "statement.PDF"))
                      folder' = false
       /\ (response = No_valid_tables_found
           \/ response = Error_processing_PDF tabula_error
           \/ (exists e, response = Error_processing_PDF (raised e)) ->
           folder'
           = remove (join_with_slash UPLOAD_FOLDER (keep_name "statement.PDF"))
                    []).
Proof.
  split; [discriminate|]. split; [reflexivity|].
  apply (upload_is_removed keep_name join_with_slash
           "statement.PDF" (Some two_months) []).
  - discriminate.
  - reflexivity.
Defined.

(** X22: when the request answers with a download, the tables gave the
    sheets, the download is named as the saved upload with [.xlsx] for its
    extension, and the spreadsheet is still in the upload folder after the
    request, which removes the upload only. *)
Theorem spreadsheet_stays_in_the_folder
        (secure_filename : string -> string) (join : string -> string -> string)
        (file : option string) (tables : option (list RawTable))
        (folder folder' : Folder) (path download_name : string) :
  upload_file_route secure_filename join file tables folder
  = Ok (send_file path download_name, folder') ->
  exists name extracted wb stem,
    file = Some name /\ tables = Some extracted
    /\ allowed_file name = Ok true
    /\ upload_file extracted = Ok (Some wb)
    /\ index (rsplit_dot (secure_filename name)) 0 = Ok stem
    /\ download_name = (stem ++ ".xlsx")%string
    /\ path = join UPLOAD_FOLDER download_name
    /\ (path,
        Spreadsheet wb
          (apply_excel_formatting new_writer (Transactions wb)
             (Summary_sheet wb) (Daily_Totals wb) (Monthly_Analysis wb)))
       ∈ folder'
    /\ path_exists (join UPLOAD_FOLDER (secure_filename name)) folder' = false.
Proof.
  unfold upload_file_route. destruct file as [name|]; [|discriminate].
  destruct (String.eqb name ""); [discriminate|].
  destruct (allowed_file name) as [[|]|e] eqn:Hallowed; cbn [bind];
    [|discriminate|discriminate].
  unfold try_upload. destruct tables as [tables|]; [|discriminate].
  destruct (upload_file tables) as [[wb|]|e] eqn:Hwb; [|discriminate|discriminate].
  destruct (index (rsplit_dot (secure_filename name)) 0) as [stem|e] eqn:Hstem;
    [|discriminate].
  cbv zeta.
  set (pdf_path := join UPLOAD_FOLDER (secure_filename name)).
  set (excel_path := join UPLOAD_FOLDER (stem ++ ".xlsx")%string).
  set (content := Spreadsheet wb _).
  set (folder1 := save excel_path content (save pdf_path Uploaded folder)).
  destruct (path_exists pdf_path folder1) eqn:E1; [|rewrite E1; discriminate].
  destruct (path_exists excel_path (remove pdf_path folder1)) eqn:E2;
    rewrite path_exists_remove; [|discriminate].
  assert (excel_path <> pdf_path) as Hne.
  { intros Heq. rewrite Heq, path_exists_remove in E2. discriminate. }
  assert (Hin : (excel_path, content) ∈ remove pdf_path folder1).
  { unfold folder1, save. unfold remove at 1. cbn [List.filter fst].
    assert (String.eqb excel_path pdf_path = false) as ->
      by by apply String.eqb_neq.
    cbn [negb]. apply list_elem_of_here. }
  pose proof (path_exists_remove pdf_path folder1) as Hgone.
  intros [= <- <- <-].
  exists name, tables, wb, stem.
  split; [done|]. split; [done|]. split; [done|]. split; [done|].
  split; [done|]. split; [done|]. split; [done|].
  split; [exact Hin|exact Hgone].
Qed.

Lemma spreadsheet_stays_witness :
  upload_file_route keep_name join_with_slash
    (Some "statement.PDF") (Some two_months) []
  = Ok (send_file "uploads/statement.xlsx" "statement.xlsx",
        [("uploads/statement.xlsx",
          Spreadsheet two_months_workbook
            (apply_excel_formatting new_writer (Transactions two_months_workbook)
               (Summary_sheet two_months_workbook)
               (Daily_Totals two_months_workbook)
               (Monthly_Analysis two_months_workbook)))])
  /\ exists name extracted wb stem,
       Some "statement.PDF" = Some name /\ Some two_months = Some extracted
       /\ allowed_file name = Ok true
       /\ upload_file extracted = Ok (Some wb)
       /\ index (rsplit_dot (keep_name name)) 0 = Ok stem
       /\ "statement.xlsx" = (stem ++ ".xlsx")%string
       /\ "uploads/statement.xlsx" = join_with_slash UPLOAD_FOLDER "statement.xlsx"
       /\ ("uploads/statement.xlsx",
           Spreadsheet wb
             (apply_excel_formatting new_writer (Transactions wb)
                (Summary_sheet wb) (Daily_Totals wb) (Monthly_Analysis wb)))
          ∈ [("uploads/statement.xlsx",
              Spreadsheet two_months_workbook
                (apply_excel_formatting new_writer
                   (Transactions two_months_workbook)
                   (Summary_sheet two_months_workbook)
                   (Daily_Totals two_months_workbook)
                   (Monthly_Analysis two_months_workbook)))]
       /\ path_exists (join_with_slash UPLOAD_FOLDER (keep_name name))
            [("uploads/statement.xlsx",
              Spreadsheet two_months_workbook
                (apply_excel_formatting new_writer
                   (Transactions two_months_workbook)
                   (Summary_sheet two_months_workbook)
                   (Daily_Totals two_months_workbook)
                   (Monthly_Analysis two_months_workbook)))]
          = false.
Proof.
  assert (H : upload_file_route keep_name join_with_slash
                (Some "statement.PDF") (Some two_months) []
              = Ok (send_file "uploads/statement.xlsx" "statement.xlsx",
                    [("uploads/statement.xlsx",
                      Spreadsheet two_months_workbook
                        (apply_excel_formatting new_writer
                           (Transactions two_months_workbook)
                           (Summary_sheet two_months_workbook)
                           (Daily_Totals two_months_workbook)
                           (Monthly_Analysis two_months_workbook)))])).
  { unfold upload_file_route, try_upload. cbn [String.eqb Ascii.eqb Bool.eqb].
    change (allowed_file "statement.PDF") with (Ok true). cbn [bind].
    rewrite two_months_workbook_eq. reflexivity. }
  split; [exact H|].
  exact (spreadsheet_stays_in_the_folder keep_name join_with_slash
           (Some "statement.PDF") (Some two_months) [] _
           "uploads/statement.xlsx" "statement.xlsx" H).
Defined.



(** X24: a table of seven columns with at least one row and no string in
    its first column makes [process_pdf], and so the request, raise at the
    [.str] accessor, whatever the tables after it hold, when the loop has
    come as far as this table. *)
Theorem first_column_without_strings
        (before after : list RawTable) (t : RawTable) :
  loop_completes before ->
  width t = 7%nat ->
  body t <> [] ->
  Forall (fun r => is_Str (cell_at 0 r) = false) (body t) ->
  process_pdf (before ++ t :: after) = Raise AttributeError_str_accessor
  /\ upload_file (before ++ t :: after) = Raise AttributeError_str_accessor.
Proof.
  intros Hloop Hw Hne Hall.
  assert (process_table t = Raise AttributeError_str_accessor) as Ht.
  { unfold process_table. rewrite Hw. cbn [Nat.leb length canonical_columns Nat.eqb].
    assert (has_str_accessor (map (cell_at 0) (body t)) = false) as ->; [|done].
    unfold has_str_accessor. destruct (body t) as [|r rs]; [done|].
    cbn [map]. clear -Hall. cbn [existsb].
    apply Forall_cons in Hall as [-> Hall]. cbn [orb].
    induction Hall as [|r' rs Hr _ IH]; cbn; [done|]. by rewrite Hr. }
  assert (process_pdf (before ++ t :: after) = Raise AttributeError_str_accessor)
    as Hpdf.
  { unfold process_pdf. by rewrite (process_tables_raise before after t _ Hloop Ht). }
  split; [done|]. unfold upload_file. by rewrite Hpdf.
Qed.

Lemma first_column_without_strings_witness :
  loop_completes two_months
  /\ width continuation_table = 7%nat
  /\ body continuation_table <> []
  /\ Forall (fun r => is_Str (cell_at 0 r) = false) (body continuation_table)
  /\ process_pdf (two_months ++ continuation_table :: [])
     = Raise AttributeError_str_accessor
  /\ upload_file (two_months ++ continuation_table :: [])
     = Raise AttributeError_str_accessor.
Proof.
  assert (loop_completes two_months) as H1.
  { repeat constructor. }
  assert (Forall (fun r => is_Str (cell_at 0 r) = false) (body continuation_table))
    as H4.
  { repeat constructor. }
  split; [exact H1|]. split; [reflexivity|]. split; [discriminate|].
  split; [exact H4|].
  apply (first_column_without_strings two_months [] continuation_table);
    [exact H1|reflexivity|discriminate|exact H4].
Defined.

(** X25: a table of six columns or of eight and more, at any place of the
    list, makes [process_pdf], and so the request, raise at the assignment
    of the seven labels, whatever the tables after it hold, when the loop
    has come as far as this table. *)
Theorem width_other_than_seven
        (before after : list RawTable) (t : RawTable) :
  loop_completes before ->
  (6 <= width t)%nat ->
  width t <> 7%nat ->
  process_pdf (before ++ t :: after) = Raise ValueError_length_mismatch
  /\ upload_file (before ++ t :: after) = Raise ValueError_length_mismatch.
Proof.
  intros Hloop Hw Hne.
  assert (process_table t = Raise ValueError_length_mismatch) as Ht.
  { unfold process_table.
    assert ((6 <=? width t)%nat = true) as -> by by apply Nat.leb_le.
    assert ((width t =? length canonical_columns)%nat = false) as ->
      by by apply Nat.eqb_neq.
    done. }
  assert (process_pdf (before ++ t :: after) = Raise ValueError_length_mismatch)
    as Hpdf.
  { unfold process_pdf. by rewrite (process_tables_raise before after t _ Hloop Ht). }
  split; [done|]. unfold upload_file. by rewrite Hpdf.
Qed.

Lemma width_other_than_seven_witness :
  loop_completes two_months
  /\ (6 <= width eight_columns)%nat
  /\ width eight_columns <> 7%nat
  /\ process_pdf (two_months ++ eight_columns :: [])
     = Raise ValueError_length_mismatch
  /\ upload_file (two_months ++ eight_columns :: [])
     = Raise ValueError_length_mismatch.
Proof.
  assert (loop_completes two_months) as H1.
  { repeat constructor. }
  assert (6 <= width eight_columns)%nat as H2.
  { cbn. lia. }
  split; [exact H1|]. split; [exact H2|]. split; [discriminate|].
  apply (width_other_than_seven two_months [] eight_columns);
    [exact H1|exact H2|discriminate].
Defined.


